(** * schedule (MicroPython port): a shallow embedding of schedule/__init__.py

    The module is embedded as a small state-and-exception monad over a
    [World] that holds what the Python module state holds: the [Job]
    objects (by reference, so that in-place mutation and aliasing are
    kept), the default scheduler's [jobs] and [tasks] lists, and the
    asyncio tasks.  The environment ([Env]) supplies what the program reads
    from outside: the successive readings of
    [datetime.datetime.now(tz=timezone.utc)], the raw draws behind
    [random.randint], and what [eval(job_func_name)] resolves to.

    Conventions.
    - A [datetime] is an aware UTC instant, counted in microseconds since
      0001-01-01T00:00:00 (Python's ordinal 1, a Monday); a [timedelta] is a
      signed number of microseconds.  Python's range limits on both
      (OverflowError) are not modelled: arithmetic is on unbounded [Z].
    - Strings are byte strings, and the regular expressions follow
      MicroPython's [re]: a digit class is '0'..'9' and the dollar sign
      matches at the end of the input only.
    - Logging has no effect on the state and is left out.  The [calls]
      field of the world is a history variable: it records calls of
      [_run_job], [_schedule_next_run] and of the job function, in order;
      no embedded code reads it. *)

From Stdlib Require Import ZArith List String Ascii Bool Lia.
From Stdlib Require Import Permutation Sorted.
Import ListNotations.
Local Open Scope string_scope.
Local Open Scope list_scope.
Local Open Scope Z_scope.

Set Implicit Arguments.

(** ** Instants, durations, times of day *)

Definition datetime := Z.
Definition timedelta := Z.

Definition us_per_second : Z := 1000000.
Definition us_per_minute : Z := 60 * us_per_second.
Definition us_per_hour : Z := 60 * us_per_minute.
Definition us_per_day : Z := 24 * us_per_hour.
Definition us_per_week : Z := 7 * us_per_day.

(** [datetime.time(hour, minute, second)], naive. *)
Record time := mk_time
  { t_hour : Z; t_minute : Z; t_second : Z; t_microsecond : Z }.

(** [datetime.datetime.weekday()]: Monday is 0. *)
Definition weekday (d : datetime) : Z := (d / us_per_day) mod 7.

Definition dt_date (d : datetime) : Z := (d / us_per_day) * us_per_day.
Definition dt_hour (d : datetime) : Z := (d mod us_per_day) / us_per_hour.
Definition dt_minute (d : datetime) : Z := (d mod us_per_hour) / us_per_minute.
Definition dt_second (d : datetime) : Z := (d mod us_per_minute) / us_per_second.
Definition dt_microsecond (d : datetime) : Z := d mod us_per_second.

(** [datetime.datetime.time()] *)
Definition dt_time (d : datetime) : time :=
  mk_time (dt_hour d) (dt_minute d) (dt_second d) (dt_microsecond d).

(** [a > b] on [datetime.time] values. *)
Definition time_gt (a b : time) : bool :=
  (t_hour a >? t_hour b)
  || ((t_hour a =? t_hour b)
      && ((t_minute a >? t_minute b)
          || ((t_minute a =? t_minute b)
              && ((t_second a >? t_second b)
                  || ((t_second a =? t_second b)
                      && (t_microsecond a >? t_microsecond b)))))).

(** [d.replace(hour=.., minute=.., second=.., microsecond=..)]: a keyword
    that is not passed keeps the field of [d]. *)
Definition dt_replace (h m : option Z) (s us : Z) (d : datetime) : datetime :=
  dt_date d
  + (match h with Some x => x | None => dt_hour d end) * us_per_hour
  + (match m with Some x => x | None => dt_minute d end) * us_per_minute
  + s * us_per_second + us.

(** [timedelta.days] *)
Definition td_days (td : timedelta) : Z := td / us_per_day.

(** [datetime.timedelta] called with the single keyword [unit] set to
    [n], for the five units the scheduler accepts; any other keyword is a
    TypeError in Python and is excluded by the check that precedes every
    use. *)
Definition timedelta_of (u : option string) (n : Z) : timedelta :=
  match u with
  | Some "seconds" => n * us_per_second
  | Some "minutes" => n * us_per_minute
  | Some "hours" => n * us_per_hour
  | Some "days" => n * us_per_day
  | Some "weeks" => n * us_per_week
  | _ => 0
  end.

(** ** Exceptions *)

Inductive exn :=
| ScheduleError | ScheduleValueError | IntervalError
| TypeError | ValueError | AssertionError | NameError | AttributeError
| JobFailure.

(** Direct superclass among the module's own exception classes. *)
Definition exn_base (e : exn) : option exn :=
  match e with
  | IntervalError => Some ScheduleValueError
  | ScheduleValueError => Some ScheduleError
  | _ => None
  end.

Definition exn_eqb (a b : exn) : bool :=
  match a, b with
  | ScheduleError, ScheduleError | ScheduleValueError, ScheduleValueError
  | IntervalError, IntervalError | TypeError, TypeError
  | ValueError, ValueError | AssertionError, AssertionError
  | NameError, NameError | AttributeError, AttributeError
  | JobFailure, JobFailure => true
  | _, _ => false
  end.

(** [isinstance(e, cls)]: the class chain is at most three long. *)
Definition isinstance (e cls : exn) : bool :=
  exn_eqb e cls
  || match exn_base e with
     | Some b => exn_eqb b cls
                 || match exn_base b with
                    | Some b' => exn_eqb b' cls
                    | None => false
                    end
     | None => false
     end.

(** ** Objects *)

Definition NoneType := Datatypes.unit.
Definition JobRef := nat.
Definition TaskRef := nat.

(** The only [Scheduler] instance of the module. *)
Inductive SchedulerRef := default_scheduler.

(** What a job function's coroutine does once the event loop runs it. *)
Inductive Value := VNone | VCancelJob | VOther (repr : string).
Inductive Coro := Finishes (result : Value) | Fails | NeverFinishes.

Record Job := mkJob
  { interval : Z;
    latest : option Z;
    job_func : option Coro;
    args : option (list string);
    kwargs : option (list (string * string));
    job_func_name : option string;
    unit : option string;
    at_time : option time;
    last_run : option datetime;
    next_run : option datetime;
    period : option timedelta;
    start_day : option string;
    cancel_after : option datetime;
    scheduler : option SchedulerRef }.

(** [Job.__init__] *)
Definition Job_init (interval : Z) (scheduler : option SchedulerRef) : Job :=
  mkJob interval None None None None None None None None None None None None
        scheduler.

Definition set_latest v (j : Job) : Job :=
  mkJob (interval j) v (job_func j) (args j) (kwargs j) (job_func_name j)
        (unit j) (at_time j) (last_run j) (next_run j) (period j)
        (start_day j) (cancel_after j) (scheduler j).
Definition set_job_func v (j : Job) : Job :=
  mkJob (interval j) (latest j) v (args j) (kwargs j) (job_func_name j)
        (unit j) (at_time j) (last_run j) (next_run j) (period j)
        (start_day j) (cancel_after j) (scheduler j).
Definition set_args v (j : Job) : Job :=
  mkJob (interval j) (latest j) (job_func j) v (kwargs j) (job_func_name j)
        (unit j) (at_time j) (last_run j) (next_run j) (period j)
        (start_day j) (cancel_after j) (scheduler j).
Definition set_kwargs v (j : Job) : Job :=
  mkJob (interval j) (latest j) (job_func j) (args j) v (job_func_name j)
        (unit j) (at_time j) (last_run j) (next_run j) (period j)
        (start_day j) (cancel_after j) (scheduler j).
Definition set_job_func_name v (j : Job) : Job :=
  mkJob (interval j) (latest j) (job_func j) (args j) (kwargs j) v
        (unit j) (at_time j) (last_run j) (next_run j) (period j)
        (start_day j) (cancel_after j) (scheduler j).
Definition set_unit v (j : Job) : Job :=
  mkJob (interval j) (latest j) (job_func j) (args j) (kwargs j)
        (job_func_name j) v (at_time j) (last_run j) (next_run j) (period j)
        (start_day j) (cancel_after j) (scheduler j).
Definition set_at_time v (j : Job) : Job :=
  mkJob (interval j) (latest j) (job_func j) (args j) (kwargs j)
        (job_func_name j) (unit j) v (last_run j) (next_run j) (period j)
        (start_day j) (cancel_after j) (scheduler j).
Definition set_last_run v (j : Job) : Job :=
  mkJob (interval j) (latest j) (job_func j) (args j) (kwargs j)
        (job_func_name j) (unit j) (at_time j) v (next_run j) (period j)
        (start_day j) (cancel_after j) (scheduler j).
Definition set_next_run v (j : Job) : Job :=
  mkJob (interval j) (latest j) (job_func j) (args j) (kwargs j)
        (job_func_name j) (unit j) (at_time j) (last_run j) v (period j)
        (start_day j) (cancel_after j) (scheduler j).
Definition set_period v (j : Job) : Job :=
  mkJob (interval j) (latest j) (job_func j) (args j) (kwargs j)
        (job_func_name j) (unit j) (at_time j) (last_run j) (next_run j) v
        (start_day j) (cancel_after j) (scheduler j).
Definition set_start_day v (j : Job) : Job :=
  mkJob (interval j) (latest j) (job_func j) (args j) (kwargs j)
        (job_func_name j) (unit j) (at_time j) (last_run j) (next_run j)
        (period j) v (cancel_after j) (scheduler j).
Definition set_cancel_after v (j : Job) : Job :=
  mkJob (interval j) (latest j) (job_func j) (args j) (kwargs j)
        (job_func_name j) (unit j) (at_time j) (last_run j) (next_run j)
        (period j) (start_day j) v (scheduler j).

(** An asyncio task created by [Job.run]. *)
Record Task := mkTask
  { task_job : JobRef; task_coro : Coro; task_done : bool }.

(** History of calls (a history variable, see the header). *)
Inductive Call :=
| Call_run_job (job : JobRef)
| Call_schedule_next_run (job : JobRef)
| Call_job_func (job : JobRef).

Record World := mkWorld
  { clock_reads : nat;
    rand_draws : nat;
    heap : JobRef -> Job;
    next_ref : JobRef;
    jobs : list JobRef;
    tasks : list TaskRef;
    task_table : TaskRef -> Task;
    next_task : TaskRef;
    calls : list Call }.

Record Env := mkEnv
  { clock : nat -> datetime;
    rand : nat -> Z;
    registry : string -> option Coro }.

Definition upd {A} (f : nat -> A) (k : nat) (v : A) : nat -> A :=
  fun k' => if Nat.eqb k' k then v else f k'.

Definition with_clock_reads v (w : World) : World :=
  mkWorld v (rand_draws w) (heap w) (next_ref w) (jobs w) (tasks w)
          (task_table w) (next_task w) (calls w).
Definition with_rand_draws v (w : World) : World :=
  mkWorld (clock_reads w) v (heap w) (next_ref w) (jobs w) (tasks w)
          (task_table w) (next_task w) (calls w).
Definition with_heap v (w : World) : World :=
  mkWorld (clock_reads w) (rand_draws w) v (next_ref w) (jobs w) (tasks w)
          (task_table w) (next_task w) (calls w).
Definition with_next_ref v (w : World) : World :=
  mkWorld (clock_reads w) (rand_draws w) (heap w) v (jobs w) (tasks w)
          (task_table w) (next_task w) (calls w).
Definition with_jobs v (w : World) : World :=
  mkWorld (clock_reads w) (rand_draws w) (heap w) (next_ref w) v (tasks w)
          (task_table w) (next_task w) (calls w).
Definition with_tasks v (w : World) : World :=
  mkWorld (clock_reads w) (rand_draws w) (heap w) (next_ref w) (jobs w) v
          (task_table w) (next_task w) (calls w).
Definition with_task_table v (w : World) : World :=
  mkWorld (clock_reads w) (rand_draws w) (heap w) (next_ref w) (jobs w)
          (tasks w) v (next_task w) (calls w).
Definition with_next_task v (w : World) : World :=
  mkWorld (clock_reads w) (rand_draws w) (heap w) (next_ref w) (jobs w)
          (tasks w) (task_table w) v (calls w).
Definition with_calls v (w : World) : World :=
  mkWorld (clock_reads w) (rand_draws w) (heap w) (next_ref w) (jobs w)
          (tasks w) (task_table w) (next_task w) v.

(** The job at [self] is replaced by [j]. *)
Definition set_job (self : JobRef) (j : Job) (w : World) : World :=
  with_heap (upd (heap w) self j) w.

(** ** The monad *)

Inductive Outcome (A : Type) :=
| Returns (a : A) (w : World)
| Raises (e : exn) (w : World)
| Hangs.
Arguments Returns {A} a w.
Arguments Raises {A} e w.
Arguments Hangs {A}.

Definition M (A : Type) := World -> Outcome A.

Definition ret {A} (a : A) : M A := fun w => Returns a w.
Definition raise {A} (e : exn) : M A := fun w => Raises e w.
Definition bind {A B} (m : M A) (k : A -> M B) : M B :=
  fun w => match m w with
           | Returns a w' => k a w'
           | Raises e w' => Raises e w'
           | Hangs => Hangs
           end.

Notation "x <- m ;; k" := (bind m (fun x => k))
  (at level 61, m at next level, right associativity).
Notation "m ;; k" := (bind m (fun _ => k))
  (at level 61, right associativity).

(** [try: m  except Exception: pass] *)
Definition try_except_pass (m : M NoneType) : M NoneType :=
  fun w => match m w with
           | Raises _ w' => Returns tt w'
           | o => o
           end.

Definition getattr {A} (self : JobRef) (f : Job -> A) : M A :=
  fun w => Returns (f (heap w self)) w.
Definition setattr (self : JobRef) (f : Job -> Job) : M NoneType :=
  fun w => Returns tt (with_heap (upd (heap w) self (f (heap w self))) w).
Definition record_call (c : Call) : M NoneType :=
  fun w => Returns tt (with_calls (calls w ++ [c]) w).

(** An attribute that the code uses as a value; on [None] Python raises
    (TypeError or AttributeError, by the operation). *)
Definition the {A} (o : option A) : M A :=
  match o with Some a => ret a | None => raise TypeError end.

Definition is_None {A} (o : option A) : bool :=
  match o with None => true | Some _ => false end.

(** [x in (s1, s2, ...)] for an attribute that is a string or [None]. *)
Fixpoint str_in (x : option string) (l : list string) : bool :=
  match x, l with
  | Some s, s' :: l' => String.eqb s s' || str_in x l'
  | _, _ => false
  end.

(** [x == s] *)
Definition str_is (x : option string) (s : string) : bool :=
  match x with Some s' => String.eqb s' s | None => false end.

(** [tuple.index] *)
Fixpoint index_of (l : list string) (s : string) : option Z :=
  match l with
  | [] => None
  | s' :: l' => if String.eqb s' s then Some 0
                else option_map Z.succ (index_of l' s)
  end.

Definition weekdays : list string :=
  ["monday"; "tuesday"; "wednesday"; "thursday"; "friday"; "saturday";
   "sunday"].

(** ** Job: the next-run computation *)

Section WithEnv.

Variable E : Env.

(** [datetime.datetime.now(tz=timezone.utc)] *)
Definition now : M datetime :=
  fun w => Returns (clock E (clock_reads w))
                   (with_clock_reads (S (clock_reads w)) w).

(** [random.randint(a, b)]: an integer N with a <= N <= b (ValueError on an
    empty range), drawn here from the next raw draw of the environment. *)
Definition randint (a b : Z) : M Z :=
  fun w => if b <? a then Raises ValueError w
           else Returns (a + (rand E (rand_draws w)) mod (b - a + 1))
                        (with_rand_draws (S (rand_draws w)) w).

(** Lines 606-619: the unit check, the effective interval, [self.period]. *)
Definition resolve_period (self : JobRef) : M timedelta :=
  j <- getattr self (fun j => j) ;;
  if negb (str_in (unit j) ["seconds"; "minutes"; "hours"; "days"; "weeks"])
  then raise ScheduleValueError
  else
    interval_ <- match latest j with
                 | Some l =>
                     if negb (l >=? interval j) then raise ScheduleError
                     else randint (interval j) l
                 | None => ret (interval j)
                 end ;;
    let p := timedelta_of (unit j) interval_ in
    setattr self (set_period (Some p)) ;;
    ret p.

(** Lines 620-625: the base instant. *)
Definition base_instant (self : JobRef) : M NoneType :=
  j <- getattr self (fun j => j) ;;
  p <- the (period j) ;;
  match last_run j with
  | Some lr => setattr self (set_next_run (Some (lr + p)))
  | None =>
      match next_run j with
      | Some _ => ret tt
      | None => t <- now ;; setattr self (set_next_run (Some (t + p)))
      end
  end.

(** Lines 626-646: the weekday anchor. *)
Definition weekday_anchor (self : JobRef) : M NoneType :=
  j <- getattr self (fun j => j) ;;
  match start_day j with
  | None => ret tt
  | Some sd =>
      if negb (str_is (unit j) "weeks") then raise ScheduleValueError
      else
        match index_of weekdays sd with
        | None => raise ScheduleValueError
        | Some wd =>
            nr <- the (next_run j) ;;
            p <- the (period j) ;;
            let days_ahead := wd - weekday nr in
            let days_ahead :=
              if days_ahead <=? 0 then days_ahead + 7 else days_ahead in
            setattr self
              (set_next_run (Some (nr + (days_ahead * us_per_day - p))))
        end
  end.

(** Lines 661-678: run at the specified time today (or this hour, or this
    minute) as well. *)
Definition catch_up (self : JobRef) (at_ : time) : M NoneType :=
  j <- getattr self (fun j => j) ;;
  nr <- the (next_run j) ;;
  p <- the (period j) ;;
  if is_None (last_run j)
     || match last_run j with Some lr => nr - lr >? p | None => false end
  then
    now_ <- now ;;
    if str_is (unit j) "days" && time_gt at_ (dt_time now_)
       && (interval j =? 1)
    then setattr self (set_next_run (Some (nr - 1 * us_per_day)))
    else if str_is (unit j) "hours"
            && ((t_minute at_ >? dt_minute now_)
                || ((t_minute at_ =? dt_minute now_)
                    && (t_second at_ >? dt_second now_)))
    then setattr self (set_next_run (Some (nr - 1 * us_per_hour)))
    else if str_is (unit j) "minutes" && (t_second at_ >? dt_second now_)
    then setattr self (set_next_run (Some (nr - 1 * us_per_minute)))
    else ret tt
  else ret tt.

(** Lines 647-678: the time of day. *)
Definition at_time_align (self : JobRef) : M NoneType :=
  j <- getattr self (fun j => j) ;;
  match at_time j with
  | None => ret tt
  | Some at_ =>
      if negb (str_in (unit j) ["days"; "hours"; "minutes"])
         && is_None (start_day j)
      then raise ScheduleValueError
      else
        let h := if str_is (unit j) "days" || negb (is_None (start_day j))
                 then Some (t_hour at_) else None in
        let m := if str_in (unit j) ["days"; "hours"]
                    || negb (is_None (start_day j))
                 then Some (t_minute at_) else None in
        nr <- the (next_run j) ;;
        setattr self
          (set_next_run (Some (dt_replace h m (t_second at_) 0 nr))) ;;
        catch_up self at_
  end.

(** Lines 679-682: weekday and time of day together. *)
Definition double_check (self : JobRef) : M NoneType :=
  j <- getattr self (fun j => j) ;;
  if negb (is_None (start_day j)) && negb (is_None (at_time j))
  then
    nr <- the (next_run j) ;;
    now_ <- now ;;
    if td_days (nr - now_) >=? 7
    then p <- the (period j) ;; setattr self (set_next_run (Some (nr - p)))
    else ret tt
  else ret tt.

(** [Job._schedule_next_run] *)
Definition _schedule_next_run (self : JobRef) : M NoneType :=
  record_call (Call_schedule_next_run self) ;;
  resolve_period self ;;
  base_instant self ;;
  weekday_anchor self ;;
  at_time_align self ;;
  double_check self.

(** ** Job: the fluent configuration *)

(** [Job(interval, scheduler)]: a fresh object. *)
Definition new_Job (interval : Z) (scheduler : option SchedulerRef)
  : M JobRef :=
  fun w => Returns (next_ref w)
             (with_next_ref (S (next_ref w))
                (with_heap (upd (heap w) (next_ref w)
                                (Job_init interval scheduler)) w)).

Definition set_unit_to (u : string) (self : JobRef) : M JobRef :=
  setattr self (set_unit (Some u)) ;; ret self.

(** The singular accessors: [second], [minute], [hour], [day], [week]. *)
Definition singular (plural : JobRef -> M JobRef) (self : JobRef)
  : M JobRef :=
  i <- getattr self interval ;;
  if negb (i =? 1) then raise IntervalError else plural self.

Definition seconds : JobRef -> M JobRef := set_unit_to "seconds".
Definition second : JobRef -> M JobRef := singular seconds.
Definition minutes : JobRef -> M JobRef := set_unit_to "minutes".
Definition minute : JobRef -> M JobRef := singular minutes.
Definition hours : JobRef -> M JobRef := set_unit_to "hours".
Definition hour : JobRef -> M JobRef := singular hours.
Definition days : JobRef -> M JobRef := set_unit_to "days".
Definition day : JobRef -> M JobRef := singular days.
Definition weeks : JobRef -> M JobRef := set_unit_to "weeks".
Definition week : JobRef -> M JobRef := singular weeks.

(** The seven weekday accessors have one body, up to the name of the day. *)
Definition on_weekday (name : string) (self : JobRef) : M JobRef :=
  i <- getattr self interval ;;
  if negb (i =? 1) then raise IntervalError
  else setattr self (set_start_day (Some name)) ;; weeks self.

Definition monday : JobRef -> M JobRef := on_weekday "monday".
Definition tuesday : JobRef -> M JobRef := on_weekday "tuesday".
Definition wednesday : JobRef -> M JobRef := on_weekday "wednesday".
Definition thursday : JobRef -> M JobRef := on_weekday "thursday".
Definition friday : JobRef -> M JobRef := on_weekday "friday".
Definition saturday : JobRef -> M JobRef := on_weekday "saturday".
Definition sunday : JobRef -> M JobRef := on_weekday "sunday".

(** *** Regular expressions of [at], matched by derivatives *)

Inductive regex :=
| Never
| Empty
| Char (c : ascii)
| Range (lo hi : ascii)
| Cat (r1 r2 : regex)
| Alt (r1 r2 : regex)
| Opt (r : regex).

Fixpoint nullable (r : regex) : bool :=
  match r with
  | Never | Char _ | Range _ _ => false
  | Empty | Opt _ => true
  | Cat r1 r2 => nullable r1 && nullable r2
  | Alt r1 r2 => nullable r1 || nullable r2
  end.

Definition in_range (lo hi c : ascii) : bool :=
  (N_of_ascii lo <=? N_of_ascii c)%N && (N_of_ascii c <=? N_of_ascii hi)%N.

Fixpoint deriv (c : ascii) (r : regex) : regex :=
  match r with
  | Never | Empty => Never
  | Char c' => if Ascii.eqb c c' then Empty else Never
  | Range lo hi => if in_range lo hi c then Empty else Never
  | Cat r1 r2 =>
      if nullable r1 then Alt (Cat (deriv c r1) r2) (deriv c r2)
      else Cat (deriv c r1) r2
  | Alt r1 r2 => Alt (deriv c r1) (deriv c r2)
  | Opt r1 => deriv c r1
  end.

(** [re.match] of a pattern that is anchored at both ends. *)
Fixpoint re_match (r : regex) (s : string) : bool :=
  match s with
  | EmptyString => nullable r
  | String c s' => re_match (deriv c r) s'
  end.

Definition digit : regex := Range "0" "9".
Definition colon : regex := Char ":".

(** ^[0-2]\d:[0-5]\d(:[0-5]\d)?$ *)
Definition re_daily : regex :=
  Cat (Range "0" "2")
    (Cat digit
       (Cat colon
          (Cat (Range "0" "5")
             (Cat digit (Opt (Cat colon (Cat (Range "0" "5") digit))))))).

(** ^([0-5]\d)?:[0-5]\d$ *)
Definition re_hourly : regex :=
  Cat (Opt (Cat (Range "0" "5") digit))
    (Cat colon (Cat (Range "0" "5") digit)).

(** ^:[0-5]\d$ *)
Definition re_minutely : regex :=
  Cat colon (Cat (Range "0" "5") digit).

(** [str.split(sep)] for a one-character separator. *)
Fixpoint split (sep : ascii) (s : string) : list string :=
  match s with
  | EmptyString => [EmptyString]
  | String c s' =>
      if Ascii.eqb c sep then EmptyString :: split sep s'
      else match split sep s' with
           | x :: l => String c x :: l
           | [] => [String c EmptyString]
           end
  end.

Definition digit_val (c : ascii) : option Z :=
  if in_range "0" "9" c then Some (Z.of_N (N_of_ascii c) - 48) else None.

Fixpoint int_digits (acc : Z) (s : string) : option Z :=
  match s with
  | EmptyString => Some acc
  | String c s' =>
      match digit_val c with
      | Some d => int_digits (10 * acc + d) s'
      | None => None
      end
  end.

(** A local of [at]: a piece of the split string, or an [int]. *)
Inductive field := F_str (s : string) | F_int (n : Z).

(** [int(x)].  A string must be a non-empty run of decimal digits; the
    other spellings Python reads (sign, blanks, underscores) cannot pass
    the patterns above. *)
Definition int_ (x : field) : M Z :=
  match x with
  | F_int n => ret n
  | F_str EmptyString => raise ValueError
  | F_str s => match int_digits 0 s with
               | Some n => ret n
               | None => raise ValueError
               end
  end.

(** [datetime.time(hour, minute, second)] *)
Definition time_ (h m s : Z) : M time :=
  if (0 <=? h) && (h <=? 23) && (0 <=? m) && (m <=? 59)
     && (0 <=? s) && (s <=? 59)
  then ret (mk_time h m s 0)
  else raise ValueError.

(** Truth value of an attribute that is a string or [None]. *)
Definition truthy (o : option string) : bool :=
  match o with Some (String _ _) => true | _ => false end.

Definition raise_if (b : bool) (e : exn) : M NoneType :=
  if b then raise e else ret tt.

(** [Job.at] *)
Definition at_ (self : JobRef) (time_str : string) : M JobRef :=
  j <- getattr self (fun j => j) ;;
  raise_if (negb (str_in (unit j) ["days"; "hours"; "minutes"])
            && negb (truthy (start_day j))) ScheduleValueError ;;
  raise_if ((str_is (unit j) "days" || truthy (start_day j))
            && negb (re_match re_daily time_str)) ScheduleValueError ;;
  raise_if (str_is (unit j) "hours"
            && negb (re_match re_hourly time_str)) ScheduleValueError ;;
  raise_if (str_is (unit j) "minutes"
            && negb (re_match re_minutely time_str)) ScheduleValueError ;;
  hms <- match split ":" time_str with
         | [h; m; s] => ret (F_str h, F_str m, F_str s)
         | [a; b] =>
             if str_is (unit j) "minutes"
             then ret (F_int 0, F_int 0, F_str b)
             else if str_is (unit j) "hours"
                     && negb (String.eqb a EmptyString)
             then ret (F_int 0, F_str a, F_str b)
             else ret (F_str a, F_str b, F_int 0)
         | _ => raise ValueError
         end ;;
  let '(hour0, minute0, second0) := hms in
  hm <- (if str_is (unit j) "days" || truthy (start_day j)
         then h <- int_ hour0 ;;
              raise_if (negb ((0 <=? h) && (h <=? 23))) ScheduleValueError ;;
              ret (F_int h, minute0)
         else if str_is (unit j) "hours" then ret (F_int 0, minute0)
         else if str_is (unit j) "minutes" then ret (F_int 0, F_int 0)
         else ret (hour0, minute0)) ;;
  h <- int_ (fst hm) ;;
  m <- int_ (snd hm) ;;
  s <- int_ second0 ;;
  t <- time_ h m s ;;
  setattr self (set_at_time (Some t)) ;;
  ret self.

(** [Job.to] *)
Definition to (self : JobRef) (latest : Z) : M JobRef :=
  setattr self (set_latest (Some latest)) ;; ret self.

(** The argument of [Job.until].  The two branches that take a
    [datetime.time] or a string go through [datetime.combine] and
    [strptime] and are not embedded. *)
Inductive until_time :=
| Until_datetime (d : datetime)
| Until_timedelta (td : timedelta).

(** [Job.until] *)
Definition until (self : JobRef) (u : until_time) : M JobRef :=
  match u with
  | Until_datetime d => setattr self (set_cancel_after (Some d))
  | Until_timedelta td =>
      t <- now ;; setattr self (set_cancel_after (Some (t + td)))
  end ;;
  ca <- getattr self cancel_after ;;
  ca <- the ca ;;
  t <- now ;;
  if ca <? t then raise ScheduleValueError else ret self.

(** ** Job: binding, running *)

Definition get_jobs : M (list JobRef) := fun w => Returns (jobs w) w.
Definition get_tasks : M (list TaskRef) := fun w => Returns (tasks w) w.

(** [default_scheduler.jobs.append(job)] *)
Definition jobs_append (job : JobRef) : M NoneType :=
  fun w => Returns tt (with_jobs (jobs w ++ [job]) w).

(** [default_scheduler.tasks.append(task)] *)
Definition tasks_append (task : TaskRef) : M NoneType :=
  fun w => Returns tt (with_tasks (tasks w ++ [task]) w).

(** [Job.do]: [name] is [job_func.__name__]. *)
Definition do (self : JobRef) (name : string) (args_ : list string)
           (kwargs_ : list (string * string)) : M JobRef :=
  setattr self (set_args (Some args_)) ;;
  setattr self (set_kwargs (Some kwargs_)) ;;
  setattr self (set_job_func_name (Some name)) ;;
  _schedule_next_run self ;;
  sch <- getattr self scheduler ;;
  match sch with
  | None => raise ScheduleError
  | Some default_scheduler => jobs_append self ;; ret self
  end.

(** [Job.should_run] *)
Definition should_run (self : JobRef) : M bool :=
  nr <- getattr self next_run ;;
  match nr with
  | None => raise AssertionError
  | Some nr => t <- now ;; ret (t >=? nr)
  end.

(** [Job._is_overdue] *)
Definition _is_overdue (self : JobRef) (when : datetime) : M bool :=
  ca <- getattr self cancel_after ;;
  ret (match ca with Some ca => when >? ca | None => false end).

(** [asyncio.create_task(coro)]: the task is pending; its body runs when
    the caller next yields to the event loop. *)
Definition create_task (job : JobRef) (c : Coro) : M TaskRef :=
  fun w => Returns (next_task w)
             (with_next_task (S (next_task w))
                (with_task_table (upd (task_table w) (next_task w)
                                      (mkTask job c false)) w)).

(** What [Job.run] returns: the class [CancelJob], or the task. *)
Inductive run_result := Ret_CancelJob | Ret_task (task : TaskRef).

(** [Job.run] *)
Definition run (self : JobRef) : M run_result :=
  t0 <- now ;;
  overdue <- _is_overdue self t0 ;;
  if overdue then ret Ret_CancelJob
  else
    j <- getattr self (fun j => j) ;;
    name <- the (job_func_name j) ;;
    f <- match registry E name with
         | Some c => ret c
         | None => raise NameError
         end ;;
    _ <- the (args j) ;;
    _ <- the (kwargs j) ;;
    setattr self (set_job_func (Some f)) ;;
    record_call (Call_job_func self) ;;
    task <- create_task self f ;;
    match scheduler j with
    | None => raise AttributeError
    | Some default_scheduler => tasks_append task
    end ;;
    t1 <- now ;;
    setattr self (set_last_run (Some t1)) ;;
    _schedule_next_run self ;;
    nr <- getattr self next_run ;;
    nr <- the nr ;;
    overdue <- _is_overdue self nr ;;
    if overdue then ret Ret_CancelJob else ret (Ret_task task).

(** ** Scheduler *)

(** [Scheduler.every], on the default scheduler. *)
Definition every (interval : Z) : M JobRef :=
  new_Job interval (Some default_scheduler).

(** [list.remove]: the first occurrence, if any. *)
Fixpoint remove_first (x : JobRef) (l : list JobRef) : list JobRef :=
  match l with
  | [] => []
  | y :: l' => if Nat.eqb y x then l' else y :: remove_first x l'
  end.

(** [Scheduler.cancel_job]: the ValueError of [list.remove] is caught. *)
Definition cancel_job (job : JobRef) : M NoneType :=
  fun w => Returns tt (with_jobs (remove_first job (jobs w)) w).

(** [Scheduler._run_job] *)
Definition _run_job (job : JobRef) : M NoneType :=
  record_call (Call_run_job job) ;;
  r <- run job ;;
  match r with
  | Ret_CancelJob => cancel_job job
  | Ret_task _ => ret tt
  end.

(** [(job for job in self.jobs if job.should_run)], consumed to the end. *)
Fixpoint runnable_jobs (l : list JobRef) : M (list JobRef) :=
  match l with
  | [] => ret []
  | job :: l' =>
      b <- should_run job ;;
      rest <- runnable_jobs l' ;;
      ret (if b then job :: rest else rest)
  end.

(** [Job.__lt__].  A [next_run] that is [None] is a TypeError in Python;
    [should_run] has asserted it is set for every job that is compared. *)
Definition Job_lt (w : World) (a b : JobRef) : bool :=
  match next_run (heap w a), next_run (heap w b) with
  | Some x, Some y => x <? y
  | _, _ => false
  end.

Fixpoint insert_job (lt : JobRef -> JobRef -> bool) (x : JobRef)
         (l : list JobRef) : list JobRef :=
  match l with
  | [] => [x]
  | y :: l' => if lt y x then y :: insert_job lt x l' else x :: y :: l'
  end.

(** [sorted]: a stable sort that compares with [__lt__] only. *)
Fixpoint sorted_by (lt : JobRef -> JobRef -> bool) (l : list JobRef)
  : list JobRef :=
  match l with
  | [] => []
  | x :: l' => insert_job lt x (sorted_by lt l')
  end.

Definition sorted (l : list JobRef) : M (list JobRef) :=
  fun w => Returns (sorted_by (Job_lt w) l) w.

Fixpoint for_each {A} (l : list A) (body : A -> M NoneType) : M NoneType :=
  match l with
  | [] => ret tt
  | x :: l' => body x ;; for_each l' body
  end.

(** [task.done()] *)
Definition done (w : World) (t : TaskRef) : bool :=
  task_done (task_table w t).

(** [self.tasks = [task for task in self.tasks if not task.done()]] *)
Definition prune_tasks : M NoneType :=
  fun w => Returns tt
             (with_tasks (filter (fun t => negb (done w t)) (tasks w)) w).

(** [await task]: the caller is resumed when the task is done, with its
    exception if it failed; a task that never finishes never resumes it. *)
Definition await (t : TaskRef) : M NoneType :=
  fun w =>
    let tk := task_table w t in
    let w' := with_task_table
                (upd (task_table w) t
                     (mkTask (task_job tk) (task_coro tk) true)) w in
    if task_done tk
    then match task_coro tk with
         | Fails => Raises JobFailure w
         | _ => Returns tt w
         end
    else match task_coro tk with
         | Finishes _ => Returns tt w'
         | Fails => Raises JobFailure w'
         | NeverFinishes => Hangs
         end.

(** [await asyncio.gather( *ts )], as MicroPython's uasyncio has it: the
    tasks are awaited in order and the first exception is raised. *)
Fixpoint gather (ts : list TaskRef) : M NoneType :=
  match ts with
  | [] => ret tt
  | t :: ts' => await t ;; gather ts'
  end.

(** [Scheduler.run_pending] *)
Definition run_pending : M NoneType :=
  js <- get_jobs ;;
  runnable <- runnable_jobs js ;;
  ordered <- sorted runnable ;;
  for_each ordered _run_job ;;
  prune_tasks ;;
  ts <- get_tasks ;;
  match ts with
  | [] => ret tt
  | _ => gather ts
  end.

(** ** The record form of a job *)

(** The value under a timestamp key, by what the two parsers of
    [parse_float_or_isotime] make of it: [Ts_iso d] is the text that
    [datetime.isoformat] gives for [d], which [fromisoformat] reads back
    and [float] rejects; [Ts_number d] is a number, or a numeric string,
    that [float] accepts and [fromtimestamp] maps to [d]; [Ts_invalid] is
    a string that neither accepts; [Ts_null] is [None]. *)
Inductive ts_value :=
| Ts_null
| Ts_iso (d : datetime)
| Ts_number (d : datetime)
| Ts_invalid.

(** The value under the key at_time: the text that [time.isoformat] gives
    for [t], or anything [time.fromisoformat] rejects. *)
Inductive at_value := At_iso (t : time) | At_invalid.

(** One record, as [asdict] builds it and as [from_json] takes it: the
    first eight keys are the ones [asdict] always writes and [from_json]
    reads unconditionally, cancel_after being the instant itself, which
    [asdict] does not render as text; the last three may be absent. *)
Record JobDict := mkJobDict
  { d_interval : Z;
    d_latest : option Z;
    d_args : option (list string);
    d_kwargs : option (list (string * string));
    d_job_func_name : option string;
    d_unit : option string;
    d_start_day : option string;
    d_cancel_after : option datetime;
    d_at_time : option at_value;
    d_last_run : option ts_value;
    d_next_run : option ts_value }.


(** [datetime.fromtimestamp(float(str), tz=timezone.utc)]; [None] stands
    for the TypeError or ValueError of [float]. *)
Definition from_float (v : ts_value) : option datetime :=
  match v with Ts_number d => Some d | _ => None end.

(** [datetime.fromisoformat(str)]; [None] stands for its ValueError. *)
Definition fromisoformat (v : ts_value) : option datetime :=
  match v with Ts_iso d => Some d | _ => None end.

(** [parse_float_or_isotime] *)
Definition parse_float_or_isotime (v : ts_value) : option datetime :=
  match v with
  | Ts_null => None
  | _ => match from_float v with
         | Some d => Some d
         | None => match fromisoformat v with
                   | Some d => Some d
                   | None => None
                   end
         end
  end.

(** The body of the loop of [from_json], lines 835-855: a new job takes
    the fields of the record. *)
Definition load_fields (j : JobDict) : M JobRef :=
  job <- new_Job (d_interval j) (Some default_scheduler) ;;
  setattr job (set_latest (d_latest j)) ;;
  setattr job (set_args (d_args j)) ;;
  setattr job (set_kwargs (d_kwargs j)) ;;
  setattr job (set_job_func_name (d_job_func_name j)) ;;
  setattr job (set_unit (d_unit j)) ;;
  setattr job (set_start_day (d_start_day j)) ;;
  setattr job (set_cancel_after (d_cancel_after j)) ;;
  match d_at_time j with
  | Some (At_iso t) => setattr job (set_at_time (Some t))
  | _ => ret tt
  end ;;
  match d_last_run j with
  | Some v => setattr job (set_last_run (parse_float_or_isotime v))
  | None => ret tt
  end ;;
  match d_next_run j with
  | Some v => setattr job (set_next_run (parse_float_or_isotime v))
  | None => ret tt
  end ;;
  ret job.

(** The body of the loop of [from_json]. *)
Definition from_json_record (j : JobDict) : M NoneType :=
  job <- load_fields j ;;
  nr <- getattr job next_run ;;
  (if is_None nr then try_except_pass (_schedule_next_run job)
   else ret tt) ;;
  nr <- getattr job next_run ;;
  if negb (is_None nr) then jobs_append job else ret tt.

(** [from_json] *)
Definition from_json (data : list JobDict) : M (list JobRef) :=
  for_each data from_json_record ;; get_jobs.

(** ** Scheduler: the other methods *)

(** [time.sleep(secs)]: the caller is blocked and nothing of the module's
    state changes; what the clock reads afterwards is the environment's.
    A negative argument is a ValueError. *)
Definition sleep (secs : Z) : M NoneType :=
  if secs <? 0 then raise ValueError else ret tt.

(** [Scheduler.run_all]: the loop walks a copy of the job list. *)
Definition run_all (delay_seconds : Z) : M NoneType :=
  js <- get_jobs ;;
  for_each js (fun job => _run_job job ;; sleep delay_seconds).

(** [Scheduler.clear]: the slice deletion empties the list object itself,
    which the module's [jobs] names too. *)
Definition clear : M NoneType := fun w => Returns tt (with_jobs [] w).

(** [Job.__lt__], as a call: an order comparison with [None] is a
    TypeError. *)
Definition __lt__ (self other : JobRef) : M bool :=
  a <- getattr self next_run ;;
  b <- getattr other next_run ;;
  match a, b with
  | Some x, Some y => ret (x <? y)
  | _, _ => raise TypeError
  end.

(** [min] of a list of jobs: the items are compared with the best so far
    by [item < best], so the first of the least items is returned; an
    empty list is a ValueError. *)
Fixpoint min_from (best : JobRef) (l : list JobRef) : M JobRef :=
  match l with
  | [] => ret best
  | item :: l' =>
      b <- __lt__ item best ;;
      min_from (if b then item else best) l'
  end.

Definition min_ (l : list JobRef) : M JobRef :=
  match l with
  | [] => raise ValueError
  | x :: l' => min_from x l'
  end.

(** [Scheduler.get_next_run], which is also the property [next_run]. *)
Definition get_next_run : M (option datetime) :=
  js <- get_jobs ;;
  match js with
  | [] => ret None
  | _ =>
      jobs_filtered <- get_jobs ;;
      match jobs_filtered with
      | [] => ret None
      | _ => j <- min_ jobs_filtered ;; getattr j next_run
      end
  end.

(** [Scheduler.idle_seconds].  The property [next_run] is evaluated twice,
    a [datetime] being true whatever its value.  The result stands for the
    float of [total_seconds]: it is the duration in microseconds, of which
    the float is the millionth part. *)
Definition idle_seconds : M (option timedelta) :=
  nr <- get_next_run ;;
  match nr with
  | None => ret None
  | Some _ =>
      nr <- get_next_run ;;
      nr <- the nr ;;
      t <- now ;;
      ret (Some (nr - t))
  end.

(** ** Persistence *)



(** What opening and reading schedule.json gives: no such file (OSError),
    a text that [json.load] rejects, or a list of records. *)
Inductive flash_file :=
| No_file
| Not_json
| Records (data : list JobDict).

(** The loop that clears the existing jobs in [load_flash].  It walks the
    very list that [cancel_job] shortens: the iterator of a list holds an
    index, yields the item at that index of the list as it is by then, and
    stops when the index has reached the length.  [fuel] bounds the number
    of items yielded; the list does not grow, so its length at the start is
    enough. *)
Fixpoint cancel_each (fuel : nat) (i : nat) : M NoneType :=
  match fuel with
  | O => fun _ => Hangs
  | S fuel' =>
      js <- get_jobs ;;
      match nth_error js i with
      | None => ret tt
      | Some jb => cancel_job jb ;; cancel_each fuel' (S i)
      end
  end.

(** [load_flash]: both handlers log and go on. *)
Definition load_flash (keep_existing : bool) (file : flash_file)
  : M NoneType :=
  (if negb keep_existing
   then js <- get_jobs ;; cancel_each (S (List.length js)) 0
   else ret tt) ;;
  match file with
  | No_file => ret tt
  | Not_json => ret tt
  | Records data => try_except_pass (from_json data ;; ret tt)
  end.

End WithEnv.

(** ** Concrete environments and worlds used in the examples *)

(** Midnight of 2020-01-01 (ordinal 737425, a Wednesday) and of
    2020-01-06 (a Monday). *)
Definition wednesday_2020_01_01 : datetime := 737424 * us_per_day.
Definition monday_2020_01_06 : datetime := 737429 * us_per_day.

Definition hms (h m s : Z) : timedelta :=
  h * us_per_hour + m * us_per_minute + s * us_per_second.

Definition example_registry (name : string) : option Coro :=
  if String.eqb name "job" then Some (Finishes VNone)
  else if String.eqb name "cancelling_job" then Some (Finishes VCancelJob)
  else if String.eqb name "failing_job" then Some Fails
  else if String.eqb name "endless_job" then Some NeverFinishes
  else None.

(** A clock that starts at [t0] and has advanced by one microsecond at
    each later reading; raw draws 0, 7, 14, ... *)
Definition env_at (t0 : datetime) : Env :=
  mkEnv (fun n => t0 + Z.of_nat n) (fun n => 7 * Z.of_nat n)
        example_registry.

(** A clock that stands still at [t0]. *)
Definition env_frozen (t0 : datetime) : Env :=
  mkEnv (fun _ => t0) (fun n => 7 * Z.of_nat n) example_registry.

(** A job bound with every(2).seconds that last ran two seconds after
    the midnight of 2020-01-01. *)
Definition job_every_2_seconds : Job :=
  mkJob 2 None None (Some []) (Some []) (Some "job") (Some "seconds") None
        (Some (wednesday_2020_01_01 + hms 0 0 2))
        (Some (wednesday_2020_01_01 + hms 0 0 2))
        (Some (hms 0 0 2)) None None (Some default_scheduler).

(** every().monday.at(time_str).do(job) *)
Definition every_monday_at (E : Env) (time_str : string) : M JobRef :=
  j <- every 1 ;; j <- monday j ;; j <- at_ j time_str ;;
  do E j "job" [] [].

(** every(2).hours.at(time_str).do(job) *)
Definition every_2_hours_at (E : Env) (time_str : string) : M JobRef :=
  j <- every 2 ;; j <- hours j ;; j <- at_ j time_str ;;
  do E j "job" [] [].

(** Monday 2020-01-06, a quarter past ten. *)
Definition env_monday_1015 : Env := env_at (monday_2020_01_06 + hms 10 15 0).

(** A job configured by every(2).hours.at(:30), not yet bound. *)
Definition job_every_2_hours_at_30 : Job :=
  set_at_time (Some (mk_time 0 30 0 0))
    (set_unit (Some "hours") (Job_init 2 (Some default_scheduler))).

(** every(5).to(3).seconds.do(job) *)
Definition every_5_to_3_seconds (E : Env) : M JobRef :=
  j <- every 5 ;; j <- to j 3 ;; j <- seconds j ;; do E j "job" [] [].

(** A job configured by every(1).to(5).seconds, not yet bound. *)
Definition job_every_1_to_5_seconds : Job :=
  set_unit (Some "seconds")
    (set_latest (Some 5) (Job_init 1 (Some default_scheduler))).

(** every().hour.at(time_str), not yet bound. *)
Definition every_hour_at (time_str : string) : M JobRef :=
  j <- every 1 ;; j <- hour j ;; at_ j time_str.

(** A job configured by every().hour, without a time of day. *)
Definition job_every_hour : Job :=
  set_unit (Some "hours") (Job_init 1 (Some default_scheduler)).

(** every(10).seconds.until(timedelta(seconds=3)).do(job) *)
Definition every_10_seconds_until_3 (E : Env) : M JobRef :=
  j <- every 10 ;; j <- seconds j ;;
  j <- until E j (Until_timedelta (hms 0 0 3)) ;;
  do E j "job" [] [].

(** The module just after import: no job, no task. *)
Definition initial_world : World :=
  mkWorld 0 0 (fun _ => Job_init 0 None) 0%nat [] []
          (fun _ => mkTask 0%nat Fails true) 0%nat [].

(** The world with one job object, created and not registered. *)
Definition world_with_job (j : Job) : World :=
  with_next_ref 1%nat (set_job 0%nat j initial_world).

(** A job configured by every().thursday, not yet bound. *)
Definition job_every_thursday : Job :=
  set_start_day (Some "thursday")
    (set_unit (Some "weeks") (Job_init 1 (Some default_scheduler))).

(** The world an outcome ends in. *)
Definition final_world {A} (o : Outcome A) : option World :=
  match o with
  | Returns _ w | Raises _ w => Some w
  | Hangs => None
  end.

(** That job once bound at midnight of 2020-01-01, after three readings
    of the clock, and the world it is registered in. *)
Definition job_10_seconds_until_3 : Job :=
  mkJob 10 None None (Some []) (Some []) (Some "job") (Some "seconds") None
        None (Some (wednesday_2020_01_01 + 2 + hms 0 0 10))
        (Some (hms 0 0 10)) None (Some (wednesday_2020_01_01 + hms 0 0 3))
        (Some default_scheduler).

Definition world_10_seconds_until_3 : World :=
  with_jobs [0%nat]
    (with_next_ref 1%nat
       (with_clock_reads 3%nat
          (set_job 0%nat job_10_seconds_until_3 initial_world))).



(** A registered job, every(10).seconds, whose function returns CancelJob,
    due since midnight of 2020-01-01, without a deadline; and the world it
    is registered in. *)
Definition job_that_cancels_itself : Job :=
  mkJob 10 None None (Some []) (Some []) (Some "cancelling_job")
        (Some "seconds") None None (Some wednesday_2020_01_01)
        (Some (hms 0 0 10)) None None (Some default_scheduler).

Definition world_of_job_that_cancels_itself : World :=
  with_jobs [0%nat]
    (with_next_ref 1%nat
       (set_job 0%nat job_that_cancels_itself initial_world)).


(** A record without next_run, of a daily job with an anchor weekday. *)
Definition record_of_daily_job_with_anchor : JobDict :=
  mkJobDict 1 None (Some []) (Some []) (Some "job") (Some "days")
            (Some "monday") None None None None.

(** A registered job, every(10).seconds, next due at [nr]. *)
Definition job_due_at (nr : datetime) : Job :=
  mkJob 10 None None (Some []) (Some []) (Some "job") (Some "seconds") None
        None (Some nr) (Some (hms 0 0 10)) None None
        (Some default_scheduler).

(** Three registered jobs, due five seconds, two seconds and one hour
    after midnight of 2020-01-01, and two tasks of an earlier tick, of which
    the first is done and the second still pending. *)
Definition world_of_three_jobs : World :=
  mkWorld 0 0
    (upd (upd (upd (heap initial_world) 0%nat
                   (job_due_at (wednesday_2020_01_01 + hms 0 0 5)))
              1%nat (job_due_at (wednesday_2020_01_01 + hms 0 0 2)))
         2%nat (job_due_at (wednesday_2020_01_01 + hms 1 0 0)))
    3%nat [0%nat; 1%nat; 2%nat] [0%nat; 1%nat]
    (upd (upd (task_table initial_world) 0%nat
              (mkTask 0%nat (Finishes VNone) true))
         1%nat (mkTask 1%nat (Finishes VNone) false))
    2%nat [].

(** A job configured by every().monday.at(09:00), not yet bound. *)
Definition job_every_monday_0900 : Job :=
  set_at_time (Some (mk_time 9 0 0 0))
    (set_start_day (Some "monday")
       (set_unit (Some "weeks") (Job_init 1 (Some default_scheduler)))).

(** Jobs configured by every().day.at(09:00), by every().minute.at(:30)
    and by every(5).to(3).seconds, not yet bound. *)
Definition job_every_day_at_0900 : Job :=
  set_at_time (Some (mk_time 9 0 0 0))
    (set_unit (Some "days") (Job_init 1 (Some default_scheduler))).

Definition job_every_minute_at_30 : Job :=
  set_at_time (Some (mk_time 0 0 30 0))
    (set_unit (Some "minutes") (Job_init 1 (Some default_scheduler))).

Definition job_every_5_to_3_seconds : Job :=
  set_unit (Some "seconds")
    (set_latest (Some 3) (Job_init 5 (Some default_scheduler))).

(** A job configured by every().minute, without a time of day. *)
Definition job_every_minute : Job :=
  set_unit (Some "minutes") (Job_init 1 (Some default_scheduler)).

(** Records without next_run: every(5).seconds, and a unit that does not
    exist. *)
Definition record_without_next_run : JobDict :=
  mkJobDict 5 None (Some []) (Some []) (Some "job") (Some "seconds") None
            None None None None.


(** ** Vocabulary of the statements *)

(** The job a record describes, before any recomputation. *)
Definition restored (d : JobDict) : Job :=
  mkJob (d_interval d) (d_latest d) None (d_args d) (d_kwargs d)
        (d_job_func_name d) (d_unit d)
        (match d_at_time d with Some (At_iso t) => Some t | _ => None end)
        (match d_last_run d with
         | Some v => parse_float_or_isotime v
         | None => None
         end)
        (match d_next_run d with
         | Some v => parse_float_or_isotime v
         | None => None
         end)
        None (d_start_day d) (d_cancel_after d) (Some default_scheduler).


(** The outcome is a normal return, and [P] holds of the value returned
    and of the world it returns in. *)
Definition returns_with {A} (o : Outcome A) (P : A -> World -> Prop)
  : Prop :=
  exists a w', o = Returns a w' /\ P a w'.

Definition valid_unit (j : Job) : Prop :=
  str_in (unit j) ["seconds"; "minutes"; "hours"; "days"; "weeks"] = true.

Definition latest_ok (j : Job) : Prop :=
  match latest j with Some l => interval j <= l | None => True end.

(** The interval a recomputation that starts in [w] uses for [j]. *)
Definition effective_interval (E : Env) (w : World) (j : Job) : Z :=
  match latest j with
  | Some l => interval j + rand E (rand_draws w) mod (l - interval j + 1)
  | None => interval j
  end.

Definition effective_period (E : Env) (w : World) (j : Job) : timedelta :=
  timedelta_of (unit j) (effective_interval E w j).

(** The base instant of a recomputation that starts in [w], by the three
    cases of the specification, for the period [p]. *)
Definition base_of (E : Env) (w : World) (j : Job) (p : timedelta)
  : datetime :=
  match last_run j with
  | Some lr => lr + p
  | None => match next_run j with
            | Some nr => nr
            | None => clock E (clock_reads w) + p
            end
  end.

(** Clock readings the base instant takes. *)
Definition base_reads (j : Job) : nat :=
  match last_run j, next_run j with
  | None, None => 1
  | _, _ => 0
  end.

(** Days from the weekday of [d] forward to weekday [wd], 7 when that is
    today. *)
Definition days_forward (wd : Z) (d : datetime) : Z :=
  if wd - weekday d <=? 0 then wd - weekday d + 7 else wd - weekday d.

(** The jobs on which [_run_job] was called, in order. *)
Fixpoint dispatched (cs : list Call) : list JobRef :=
  match cs with
  | [] => []
  | Call_run_job r :: cs' => r :: dispatched cs'
  | _ :: cs' => dispatched cs'
  end.

(** The jobs whose function was called, in order. *)
Fixpoint invoked (cs : list Call) : list JobRef :=
  match cs with
  | [] => []
  | Call_job_func r :: cs' => r :: invoked cs'
  | _ :: cs' => invoked cs'
  end.

(** The jobs on which [_schedule_next_run] was called, in order. *)
Fixpoint rescheduled (cs : list Call) : list JobRef :=
  match cs with
  | [] => []
  | Call_schedule_next_run r :: cs' => r :: rescheduled cs'
  | _ :: cs' => rescheduled cs'
  end.

(** The first computation, or the job overran its period: [nr] is more
    than [p] past the last run. *)
Definition overran (j : Job) (nr : datetime) (p : timedelta) : bool :=
  match last_run j with None => true | Some lr => nr - lr >? p end.

(** The value of a decimal digit, and of a pair of them. *)
Definition digit_of (c : ascii) : Z := Z.of_N (N_of_ascii c) - 48.
Definition two_digits (a b : ascii) : Z := 10 * digit_of a + digit_of b.

(** The strings ab, ab:cd and :ab. *)
Definition str2 (a b : ascii) : string := String a (String b EmptyString).
Definition mm_ss (m1 m2 s1 s2 : ascii) : string :=
  String m1 (String m2 (String ":" (String s1 (String s2 EmptyString)))).
Definition colon_mm (m1 m2 : ascii) : string :=
  String ":" (String m1 (String m2 EmptyString)).

(** The world in which [run] calls [_schedule_next_run], when the
    deadline has not passed at dispatch and the job function resolves to
    [f]: the function has been called and its task created and appended,
    and [last_run] is the second reading of the clock. *)
Definition started (E : Env) (self : JobRef) (f : Coro) (w : World)
  : World :=
  let t := next_task w in
  let w1 := set_job self (set_job_func (Some f) (heap w self))
                    (with_clock_reads (S (clock_reads w)) w) in
  let w2 := with_tasks (tasks w ++ [t])
              (with_next_task (S t)
                 (with_task_table
                    (upd (task_table w) t (mkTask self f false))
                    (with_calls (calls w ++ [Call_job_func self]) w1))) in
  set_job self
    (set_last_run (Some (clock E (S (clock_reads w)))) (heap w2 self))
    (with_clock_reads (S (S (clock_reads w))) w2).

(** The rest of [run] once the job function is started. *)
Definition run_rest (E : Env) (self : JobRef) (task : TaskRef)
  : M run_result :=
  _schedule_next_run E self ;;
  nr <- getattr self next_run ;;
  nr <- the nr ;;
  overdue <- _is_overdue self nr ;;
  if overdue then ret Ret_CancelJob else ret (Ret_task task).

(** The world in which the call of [_run_job] is on record. *)
Definition dispatching (job : JobRef) (w : World) : World :=
  with_calls (calls w ++ [Call_run_job job]) w.

(** The jobs of [l] that are due, the first of them being checked at
    reading [n] of the clock, the next at reading [n + 1], and so on. *)
Fixpoint due_from (E : Env) (h : JobRef -> Job) (n : nat)
         (l : list JobRef) : list JobRef :=
  match l with
  | [] => []
  | r :: l' =>
      match next_run (h r) with
      | Some nr => if nr <=? clock E n then r :: due_from E h (S n) l'
                   else due_from E h (S n) l'
      | None => due_from E h (S n) l'
      end
  end.


(** [nextRun <= now] *)
Definition due_at (w : World) (now_ : datetime) (r : JobRef) : bool :=
  match next_run (heap w r) with
  | Some nr => nr <=? now_
  | None => false
  end.




(** A job configured by every().monday.at(09:00), not yet bound. *)
Definition configured_monday_0900 (j : Job) : Prop :=
  interval j = 1 /\ latest j = None /\ unit j = Some "weeks"
  /\ start_day j = Some "monday" /\ at_time j = Some (mk_time 9 0 0 0)
  /\ last_run j = None /\ next_run j = None.

(** The world in which the call of [_schedule_next_run] is on record. *)
Definition called (self : JobRef) (w : World) : World :=
  with_calls (calls w ++ [Call_schedule_next_run self]) w.

(** The world after the effective interval is drawn. *)
Definition drawn (j : Job) (w : World) : World :=
  match latest j with
  | Some _ => with_rand_draws (S (rand_draws w)) w
  | None => w
  end.

(** Nothing but the job at [self], the clock and the random source has
    changed from [w] to [w']. *)
Definition job_frame (self : JobRef) (w w' : World) : Prop :=
  jobs w' = jobs w /\ tasks w' = tasks w /\ task_table w' = task_table w
  /\ next_task w' = next_task w /\ next_ref w' = next_ref w
  /\ calls w' = calls w
  /\ forall r, r <> self -> heap w' r = heap w r.

(** [m] never hangs, and every world it ends in, by a return or by an
    exception, is related by [P] to the world it started in. *)
Definition post {A} (m : M A) (P : World -> World -> Prop) : Prop :=
  forall w, match m w with
            | Returns _ w' | Raises _ w' => P w w'
            | Hangs => False
            end.

(** [j'] is [j] up to [next_run], which is not reset to [None]. *)
Definition same_but_next_run (j j' : Job) : Prop :=
  j' = set_next_run (next_run j') j
  /\ (next_run j <> None -> next_run j' <> None).

(** [j'] is [j] up to [next_run] and [period]. *)
Definition same_but_schedule (j j' : Job) : Prop :=
  j' = set_next_run (next_run j') (set_period (period j') j).

(** A step of a method of the job at [self]: the rest of the world is
    framed, and the job changes within [Q]. *)
Definition job_step (Q : Job -> Job -> Prop) (self : JobRef)
           (w w' : World) : Prop :=
  job_frame self w w' /\ Q (heap w self) (heap w' self).

(** ** Vocabulary of the further properties *)
(** Every registered job has a [next_run]. *)
Definition all_scheduled (w : World) : Prop :=
  Forall (fun r => next_run (heap w r) <> None) (jobs w).

(** The registered jobs are objects that exist, and each has a
    [next_run]. *)
Definition scheduled_ok (w : World) : Prop :=
  Forall (fun r => (r < next_ref w)%nat /\ next_run (heap w r) <> None)
         (jobs w).

(** From [w] to [w']: no job object that existed has lost its [next_run],
    and the jobs that are registered now either were registered before or
    exist and have a [next_run]. *)
Definition keeps_schedule (w w' : World) : Prop :=
  (next_ref w <= next_ref w')%nat
  /\ (forall r, (r < next_ref w)%nat -> next_run (heap w r) <> None ->
                next_run (heap w' r) <> None)
  /\ (forall r, In r (jobs w') ->
                In r (jobs w)
                \/ ((r < next_ref w')%nat /\ next_run (heap w' r) <> None)).

(** Every world [m] ends in, by a return or by an exception, is related
    by [P] to the world it started in; [m] may hang. *)
Definition ends_in {A} (m : M A) (P : World -> World -> Prop) : Prop :=
  forall w, match m w with
            | Returns _ w' | Raises _ w' => P w w'
            | Hangs => True
            end.

(** [m] leaves the job objects, the job list and the object counter as
    they are. *)
Definition leaves_jobs {A} (m : M A) : Prop :=
  forall w, match m w with
            | Returns _ w' | Raises _ w' =>
                heap w' = heap w /\ jobs w' = jobs w
                /\ next_ref w' = next_ref w
            | Hangs => True
            end.

(** The conditions under which the next-run computation goes through: the
    unit is one of the five, the jitter bound is not below the interval, an
    anchor weekday comes with the unit weeks and is the name of a day, and
    a time of day comes with the unit days, hours or minutes or with an
    anchor weekday. *)
Definition computable (j : Job) : bool :=
  str_in (unit j) ["seconds"; "minutes"; "hours"; "days"; "weeks"]
  && match latest j with Some l => interval j <=? l | None => true end
  && match start_day j with
     | None => true
     | Some sd => str_is (unit j) "weeks"
                  && negb (is_None (index_of weekdays sd))
     end
  && match at_time j with
     | None => true
     | Some _ => str_in (unit j) ["days"; "hours"; "minutes"]
                 || negb (is_None (start_day j))
     end.



(** Whatever world [m] ends in from [w], the registered jobs are in order
    there. *)
Definition stays_ok {A} (m : M A) (w : World) : Prop :=
  match m w with
  | Returns _ w' | Raises _ w' => scheduled_ok w'
  | Hangs => True
  end.

(** [m] never raises AssertionError. *)
Definition no_assertion {A} (m : M A) : Prop :=
  forall w e w', m w = Raises e w' -> e <> AssertionError.

(** A job that [run] can run: its configuration is consistent, its
    function name resolves, and it has been bound to the scheduler with
    its arguments. *)
Definition runnable (E : Env) (j : Job) : Prop :=
  computable j = true
  /\ (exists name f, job_func_name j = Some name /\ registry E name = Some f)
  /\ args j <> None /\ kwargs j <> None
  /\ scheduler j = Some default_scheduler.

(** The entries of [l] at the odd positions, the first position being 0. *)
Fixpoint odds (l : list JobRef) : list JobRef :=
  match l with
  | _ :: y :: l' => y :: odds l'
  | _ => []
  end.

(** A regular expression that matches no string. *)
Fixpoint dead (r : regex) : bool :=
  match r with
  | Never => true
  | Empty | Char _ | Range _ _ | Opt _ => false
  | Cat r1 r2 => dead r1 || dead r2
  | Alt r1 r2 => dead r1 && dead r2
  end.

(** The strings ab:cd and ab:cd:ef. *)
Definition hh_mm (h1 h2 m1 m2 : ascii) : string :=
  String h1 (String h2 (String ":" (String m1 (String m2 EmptyString)))).
Definition hh_mm_ss (h1 h2 m1 m2 s1 s2 : ascii) : string :=
  String h1 (String h2 (String ":" (String m1 (String m2
    (String ":" (String s1 (String s2 EmptyString))))))).

(** The formats of [at]: HH:MM or HH:MM:SS for a daily job, MM:SS or :MM
    for an hourly job, :SS for a job in minutes; H is a digit up to 2 in
    the first place, M and S a digit up to 5 in the first place. *)
Definition daily_format (s : string) : Prop :=
  (exists h1 h2 m1 m2,
      s = hh_mm h1 h2 m1 m2
      /\ in_range "0" "2" h1 = true /\ in_range "0" "9" h2 = true
      /\ in_range "0" "5" m1 = true /\ in_range "0" "9" m2 = true)
  \/ (exists h1 h2 m1 m2 s1 s2,
         s = hh_mm_ss h1 h2 m1 m2 s1 s2
         /\ in_range "0" "2" h1 = true /\ in_range "0" "9" h2 = true
         /\ in_range "0" "5" m1 = true /\ in_range "0" "9" m2 = true
         /\ in_range "0" "5" s1 = true /\ in_range "0" "9" s2 = true).

Definition hourly_format (s : string) : Prop :=
  (exists m1 m2 s1 s2,
      s = mm_ss m1 m2 s1 s2
      /\ in_range "0" "5" m1 = true /\ in_range "0" "9" m2 = true
      /\ in_range "0" "5" s1 = true /\ in_range "0" "9" s2 = true)
  \/ (exists m1 m2,
         s = colon_mm m1 m2
         /\ in_range "0" "5" m1 = true /\ in_range "0" "9" m2 = true).

Definition minutely_format (s : string) : Prop :=
  exists s1 s2,
    s = colon_mm s1 s2
    /\ in_range "0" "5" s1 = true /\ in_range "0" "9" s2 = true.

(** A job configured by every().day, without a time of day. *)
Definition job_every_day : Job :=
  set_unit (Some "days") (Job_init 1 (Some default_scheduler)).

(** ** Lemmas on the monad and on the steps of the next-run computation *)

Lemma upd_same A (f : nat -> A) k v : upd f k v k = v.
Proof. unfold upd. now rewrite Nat.eqb_refl. Qed.

Lemma upd_other A (f : nat -> A) k k' v : k' <> k -> upd f k v k' = f k'.
Proof.
  intros H. unfold upd. destruct (Nat.eqb_spec k' k); congruence.
Qed.

Lemma bind_Returns A B (m : M A) (k : A -> M B) w a w1 :
  m w = Returns a w1 -> bind m k w = k a w1.
Proof. intros H. unfold bind. now rewrite H. Qed.

Lemma bind_Raises A B (m : M A) (k : A -> M B) w e w1 :
  m w = Raises e w1 -> bind m k w = Raises e w1.
Proof. intros H. unfold bind. now rewrite H. Qed.

Lemma str_in_five u :
  str_in u ["seconds"; "minutes"; "hours"; "days"; "weeks"] = true ->
  u = Some "seconds" \/ u = Some "minutes" \/ u = Some "hours"
  \/ u = Some "days" \/ u = Some "weeks".
Proof.
  destruct u as [s|]; [|discriminate]. cbn [str_in].
  rewrite !orb_true_iff, !String.eqb_eq.
  intros [-> | [-> | [-> | [-> | [-> | H]]]]]; auto 10. discriminate.
Qed.

#[local] Arguments us_per_second : simpl never.
#[local] Arguments us_per_minute : simpl never.
#[local] Arguments us_per_hour : simpl never.
#[local] Arguments us_per_day : simpl never.
#[local] Arguments us_per_week : simpl never.
#[local] Arguments Z.mul : simpl never.
#[local] Arguments Z.add : simpl never.
#[local] Arguments Z.sub : simpl never.
#[local] Arguments Z.modulo : simpl never.
#[local] Arguments Z.div : simpl never.
#[local] Arguments Z.ltb : simpl never.
#[local] Arguments Z.leb : simpl never.
#[local] Arguments Z.geb : simpl never.
#[local] Arguments Z.gtb : simpl never.
#[local] Arguments Z.eqb : simpl never.
#[local] Arguments weekday : simpl never.
#[local] Arguments dt_replace : simpl never.
#[local] Arguments dt_time : simpl never.
#[local] Arguments time_gt : simpl never.
#[local] Arguments td_days : simpl never.

(** Symbolic execution of the primitives of the monad. *)
Ltac exec :=
  repeat (progress (unfold bind, ret, raise, raise_if, getattr, setattr,
                      record_call, the, now, randint, set_job, upd in *;
                    cbn; rewrite ?Nat.eqb_refl)).

Lemma resolve_period_returns E w self :
  let j := heap w self in
  valid_unit j -> latest_ok j ->
  resolve_period E self w
  = Returns (effective_period E w j)
            (set_job self (set_period (Some (effective_period E w j)) j)
                     (drawn j w)).
Proof.
  intros j Hu Hl. subst j.
  unfold valid_unit, latest_ok, effective_period, effective_interval,
    drawn, resolve_period in *.
  unfold bind at 1, getattr at 1. rewrite Hu. cbn [negb].
  destruct (latest (heap w self)) as [l|].
  - assert (Hge : (l >=? interval (heap w self)) = true)
      by (apply Z.geb_le; lia).
    assert (Hlt : (l <? interval (heap w self)) = false)
      by (apply Z.ltb_ge; lia).
    rewrite Hge. unfold bind, randint. rewrite Hlt. reflexivity.
  - reflexivity.
Qed.

Lemma resolve_period_bad_unit E w self :
  ~ valid_unit (heap w self) ->
  resolve_period E self w = Raises ScheduleValueError w.
Proof.
  unfold valid_unit, resolve_period. intros H.
  unfold bind, getattr.
  destruct (str_in _ _); [congruence | reflexivity].
Qed.

Lemma resolve_period_bad_latest E w self l :
  valid_unit (heap w self) ->
  latest (heap w self) = Some l -> l < interval (heap w self) ->
  resolve_period E self w = Raises ScheduleError w.
Proof.
  unfold valid_unit, resolve_period. intros Hu Hl Hlt.
  unfold bind at 1, getattr at 1. rewrite Hu, Hl. cbn [negb].
  assert (Hge : (l >=? interval (heap w self)) = false).
  { rewrite Z.geb_leb. apply Z.leb_gt. lia. }
  rewrite Hge. reflexivity.
Qed.

Lemma job_frame_refl self w : job_frame self w w.
Proof. unfold job_frame. auto 10. Qed.

Lemma job_frame_trans self w1 w2 w3 :
  job_frame self w1 w2 -> job_frame self w2 w3 -> job_frame self w1 w3.
Proof.
  unfold job_frame.
  intros (A1 & A2 & A3 & A4 & A5 & A6 & A7) (B1 & B2 & B3 & B4 & B5 & B6 & B7).
  repeat split; try congruence.
  intros r Hr. rewrite B7, A7; auto.
Qed.

Lemma job_frame_set_job self j w : job_frame self w (set_job self j w).
Proof.
  unfold job_frame, set_job. cbn. repeat split.
  intros r Hr. now apply upd_other.
Qed.

Lemma job_frame_clock self n w : job_frame self w (with_clock_reads n w).
Proof. unfold job_frame. cbn. auto 10. Qed.

Lemma job_frame_rand self n w : job_frame self w (with_rand_draws n w).
Proof. unfold job_frame. cbn. auto 10. Qed.

Lemma job_frame_drawn self j w : job_frame self w (drawn j w).
Proof.
  unfold drawn. destruct (latest j);
    [apply job_frame_rand | apply job_frame_refl].
Qed.

Create HintDb frame.
#[local] Hint Resolve job_frame_refl job_frame_set_job job_frame_clock
  job_frame_rand job_frame_drawn : frame.

Ltac frame_solve :=
  unfold job_frame in *; cbn in *;
  repeat match goal with H : _ /\ _ |- _ => destruct H end;
  repeat split; try congruence;
  try (let r := fresh "r" in
       let Hr := fresh "Hr" in
       intros r Hr;
       repeat match goal with
              | |- context [Nat.eqb ?a ?b] =>
                  destruct (Nat.eqb_spec a b); [congruence|]
              end; auto).

(** Steps 1 to 4: the period is resolved and the base instant chosen. *)
Lemma base_instant_returns E w self :
  let j := heap w self in
  let p := effective_period E w j in
  valid_unit j -> latest_ok j ->
  exists w4,
    (resolve_period E self ;; base_instant E self) w = Returns tt w4
    /\ heap w4 self
       = set_next_run (Some (base_of E w j p)) (set_period (Some p) j)
    /\ clock_reads w4 = (clock_reads w + base_reads j)%nat
    /\ job_frame self w w4.
Proof.
  intros j p Hu Hl.
  erewrite bind_Returns by (apply resolve_period_returns; assumption).
  fold j. fold p. unfold base_instant, base_of, base_reads.
  assert (Hf : job_frame self w (drawn j w)) by auto with frame.
  assert (Hc : clock_reads (drawn j w) = clock_reads w)
    by (unfold drawn; destruct (latest j); reflexivity).
  generalize dependent (drawn j w). intros w1 Hf Hc.
  subst p. unfold effective_period. generalize (effective_interval E w j).
  intros n. clearbody j. clear Hu Hl.
  destruct j as [iv la jf ar kw jn u att lr nxt pd sd ca sc].
  exec. destruct lr as [lr|]; [|destruct nxt as [nxt|]]; exec;
    eexists; (split; [reflexivity|]); exec; rewrite ?Hc;
    (split; [reflexivity|]);
    (split; [auto using Nat.add_0_r, Nat.add_1_r|]); frame_solve.
Qed.

Lemma schedule_next_run_split E self w :
  _schedule_next_run E self w
  = ((resolve_period E self ;; base_instant E self) ;;
     (weekday_anchor self ;; at_time_align E self ;; double_check E self))
      (called self w).
Proof.
  unfold _schedule_next_run, called.
  unfold bind at 1, record_call at 1.
  unfold bind at 1 5 6.
  destruct (resolve_period E self _); reflexivity.
Qed.

Lemma no_anchor_no_time E self w :
  start_day (heap w self) = None -> at_time (heap w self) = None ->
  (weekday_anchor self ;; at_time_align E self ;; double_check E self) w
  = Returns tt w.
Proof.
  intros Hs Ha.
  unfold weekday_anchor, at_time_align, double_check, bind, getattr.
  cbn. rewrite Hs. cbn. rewrite Ha. cbn. rewrite Hs. reflexivity.
Qed.

(** ** The claims *)

(** C2.  The base instant of a next-run recomputation: with [lastRun] set
    it is [lastRun + period], whatever the clock reads; with [lastRun]
    unset and [nextRun] set, [nextRun] is left as it is; otherwise it is
    [now + period].  This is the state after the base-instant step for
    every job, and the [nextRun] that [_schedule_next_run] returns with
    for a job that has neither an anchor weekday nor a time of day. *)
Theorem C2_base_instant E w self :
  let j := heap w self in
  let p := effective_period E w j in
  valid_unit j -> latest_ok j ->
  let chosen (w' : World) :=
    (forall lr, last_run j = Some lr ->
                next_run (heap w' self) = Some (lr + p))
    /\ (forall nr, last_run j = None -> next_run j = Some nr ->
                   next_run (heap w' self) = Some nr)
    /\ (last_run j = None -> next_run j = None ->
        next_run (heap w' self) = Some (clock E (clock_reads w) + p)) in
  returns_with ((resolve_period E self ;; base_instant E self) w)
               (fun _ w' => chosen w')
  /\ (start_day j = None -> at_time j = None ->
      returns_with (_schedule_next_run E self w) (fun _ w' => chosen w')).
Proof.
  intros j p Hu Hl chosen.
  assert (Hchosen : forall w',
             heap w' self
             = set_next_run (Some (base_of E w j p))
                            (set_period (Some p) j) -> chosen w').
  { intros w' H. unfold chosen. rewrite H. unfold base_of. cbn.
    repeat split.
    - intros lr ->. reflexivity.
    - intros nr -> ->. reflexivity.
    - intros -> ->. reflexivity. }
  split.
  - destruct (base_instant_returns E w self Hu Hl) as (w4 & Hr & Hh & _).
    exists tt, w4. split; [exact Hr | apply Hchosen, Hh].
  - intros Hs Ha.
    destruct (base_instant_returns E (called self w) self Hu Hl)
      as (w4 & Hr & Hh & _ & Hf).
    exists tt, w4. split; [|apply Hchosen, Hh].
    rewrite schedule_next_run_split.
    erewrite bind_Returns by exact Hr.
    apply no_anchor_no_time; rewrite Hh; cbn; assumption.
Qed.

(** C2, at an instance: every(2).seconds that last ran at T + 2s is next
    due at T + 4s, here with a clock that reads an hour later. *)
Lemma C2_base_instant_witness :
  returns_with
    (_schedule_next_run (env_at (wednesday_2020_01_01 + hms 1 0 0)) 0%nat
       (world_with_job job_every_2_seconds))
    (fun _ w' => next_run (heap w' 0%nat)
                 = Some (wednesday_2020_01_01 + hms 0 0 4)).
Proof.
  destruct (C2_base_instant
              (env_at (wednesday_2020_01_01 + hms 1 0 0))
              (world_with_job job_every_2_seconds) 0%nat
              eq_refl I) as [_ H].
  destruct (H eq_refl eq_refl) as (a & w' & Hr & H1 & _).
  exists a, w'. split; [exact Hr | exact (H1 _ eq_refl)].
Defined.

Lemma bind_assoc A B C (m : M A) (k : A -> M B) (k' : B -> M C) w :
  bind (bind m k) k' w = bind m (fun a => bind (k a) k') w.
Proof. unfold bind. destruct (m w); reflexivity. Qed.

(** Step 5 on a job whose base instant is [base]. *)
Lemma weekday_anchor_returns w self sd wd base p :
  let j := heap w self in
  unit j = Some "weeks" -> start_day j = Some sd ->
  index_of weekdays sd = Some wd ->
  next_run j = Some base -> period j = Some p ->
  weekday_anchor self w
  = Returns tt
      (set_job self
         (set_next_run
            (Some (base + (days_forward wd base * us_per_day - p))) j) w).
Proof.
  intros j Hu Hs Hi Hn Hp. subst j.
  unfold weekday_anchor, bind at 1, getattr at 1.
  rewrite Hs, Hu, Hi, Hn, Hp. reflexivity.
Qed.

Lemma after_base E self w w4 :
  (resolve_period E self ;; base_instant E self) (called self w)
  = Returns tt w4 ->
  _schedule_next_run E self w
  = (weekday_anchor self ;; at_time_align E self ;; double_check E self) w4.
Proof.
  intros H. rewrite schedule_next_run_split.
  now erewrite bind_Returns by exact H.
Qed.

Lemma us_per_day_pos : 0 < us_per_day.
Proof. reflexivity. Qed.

Lemma weekday_plus_week t : weekday (t + 1 * us_per_week) = weekday t.
Proof.
  unfold weekday, us_per_week.
  replace (t + 1 * (7 * us_per_day)) with (t + 7 * us_per_day) by lia.
  rewrite Z.div_add by (pose proof us_per_day_pos; lia).
  replace (t / us_per_day + 7) with (t / us_per_day + 1 * 7) by lia.
  apply Z.mod_add. lia.
Qed.

Lemma dt_date_plus_days t n :
  dt_date (t + n * us_per_day) = dt_date t + n * us_per_day.
Proof.
  unfold dt_date.
  rewrite Z.div_add by (pose proof us_per_day_pos; lia). lia.
Qed.

Lemma time_of_day_bounds t : 0 <= t - dt_date t < us_per_day.
Proof.
  unfold dt_date. pose proof us_per_day_pos as H.
  pose proof (Z.mod_pos_bound t us_per_day H) as B.
  rewrite Z.mod_eq in B by lia. lia.
Qed.

Lemma weekday_same_day t n x :
  0 <= x < us_per_day ->
  weekday (dt_date t + n * us_per_day + x) = (weekday t + n) mod 7.
Proof.
  intros Hx. unfold weekday, dt_date. pose proof us_per_day_pos as H.
  replace (t / us_per_day * us_per_day + n * us_per_day + x)
    with (x + (t / us_per_day + n) * us_per_day) by lia.
  rewrite Z.div_add by lia. rewrite (Z.div_small x) by lia.
  rewrite Z.add_0_l. now rewrite Zplus_mod_idemp_l.
Qed.

Lemma td_days_bounds x n :
  n * us_per_day <= x < (n + 1) * us_per_day -> td_days x = n.
Proof.
  intros H. unfold td_days. symmetry.
  apply Z.div_unique with (r := x - n * us_per_day); [|lia].
  left. lia.
Qed.

(** The first computation for every().monday.at(09:00), with a clock that
    stands at [t]: 09:00:00 on the first Monday after the day of [t],
    brought one week back when it is seven days or more away. *)
Lemma anchored_monday_0900 E w self t :
  configured_monday_0900 (heap w self) ->
  (forall n, clock E n = t) ->
  let first := t + days_forward 0 t * us_per_day in
  let at_0900 := dt_date first + hms 9 0 0 in
  returns_with (_schedule_next_run E self w)
    (fun _ w' =>
       next_run (heap w' self)
       = Some (if td_days (at_0900 - t) >=? 7
               then at_0900 - 1 * us_per_week else at_0900)).
Proof.
  intros (Hi & Hla & Hu & Hs & Ha & Hlr & Hnr) Hc first at_0900.
  assert (Hv : valid_unit (heap (called self w) self))
    by (unfold valid_unit; cbn; now rewrite Hu).
  assert (Hl : latest_ok (heap (called self w) self))
    by (unfold latest_ok; cbn; now rewrite Hla).
  destruct (base_instant_returns E (called self w) self Hv Hl)
    as (w4 & Hr & Hh & _).
  rewrite (@after_base _ _ _ _ Hr).
  unfold effective_period, effective_interval, base_of in Hh.
  cbn [heap called with_calls] in Hh.
  rewrite Hla, Hlr, Hnr, Hu, Hi, Hc in Hh. cbn [timedelta_of] in Hh.
  unfold weekday_anchor, at_time_align, catch_up, double_check.
  destruct w4 as [cr rd hp nr js ts tb nt cs]; cbn [heap clock_reads] in *.
  destruct (heap w self) as [iv la jf ar kw jn u att lr nxt pd sd ca sc].
  cbn in Hi, Hla, Hu, Hs, Ha, Hlr, Hnr. subst.
  repeat (progress (exec; rewrite ?Hh, ?Hc, ?weekday_plus_week)).
  fold (days_forward 0 t).
  replace (t + 1 * us_per_week
           + (days_forward 0 t * us_per_day - 1 * us_per_week))
    with first by (unfold first; lia).
  assert (Hrep : dt_replace (Some 9) (Some 0) 0 0 first = at_0900).
  { unfold dt_replace, at_0900, hms. lia. }
  rewrite Hrep.
  destruct (td_days (at_0900 - t) >=? 7);
    (eexists _, _; split; [reflexivity|]); exec; reflexivity.
Qed.

(** C3.  The weekday anchor: for a job with an anchor weekday (its unit
    is weeks), the next-run computation adds to the base instant the
    number of days from the weekday of the base instant forward to the
    target weekday, 7 being added to a difference that is zero or
    negative, and subtracts one period; this is the instant the
    computation returns when no time of day is set.  For
    every().monday.at(09:00) and a clock that stands still: bound at any
    instant of a Wednesday, the job is next due at 09:00:00 of the Monday
    five days later; bound on a Monday at 08:00:00, it is next due that
    same day at 09:00:00.  So it is for the fluent chain itself, bound on
    Wednesday 2020-01-01 at 10:00 and on Monday 2020-01-06 at 08:00, with
    a clock that moves. *)
Theorem C3_weekday_anchor :
  (forall E w self sd wd,
      let j := heap w self in
      let p := effective_period E w j in
      let base := base_of E w j p in
      let delta := wd - weekday base in
      let days_ahead := if delta <=? 0 then delta + 7 else delta in
      let anchored (w' : World) :=
        next_run (heap w' self)
        = Some (base + (days_ahead * us_per_day - p)) in
      unit j = Some "weeks" -> latest_ok j ->
      start_day j = Some sd -> index_of weekdays sd = Some wd ->
      returns_with
        ((resolve_period E self ;; base_instant E self ;;
          weekday_anchor self) w)
        (fun _ w' => anchored w')
      /\ (at_time j = None ->
          returns_with (_schedule_next_run E self w)
                       (fun _ w' => anchored w')))
  /\ (forall E w self t,
         configured_monday_0900 (heap w self) ->
         (forall n, clock E n = t) ->
         weekday t = 2 ->
         returns_with (_schedule_next_run E self w)
           (fun _ w' =>
              next_run (heap w' self)
              = Some (dt_date t + 5 * us_per_day + hms 9 0 0)
              /\ weekday (dt_date t + 5 * us_per_day + hms 9 0 0) = 0))
  /\ (forall E w self t,
         configured_monday_0900 (heap w self) ->
         (forall n, clock E n = t) ->
         weekday t = 0 -> t = dt_date t + hms 8 0 0 ->
         returns_with (_schedule_next_run E self w)
           (fun _ w' =>
              next_run (heap w' self) = Some (dt_date t + hms 9 0 0)))
  /\ (weekday (wednesday_2020_01_01 + hms 10 0 0) = 2
      /\ weekday (monday_2020_01_06 + hms 9 0 0) = 0
      /\ returns_with
           (every_monday_at (env_at (wednesday_2020_01_01 + hms 10 0 0))
                            "09:00" initial_world)
           (fun j w' => next_run (heap w' j)
                        = Some (monday_2020_01_06 + hms 9 0 0)))
  /\ (weekday (monday_2020_01_06 + hms 8 0 0) = 0
      /\ returns_with
           (every_monday_at (env_at (monday_2020_01_06 + hms 8 0 0))
                            "09:00" initial_world)
           (fun j w' => next_run (heap w' j)
                        = Some (monday_2020_01_06 + hms 9 0 0))).
Proof.
  split; [|split; [|split; [|split]]].
  - intros E w self sd wd j p base delta days_ahead anchored Hu Hl Hs Hi.
    assert (Hv : valid_unit j) by (unfold valid_unit; now rewrite Hu).
    assert (Hstep : forall w0,
               heap w0 self = heap w self ->
               clock_reads w0 = clock_reads w ->
               rand_draws w0 = rand_draws w ->
               exists w5,
                 (resolve_period E self ;; base_instant E self ;;
                  weekday_anchor self) w0 = Returns tt w5
                 /\ heap w5 self
                    = set_next_run
                        (Some (base + (days_ahead * us_per_day - p)))
                        (set_period (Some p) j)).
    { intros w0 Hh Hc Hr.
      assert (Hu0 : valid_unit (heap w0 self)) by now rewrite Hh.
      assert (Hl0 : latest_ok (heap w0 self)) by now rewrite Hh.
      destruct (base_instant_returns E w0 self Hu0 Hl0)
        as (w4 & Hr4 & Hh4 & _).
      assert (Hp : effective_period E w0 (heap w0 self) = p).
      { unfold p, effective_period, effective_interval.
        now rewrite Hh, Hr. }
      assert (Hb : base_of E w0 (heap w0 self) p = base).
      { unfold base, base_of. now rewrite Hh, Hc. }
      rewrite Hp, Hb, Hh in Hh4.
      pose proof (@weekday_anchor_returns w4 self sd wd base p) as Hw.
      cbv zeta in Hw. rewrite Hh4 in Hw.
      specialize (Hw Hu Hs Hi eq_refl eq_refl).
      eexists. split.
      - rewrite <- bind_assoc. erewrite bind_Returns by exact Hr4.
        exact Hw.
      - unfold set_job. cbn. rewrite upd_same. reflexivity. }
    split.
    + destruct (Hstep w eq_refl eq_refl eq_refl) as (w5 & Hr5 & Hh5).
      exists tt, w5. split; [exact Hr5|].
      unfold anchored. now rewrite Hh5.
    + intros Ha.
      destruct (Hstep (called self w) eq_refl eq_refl eq_refl)
        as (w5 & Hr5 & Hh5).
      exists tt, w5. split; [|unfold anchored; now rewrite Hh5].
      unfold _schedule_next_run.
      unfold bind at 1, record_call at 1. fold (called self w).
      rewrite <- 2 bind_assoc.
      rewrite <- bind_assoc in Hr5.
      erewrite bind_Returns by exact Hr5.
      unfold at_time_align, double_check, bind, getattr, ret.
      rewrite Hh5. cbn. fold j. rewrite Ha. cbn.
      rewrite Hh5. cbn. fold j. rewrite Ha, andb_false_r. reflexivity.
  - intros E w self t Hcfg Hc Hw.
    destruct (anchored_monday_0900 E w self Hcfg Hc) as (a & w' & Hr & Hn).
    exists a, w'. split; [exact Hr|].
    assert (Hd : days_forward 0 t = 5)
      by (unfold days_forward; rewrite Hw; reflexivity).
    assert (H9 : 0 <= hms 9 0 0 < us_per_day)
      by (unfold hms, us_per_day, us_per_hour, us_per_minute,
            us_per_second; lia).
    rewrite Hd, dt_date_plus_days in Hn.
    assert (Hlt : (td_days (dt_date t + 5 * us_per_day + hms 9 0 0 - t)
                   >=? 7) = false).
    { rewrite Z.geb_leb. apply Z.leb_gt. unfold td_days.
      apply Z.div_lt_upper_bound; [apply us_per_day_pos|].
      pose proof (time_of_day_bounds t). lia. }
    rewrite Hlt in Hn. split; [exact Hn|].
    rewrite weekday_same_day by exact H9. now rewrite Hw.
  - intros E w self t Hcfg Hc Hw Ht.
    destruct (anchored_monday_0900 E w self Hcfg Hc) as (a & w' & Hr & Hn).
    exists a, w'. split; [exact Hr|].
    assert (Hd : days_forward 0 t = 7)
      by (unfold days_forward; rewrite Hw; reflexivity).
    assert (H1 : 0 <= hms 9 0 0 - hms 8 0 0 < us_per_day)
      by (unfold hms, us_per_day, us_per_hour, us_per_minute,
            us_per_second; lia).
    rewrite Hd, dt_date_plus_days in Hn.
    assert (Hge : (td_days (dt_date t + 7 * us_per_day + hms 9 0 0 - t)
                   >=? 7) = true).
    { rewrite (@td_days_bounds _ 7); [reflexivity|]. lia. }
    rewrite Hge in Hn. rewrite Hn. f_equal. unfold us_per_week. lia.
  - split; [reflexivity|]. split; [reflexivity|].
    eexists _, _. split; vm_compute; reflexivity.
  - split; [reflexivity|].
    eexists _, _. split; vm_compute; reflexivity.
Qed.

(** C3, at three instances: a weekly job anchored on Thursday whose base
    instant falls on a Wednesday, and every().monday.at(09:00) with a clock
    that stands at Wednesday 2020-01-01 10:00 and at Monday 2020-01-06
    08:00. *)
Lemma C3_weekday_anchor_witness :
  returns_with
    (_schedule_next_run (env_at (wednesday_2020_01_01 + hms 10 0 0)) 0%nat
       (world_with_job job_every_thursday))
    (fun _ w' => next_run (heap w' 0%nat)
                 = Some (wednesday_2020_01_01 + hms 10 0 0
                         + 1 * us_per_day))
  /\ returns_with
       (_schedule_next_run
          (env_frozen (wednesday_2020_01_01 + hms 10 0 0)) 0%nat
          (world_with_job job_every_monday_0900))
       (fun _ w' => next_run (heap w' 0%nat)
                    = Some (monday_2020_01_06 + hms 9 0 0))
  /\ returns_with
       (_schedule_next_run
          (env_frozen (monday_2020_01_06 + hms 8 0 0)) 0%nat
          (world_with_job job_every_monday_0900))
       (fun _ w' => next_run (heap w' 0%nat)
                    = Some (monday_2020_01_06 + hms 9 0 0)).
Proof.
  destruct C3_weekday_anchor as (Hg & Hwed & Hmon & _).
  split; [|split].
  - destruct (Hg (env_at (wednesday_2020_01_01 + hms 10 0 0))
                 (world_with_job job_every_thursday) 0%nat "thursday" 3
                 eq_refl I eq_refl eq_refl) as [_ H].
    destruct (H eq_refl) as (a & w' & Hr & H1).
    exists a, w'. split; [exact Hr | exact H1].
  - assert (Hcfg : configured_monday_0900
                     (heap (world_with_job job_every_monday_0900) 0%nat))
      by (repeat split).
    destruct (Hwed (env_frozen (wednesday_2020_01_01 + hms 10 0 0))
                   (world_with_job job_every_monday_0900) 0%nat
                   (wednesday_2020_01_01 + hms 10 0 0)
                   Hcfg (fun _ => eq_refl) eq_refl)
      as (a & w' & Hr & H1 & _).
    exists a, w'. split; [exact Hr | exact H1].
  - assert (Hcfg : configured_monday_0900
                     (heap (world_with_job job_every_monday_0900) 0%nat))
      by (repeat split).
    destruct (Hmon (env_frozen (monday_2020_01_06 + hms 8 0 0))
                   (world_with_job job_every_monday_0900) 0%nat
                   (monday_2020_01_06 + hms 8 0 0)
                   Hcfg (fun _ => eq_refl) eq_refl eq_refl)
      as (a & w' & Hr & H1).
    exists a, w'. split; [exact Hr | exact H1].
Defined.

(** C4, as stated, fails.  every(2).hours.at(:30) is bound on Monday
    2020-01-06 at 10:15:00: it is the first computation, the period is two
    hours, the overwritten [nextRun] is 12:30:00 and minute 30 has not
    come yet in the current hour; [nextRun] ends at 11:30:00, one hour
    back, and not at 10:30:00, one period back. *)
Lemma C4_counterexample :
  returns_with
    (every_2_hours_at env_monday_1015 ":30" initial_world)
    (fun j w' =>
       last_run (heap w' j) = None
       /\ period (heap w' j) = Some (hms 2 0 0)
       /\ at_time (heap w' j) = Some (mk_time 0 30 0 0)
       /\ dt_replace None (Some 30) 0 0 (clock env_monday_1015 0 + hms 2 0 0)
          = monday_2020_01_06 + hms 12 30 0
       /\ (30 >? dt_minute (clock env_monday_1015 1)) = true
       /\ next_run (heap w' j)
          = Some (monday_2020_01_06 + hms 12 30 0 - hms 1 0 0)
       /\ next_run (heap w' j)
          <> Some (monday_2020_01_06 + hms 12 30 0 - hms 2 0 0)).
Proof.
  eexists _, _. split; [vm_compute; reflexivity|].
  repeat split; try (vm_compute; reflexivity).
  vm_compute. discriminate.
Qed.

(** C4, amended.  For a job with a time of day and no anchor weekday,
    whose unit is days, hours or minutes: once the time-of-day fields of
    [nextRun] are overwritten, if this is the first computation or the
    overwritten [nextRun] is more than one period past [lastRun], and the
    time of day has not yet occurred in the current day, hour or minute
    (for a daily job: and the interval is 1), then [nextRun] is shifted
    back by exactly one day, one hour or one minute, that is by one unit
    and not by the period; otherwise it stays as overwritten. *)
Theorem C4_catch_up_one_unit E w self t :
  let j := heap w self in
  let p := effective_period E w j in
  let base := base_of E w j p in
  let now_ := clock E (clock_reads w + base_reads j) in
  at_time j = Some t -> start_day j = None -> latest_ok j ->
  (unit j = Some "days" ->
   let aligned :=
     dt_replace (Some (t_hour t)) (Some (t_minute t)) (t_second t) 0 base in
   returns_with (_schedule_next_run E self w)
     (fun _ w' =>
        next_run (heap w' self)
        = Some (if overran j aligned p && time_gt t (dt_time now_)
                   && (interval j =? 1)
                then aligned - 1 * us_per_day else aligned)))
  /\ (unit j = Some "hours" ->
      let aligned := dt_replace None (Some (t_minute t)) (t_second t) 0 base in
      returns_with (_schedule_next_run E self w)
        (fun _ w' =>
           next_run (heap w' self)
           = Some (if overran j aligned p
                      && ((t_minute t >? dt_minute now_)
                          || ((t_minute t =? dt_minute now_)
                              && (t_second t >? dt_second now_)))
                   then aligned - 1 * us_per_hour else aligned)))
  /\ (unit j = Some "minutes" ->
      let aligned := dt_replace None None (t_second t) 0 base in
      returns_with (_schedule_next_run E self w)
        (fun _ w' =>
           next_run (heap w' self)
           = Some (if overran j aligned p && (t_second t >? dt_second now_)
                   then aligned - 1 * us_per_minute else aligned))).
Proof.
  intros j p base now_ Ha Hs Hl.
  assert (Hgen : valid_unit j ->
            exists w4,
              _schedule_next_run E self w
              = (weekday_anchor self ;; at_time_align E self ;;
                 double_check E self) w4
              /\ heap w4 self
                 = set_next_run (Some base) (set_period (Some p) j)
              /\ clock E (clock_reads w4) = now_).
  { intros Hv.
    destruct (base_instant_returns E (called self w) self Hv Hl)
      as (w4 & Hr & Hh & Hc & _).
    exists w4. split; [now apply after_base|]. split; [exact Hh|].
    unfold now_. rewrite Hc. reflexivity. }
  unfold overran. clearbody p base now_.
  (split; [|split]); intros Hu;
    (destruct Hgen as (w4 & -> & Hh & Hc);
     [unfold valid_unit; now rewrite Hu|]);
    unfold weekday_anchor, at_time_align, catch_up, double_check;
    destruct w4 as [cr rd hp nr js ts tb nt cs]; cbn [heap clock_reads] in *;
    clearbody j;
    destruct j as [iv la jf ar kw jn u att lr nxt pd sd ca sc];
    cbn in Ha, Hs, Hu; subst;
    repeat (progress (exec; rewrite ?Hh));
    rewrite ?Hc; destruct lr as [lr|]; exec;
    repeat (match goal with
            | |- context [if ?b then _ else _] => destruct b eqn:?
            end; exec);
    (eexists _, _; split; [reflexivity|]); exec; reflexivity.
Qed.

(** C4 amended, at three instances: the recomputation of the job of the
    counterexample ends one hour before the overwritten instant; that of
    every().day.at(09:00) at 08:00 ends at 09:00 of the same day; that of
    every().minute.at(:30) at 10:15:10 ends at 10:15:30. *)
Lemma C4_catch_up_one_unit_witness :
  returns_with
    (_schedule_next_run env_monday_1015 0%nat
       (world_with_job job_every_2_hours_at_30))
    (fun _ w' => next_run (heap w' 0%nat)
                 = Some (monday_2020_01_06 + hms 11 30 0))
  /\ returns_with
       (_schedule_next_run (env_at (monday_2020_01_06 + hms 8 0 0)) 0%nat
          (world_with_job job_every_day_at_0900))
       (fun _ w' => next_run (heap w' 0%nat)
                    = Some (monday_2020_01_06 + hms 9 0 0))
  /\ returns_with
       (_schedule_next_run (env_at (monday_2020_01_06 + hms 10 15 10))
          0%nat (world_with_job job_every_minute_at_30))
       (fun _ w' => next_run (heap w' 0%nat)
                    = Some (monday_2020_01_06 + hms 10 15 30)).
Proof.
  split; [|split].
  - exact (proj1 (proj2 (C4_catch_up_one_unit env_monday_1015
                           (world_with_job job_every_2_hours_at_30)
                           0%nat (t := mk_time 0 30 0 0)
                           eq_refl eq_refl I))
                 eq_refl).
  - exact (proj1 (C4_catch_up_one_unit
                    (env_at (monday_2020_01_06 + hms 8 0 0))
                    (world_with_job job_every_day_at_0900)
                    0%nat (t := mk_time 9 0 0 0) eq_refl eq_refl I)
                 eq_refl).
  - exact (proj2 (proj2 (C4_catch_up_one_unit
                           (env_at (monday_2020_01_06 + hms 10 15 10))
                           (world_with_job job_every_minute_at_30)
                           0%nat (t := mk_time 0 0 30 0)
                           eq_refl eq_refl I))
                 eq_refl).
Defined.

(** ** Frame reasoning *)

Section Post.

Variable P : World -> World -> Prop.
Hypothesis P_refl : forall w, P w w.
Hypothesis P_trans : forall w1 w2 w3, P w1 w2 -> P w2 w3 -> P w1 w3.

Lemma post_ret A (a : A) : post (ret a) P.
Proof. intros w. apply P_refl. Qed.

Lemma post_raise A e : post (@raise A e) P.
Proof. intros w. apply P_refl. Qed.

Lemma post_bind A B (m : M A) (k : A -> M B) :
  post m P -> (forall a, post (k a) P) -> post (bind m k) P.
Proof.
  intros Hm Hk w. unfold bind. specialize (Hm w).
  destruct (m w) as [a w1|e w1|]; auto.
  specialize (Hk a w1). destruct (k a w1); eauto.
Qed.

Lemma post_getattr A self (f : Job -> A) : post (getattr self f) P.
Proof. intros w. apply P_refl. Qed.

Lemma post_the A (o : option A) : post (the o) P.
Proof. destruct o; intros w; apply P_refl. Qed.

Lemma post_raise_if b e : post (raise_if b e) P.
Proof. destruct b; intros w; apply P_refl. Qed.

End Post.

Lemma post_weaken A (m : M A) (P P' : World -> World -> Prop) :
  (forall w w', P w w' -> P' w w') -> post m P -> post m P'.
Proof.
  intros H Hm w. specialize (Hm w). destruct (m w); auto.
Qed.

Lemma job_step_refl Q self :
  (forall j, Q j j) -> forall w, job_step Q self w w.
Proof. intros HQ w. split; [apply job_frame_refl | apply HQ]. Qed.

Lemma job_step_trans Q self :
  (forall j1 j2 j3, Q j1 j2 -> Q j2 j3 -> Q j1 j3) ->
  forall w1 w2 w3,
    job_step Q self w1 w2 -> job_step Q self w2 w3 -> job_step Q self w1 w3.
Proof.
  intros HQ w1 w2 w3 [F1 Q1] [F2 Q2].
  split; [eapply job_frame_trans | eapply HQ]; eassumption.
Qed.

Lemma same_but_next_run_refl j : same_but_next_run j j.
Proof.
  split; [destruct j; reflexivity | auto].
Qed.

Lemma same_but_next_run_trans j1 j2 j3 :
  same_but_next_run j1 j2 -> same_but_next_run j2 j3 ->
  same_but_next_run j1 j3.
Proof.
  destruct j1, j2, j3. unfold same_but_next_run. cbn.
  intros [H1 S1] [H2 S2]. inversion H1. inversion H2. subst.
  split; [reflexivity | auto].
Qed.

Lemma same_but_schedule_refl j : same_but_schedule j j.
Proof. destruct j. reflexivity. Qed.

Lemma same_but_schedule_trans j1 j2 j3 :
  same_but_schedule j1 j2 -> same_but_schedule j2 j3 ->
  same_but_schedule j1 j3.
Proof.
  destruct j1, j2, j3. unfold same_but_schedule. cbn.
  intros H1 H2. inversion H1. inversion H2. subst. reflexivity.
Qed.

Lemma same_but_next_run_schedule j j' :
  same_but_next_run j j' -> same_but_schedule j j'.
Proof.
  destruct j, j'. unfold same_but_next_run, same_but_schedule. cbn.
  intros [H _]. inversion H. subst. reflexivity.
Qed.

Lemma post_set_next_run self v :
  post (setattr self (set_next_run (Some v)))
       (job_step same_but_next_run self).
Proof.
  intros w. unfold setattr. split.
  - apply (job_frame_set_job self _ w).
  - cbn. rewrite upd_same. destruct (heap w self).
    split; [reflexivity | discriminate].
Qed.

Lemma post_set_period self v :
  post (setattr self (set_period v)) (job_step same_but_schedule self).
Proof.
  intros w. unfold setattr. split.
  - apply (job_frame_set_job self _ w).
  - cbn. rewrite upd_same. destruct (heap w self). reflexivity.
Qed.

Lemma post_now Q self E :
  (forall j, Q j j) -> post (now E) (job_step Q self).
Proof.
  intros HQ w. unfold now. split; [apply job_frame_clock | apply HQ].
Qed.

Lemma post_randint Q self E a b :
  (forall j, Q j j) -> post (randint E a b) (job_step Q self).
Proof.
  intros HQ w. unfold randint.
  destruct (b <? a); (split; [auto with frame | apply HQ]).
Qed.

(** One step of the structural proof that [m] satisfies [post m P], for
    [P] a [job_step]. *)
Ltac post_step refl trans :=
  match goal with
  | |- post (bind _ _) _ =>
      apply post_bind; [exact trans | | intros]
  | |- post (ret _) _ => apply post_ret; exact refl
  | |- post (raise _) _ => apply post_raise; exact refl
  | |- post (raise_if _ _) _ => apply post_raise_if; exact refl
  | |- post (the _) _ => apply post_the; exact refl
  | |- post (getattr _ _) _ => apply post_getattr; exact refl
  | |- post (now _) _ => apply post_now
  | |- post (randint _ _ _) _ => apply post_randint
  | |- post (setattr _ (set_next_run _)) _ => apply post_set_next_run
  | |- post (setattr _ (set_period _)) _ => apply post_set_period
  | |- post (if ?b then _ else _) _ => destruct b
  | |- post (match ?o with _ => _ end) _ => destruct o
  end.

Lemma post_steps_4_7 E self :
  post (base_instant E self ;; weekday_anchor self ;;
        at_time_align E self ;; double_check E self)
       (job_step same_but_next_run self).
Proof.
  pose proof (@job_step_refl _ self same_but_next_run_refl) as R.
  pose proof (@job_step_trans _ self same_but_next_run_trans) as T.
  unfold base_instant, weekday_anchor, at_time_align, catch_up,
    double_check.
  repeat (post_step R T; auto using same_but_next_run_refl).
Qed.

Lemma post_resolve_period E self :
  post (resolve_period E self) (job_step same_but_schedule self).
Proof.
  pose proof (@job_step_refl _ self same_but_schedule_refl) as R.
  pose proof (@job_step_trans _ self same_but_schedule_trans) as T.
  unfold resolve_period.
  repeat (post_step R T; auto using same_but_schedule_refl).
Qed.

(** [_schedule_next_run] never hangs; it puts its call on record and then
    changes nothing but [next_run] and [period] of its job, the clock and
    the random source. *)
Lemma schedule_next_run_post E self w :
  match _schedule_next_run E self w with
  | Returns _ w' | Raises _ w' =>
      job_step same_but_schedule self (called self w) w'
  | Hangs => False
  end.
Proof.
  pose proof (@job_step_trans _ self same_but_schedule_trans) as T.
  assert (H : post (resolve_period E self ;; base_instant E self ;;
                    weekday_anchor self ;; at_time_align E self ;;
                    double_check E self)
                   (job_step same_but_schedule self)).
  { apply post_bind; [exact T | apply post_resolve_period | intros _].
    eapply post_weaken; [|apply post_steps_4_7].
    intros w0 w' [F Q]. split; [exact F|].
    now apply same_but_next_run_schedule. }
  exact (H (called self w)).
Qed.

(** C8, as stated, fails.  every(5).to(3).seconds.do(job): the
    computation at binding raises ScheduleError, which is not a
    ScheduleValueError; the job is not registered. *)
Lemma C8_counterexample :
  exists w',
    every_5_to_3_seconds (env_at wednesday_2020_01_01) initial_world
    = Raises ScheduleError w'
    /\ isinstance ScheduleError ScheduleValueError = false
    /\ interval (heap w' 0%nat) = 5
    /\ latest (heap w' 0%nat) = Some 3
    /\ rescheduled (calls w') = [0%nat]
    /\ jobs w' = [].
Proof.
  eexists. split; [vm_compute; reflexivity|].
  repeat split.
Qed.

(** C8, amended.  [to] validates nothing: it returns for every [latest],
    which it stores.  For a job with a valid unit and a jitter bound, the
    next-run computation raises ScheduleError (the base class, which is not
    a ScheduleValueError) whenever latest < interval, leaving the job as it
    was; when latest >= interval the interval drawn lies in the inclusive
    range from interval to latest, and the period of the job is that many
    units however the computation ends. *)
Theorem C8_jitter_bound E w self l :
  let j := heap w self in
  to self l w = Returns self (set_job self (set_latest (Some l) j) w)
  /\ isinstance ScheduleError ScheduleValueError = false
  /\ (valid_unit j -> latest j = Some l -> l < interval j ->
      _schedule_next_run E self w = Raises ScheduleError (called self w))
  /\ (valid_unit j -> latest j = Some l -> interval j <= l ->
      exists n w',
        interval j <= n <= l
        /\ final_world (_schedule_next_run E self w) = Some w'
        /\ period (heap w' self) = Some (timedelta_of (unit j) n)).
Proof.
  intros j. split; [reflexivity|]. split; [reflexivity|]. split.
  - intros Hu Hl Hlt. unfold _schedule_next_run.
    unfold bind at 1, record_call at 1. fold (called self w).
    erewrite bind_Raises; [reflexivity|].
    now apply resolve_period_bad_latest with (l := l).
  - intros Hu Hl Hle.
    exists (effective_interval E w j).
    assert (Hn : interval j <= effective_interval E w j <= l).
    { unfold effective_interval. rewrite Hl.
      pose proof (Z.mod_pos_bound (rand E (rand_draws w))
                                  (l - interval j + 1)).
      lia. }
    assert (Hlo : latest_ok (heap (called self w) self))
      by (unfold latest_ok; cbn; fold j; now rewrite Hl).
    pose proof (resolve_period_returns E (called self w) self Hu Hlo) as Hr.
    cbn zeta in Hr.
    pose proof (post_steps_4_7 E self) as H47.
    unfold _schedule_next_run.
    unfold bind at 1, record_call at 1. fold (called self w).
    erewrite bind_Returns by exact Hr.
    match goal with
    | |- context [bind ?m ?k ?w1] =>
        specialize (H47 w1); change (bind m k w1) with ((m ;; k tt) w1)
    end.
    cbv beta in H47.
    match type of H47 with
    | match ?o with _ => _ end =>
        destruct o as [a w'|e w'|]; [| |contradiction];
          exists w'; (split; [exact Hn|]); (split; [reflexivity|]);
          destruct H47 as [_ [HQ _]]; rewrite HQ;
          cbn; unfold set_job; cbn; rewrite upd_same; reflexivity
    end.
Qed.

(** C8 amended, at two instances: every(1).to(5).seconds, and
    every(5).to(3).seconds. *)
Lemma C8_jitter_bound_witness :
  (exists n w',
      1 <= n <= 5
      /\ final_world
           (_schedule_next_run (env_at wednesday_2020_01_01) 0%nat
              (world_with_job job_every_1_to_5_seconds))
         = Some w'
      /\ period (heap w' 0%nat) = Some (n * us_per_second))
  /\ _schedule_next_run (env_at wednesday_2020_01_01) 0%nat
       (world_with_job job_every_5_to_3_seconds)
     = Raises ScheduleError
              (called 0%nat (world_with_job job_every_5_to_3_seconds)).
Proof.
  split.
  - refine (proj2 (proj2 (proj2
              (C8_jitter_bound (env_at wednesday_2020_01_01)
                 (world_with_job job_every_1_to_5_seconds)
                 0%nat 5)))
              eq_refl eq_refl _).
    cbn. lia.
  - refine (proj1 (proj2 (proj2
              (C8_jitter_bound (env_at wednesday_2020_01_01)
                 (world_with_job job_every_5_to_3_seconds)
                 0%nat 3)))
              eq_refl eq_refl _).
    cbn. lia.
Defined.

(** ** The strings [at] accepts *)

Lemma in_range_bounds lo hi c :
  in_range lo hi c = true ->
  Z.of_N (N_of_ascii lo) <= Z.of_N (N_of_ascii c) <= Z.of_N (N_of_ascii hi).
Proof. unfold in_range. rewrite andb_true_iff, !N.leb_le. lia. Qed.

Lemma in_range_05_09 c :
  in_range "0" "5" c = true -> in_range "0" "9" c = true.
Proof.
  intros H. apply in_range_bounds in H. unfold in_range.
  rewrite andb_true_iff, !N.leb_le. cbn in *. lia.
Qed.

Lemma digit_not_colon c :
  in_range "0" "9" c = true -> Ascii.eqb c ":" = false.
Proof.
  intros H.
  destruct (Ascii.eqb_spec c ":"); [subst; discriminate | reflexivity].
Qed.

Lemma digit_val_digit c :
  in_range "0" "9" c = true -> digit_val c = Some (digit_of c).
Proof. intros H. unfold digit_val. now rewrite H. Qed.

Section Digits.

Variables m1 m2 s1 s2 : ascii.
Hypothesis H1 : in_range "0" "5" m1 = true.
Hypothesis H2 : in_range "0" "9" m2 = true.
Hypothesis H3 : in_range "0" "5" s1 = true.
Hypothesis H4 : in_range "0" "9" s2 = true.

Let H1' := in_range_05_09 _ H1.
Let H3' := in_range_05_09 _ H3.
Let C1 := digit_not_colon _ H1'.
Let C2 := digit_not_colon _ H2.
Let C3 := digit_not_colon _ H3'.
Let C4 := digit_not_colon _ H4.
Let D1 := digit_val_digit _ H1'.
Let D2 := digit_val_digit _ H2.
Let D3 := digit_val_digit _ H3'.
Let D4 := digit_val_digit _ H4.

Ltac chars :=
  repeat (progress (cbn -[Ascii.eqb in_range N_of_ascii];
                    rewrite ?H1, ?H2, ?H3, ?H4, ?H1', ?H3',
                      ?C1, ?C2, ?C3, ?C4, ?D1, ?D2, ?D3, ?D4,
                      ?Ascii.eqb_refl)).

Lemma re_hourly_mm_ss : re_match re_hourly (mm_ss m1 m2 s1 s2) = true.
Proof. unfold mm_ss, re_hourly, digit, colon. chars. reflexivity. Qed.

Lemma re_hourly_colon_mm : re_match re_hourly (colon_mm m1 m2) = true.
Proof. unfold colon_mm, re_hourly, digit, colon. chars. reflexivity. Qed.

Lemma split_mm_ss :
  split ":" (mm_ss m1 m2 s1 s2) = [str2 m1 m2; str2 s1 s2].
Proof. unfold mm_ss. chars. reflexivity. Qed.

Lemma split_colon_mm :
  split ":" (colon_mm m1 m2) = [EmptyString; str2 m1 m2].
Proof. unfold colon_mm. chars. reflexivity. Qed.

Lemma int_str2 : int_ (F_str (str2 m1 m2)) = ret (two_digits m1 m2).
Proof. unfold str2, int_, two_digits. chars. reflexivity. Qed.

Lemma two_digits_bound : 0 <= two_digits m1 m2 <= 59.
Proof.
  pose proof (in_range_bounds _ _ _ H1) as B1.
  pose proof (in_range_bounds _ _ _ H2) as B2.
  change (Z.of_N (N_of_ascii "0")) with 48 in B1, B2.
  change (Z.of_N (N_of_ascii "5")) with 53 in B1.
  change (Z.of_N (N_of_ascii "9")) with 57 in B2.
  unfold two_digits, digit_of. lia.
Qed.

End Digits.

Lemma int_F_int n : int_ (F_int n) = ret n.
Proof. reflexivity. Qed.

Lemma int_pure x : (exists n, int_ x = ret n) \/ int_ x = raise ValueError.
Proof.
  destruct x as [s|n]; [|left; eexists; reflexivity].
  unfold int_. destruct s; [right; reflexivity|].
  destruct (int_digits 0 _); [left; eexists|right]; reflexivity.
Qed.

Lemma time_pure h m s :
  time_ h m s = ret (mk_time h m s 0) \/ time_ h m s = raise ValueError.
Proof. unfold time_. destruct (_ && _); auto. Qed.

Lemma time_in_range h m s :
  0 <= h <= 23 -> 0 <= m <= 59 -> 0 <= s <= 59 ->
  time_ h m s = ret (mk_time h m s 0).
Proof.
  intros Hh Hm Hs. unfold time_.
  replace (_ && _) with true; [reflexivity|].
  symmetry. rewrite !andb_true_iff, !Z.leb_le. lia.
Qed.

#[local] Arguments int_ : simpl never.
#[local] Arguments time_ : simpl never.

Ltac pure_step :=
  match goal with
  | |- context [int_ (F_str ?x0)] =>
      let n := fresh "n" in
      let H := fresh "H" in
      destruct (int_pure (F_str x0)) as [[n H] | H]; rewrite H; clear H
  | |- context [time_ ?h ?m ?s] =>
      let H := fresh "H" in
      destruct (time_pure h m s) as [H | H]; rewrite H; clear H
  end.

Ltac enter_at Hu Ht :=
  unfold at_; unfold bind at 1, getattr at 1; rewrite Hu, Ht;
  cbn [str_in str_is String.eqb Ascii.eqb Bool.eqb orb andb negb raise_if].

Lemma at_hours_hour_0 w self s w' r :
  truthy (start_day (heap w self)) = false ->
  unit (heap w self) = Some "hours" ->
  at_ self s w = Returns r w' ->
  exists t, at_time (heap w' self) = Some t /\ t_hour t = 0.
Proof.
  intros Ht Hu. enter_at Hu Ht.
  destruct (re_match re_hourly s); [|discriminate]. cbn [negb].
  destruct (split ":" s) as [|a [|b [|c [|d l]]]]; try discriminate;
    try destruct (String.eqb a EmptyString); exec;
    rewrite ?int_F_int; exec; repeat (pure_step; exec); try discriminate;
    intros H; inversion H; subst; eexists; (split; [exec; reflexivity|]);
    reflexivity.
Qed.

Lemma at_minutes_hour_minute_0 w self s w' r :
  truthy (start_day (heap w self)) = false ->
  unit (heap w self) = Some "minutes" ->
  at_ self s w = Returns r w' ->
  exists t, at_time (heap w' self) = Some t
            /\ t_hour t = 0 /\ t_minute t = 0.
Proof.
  intros Ht Hu. enter_at Hu Ht.
  destruct (re_match re_minutely s); [|discriminate]. cbn [negb].
  destruct (split ":" s) as [|a [|b [|c [|d l]]]]; try discriminate;
    exec; rewrite ?int_F_int; exec; repeat (pure_step; exec);
    try discriminate;
    intros H; inversion H; subst; eexists; (split; [exec; reflexivity|]);
    split; reflexivity.
Qed.

Lemma at_hours_mm_ss w self m1 m2 s1 s2 :
  truthy (start_day (heap w self)) = false ->
  unit (heap w self) = Some "hours" ->
  in_range "0" "5" m1 = true -> in_range "0" "9" m2 = true ->
  in_range "0" "5" s1 = true -> in_range "0" "9" s2 = true ->
  at_ self (mm_ss m1 m2 s1 s2) w
  = Returns self
      (set_job self
         (set_at_time
            (Some (mk_time 0 (two_digits m1 m2) (two_digits s1 s2) 0))
            (heap w self)) w).
Proof.
  intros Ht Hu H1 H2 H3 H4. enter_at Hu Ht.
  rewrite re_hourly_mm_ss, split_mm_ss by assumption.
  cbn [negb str2 String.eqb]. exec.
  rewrite int_F_int, !int_str2 by assumption. exec.
  pose proof (two_digits_bound _ _ H1 H2).
  pose proof (two_digits_bound _ _ H3 H4).
  rewrite time_in_range by lia. reflexivity.
Qed.

Lemma at_hours_colon_mm w self m1 m2 :
  truthy (start_day (heap w self)) = false ->
  unit (heap w self) = Some "hours" ->
  in_range "0" "5" m1 = true -> in_range "0" "9" m2 = true ->
  at_ self (colon_mm m1 m2) w
  = Returns self
      (set_job self
         (set_at_time (Some (mk_time 0 (two_digits m1 m2) 0 0))
                      (heap w self)) w).
Proof.
  intros Ht Hu H1 H2. enter_at Hu Ht.
  rewrite re_hourly_colon_mm, split_colon_mm by assumption.
  cbn [negb str2 String.eqb]. exec.
  rewrite !int_F_int, !int_str2 by assumption. exec.
  pose proof (two_digits_bound _ _ H1 H2).
  rewrite time_in_range by lia. reflexivity.
Qed.

(** C9, as stated, fails.  On an hourly job at(:30) stores minute 30 and
    second 0, not minute 0 and second 30. *)
Lemma C9_counterexample :
  returns_with (every_hour_at ":30" initial_world)
    (fun j w' =>
       unit (heap w' j) = Some "hours"
       /\ at_time (heap w' j) = Some (mk_time 0 30 0 0)
       /\ at_time (heap w' j) <> Some (mk_time 0 0 30 0)).
Proof.
  eexists _, _. split; [vm_compute; reflexivity|].
  repeat split. vm_compute. discriminate.
Qed.

(** C9, amended.  For a job with unit hours and no anchor weekday, [at]
    accepts MM:SS and :MM, MM from 00 to 59 and SS from 00 to 59: the
    field after the colon of the short form is the minute, not the second.
    at(MM:SS) stores hour 0, minute MM, second SS, and at(:MM) stores hour
    0, minute MM, second 0.  Whatever string it accepts, the stored hour
    of an hourly job is 0, and so are the stored hour and minute of a job
    with unit minutes. *)
Theorem C9_at_hours w self :
  let j := heap w self in
  truthy (start_day j) = false ->
  (unit j = Some "hours" ->
   (forall m1 m2 s1 s2,
       in_range "0" "5" m1 = true -> in_range "0" "9" m2 = true ->
       in_range "0" "5" s1 = true -> in_range "0" "9" s2 = true ->
       at_ self (mm_ss m1 m2 s1 s2) w
       = Returns self
           (set_job self
              (set_at_time
                 (Some (mk_time 0 (two_digits m1 m2) (two_digits s1 s2) 0))
                 j) w))
   /\ (forall m1 m2,
          in_range "0" "5" m1 = true -> in_range "0" "9" m2 = true ->
          at_ self (colon_mm m1 m2) w
          = Returns self
              (set_job self
                 (set_at_time (Some (mk_time 0 (two_digits m1 m2) 0 0)) j)
                 w))
   /\ (forall s r w',
          at_ self s w = Returns r w' ->
          exists t, at_time (heap w' self) = Some t /\ t_hour t = 0))
  /\ (unit j = Some "minutes" ->
      forall s r w',
        at_ self s w = Returns r w' ->
        exists t, at_time (heap w' self) = Some t
                  /\ t_hour t = 0 /\ t_minute t = 0).
Proof.
  intros j Ht. split.
  - intros Hu. split; [|split].
    + intros. now apply at_hours_mm_ss.
    + intros. now apply at_hours_colon_mm.
    + intros s r w' H. eapply at_hours_hour_0; eassumption.
  - intros Hu s r w' H. eapply at_minutes_hour_minute_0; eassumption.
Qed.

(** C9 amended, at four instances: every().hour.at(15:45) and
    every().hour.at(:45); the stored hour after every().hour.at(59:59) and
    the stored hour and minute after every().minute.at(:59). *)
Lemma C9_at_hours_witness :
  at_ 0%nat "15:45" (world_with_job job_every_hour)
  = Returns 0%nat
      (set_job 0%nat
         (set_at_time (Some (mk_time 0 15 45 0)) job_every_hour)
         (world_with_job job_every_hour))
  /\ at_ 0%nat ":45" (world_with_job job_every_hour)
     = Returns 0%nat
         (set_job 0%nat
            (set_at_time (Some (mk_time 0 45 0 0)) job_every_hour)
            (world_with_job job_every_hour))
  /\ (exists t,
         option_map (fun w' => at_time (heap w' 0%nat))
           (final_world (at_ 0%nat "59:59" (world_with_job job_every_hour)))
         = Some (Some t)
         /\ t_hour t = 0)
  /\ (exists t,
         option_map (fun w' => at_time (heap w' 0%nat))
           (final_world
              (at_ 0%nat ":59" (world_with_job job_every_minute)))
         = Some (Some t)
         /\ t_hour t = 0 /\ t_minute t = 0).
Proof.
  pose proof (C9_at_hours (world_with_job job_every_hour) 0%nat eq_refl)
    as [Hh _].
  pose proof (C9_at_hours (world_with_job job_every_minute) 0%nat eq_refl)
    as [_ Hm].
  destruct (Hh eq_refl) as (H1 & H2 & H3).
  split; [|split; [|split]].
  - exact (H1 "1" "5" "4" "5" eq_refl eq_refl eq_refl eq_refl)%char.
  - exact (H2 "4" "5" eq_refl eq_refl)%char.
  - eassert (Hr : at_ 0%nat "59:59" (world_with_job job_every_hour)
                  = Returns _ _) by (vm_compute; reflexivity).
    destruct (H3 _ _ _ Hr) as (t & Ht & H0).
    exists t. rewrite Hr. cbn [final_world option_map].
    rewrite Ht. split; [reflexivity | exact H0].
  - eassert (Hr : at_ 0%nat ":59" (world_with_job job_every_minute)
                  = Returns _ _) by (vm_compute; reflexivity).
    destruct (Hm eq_refl _ _ _ Hr) as (t & Ht & H0).
    exists t. rewrite Hr. cbn [final_world option_map].
    rewrite Ht. split; [reflexivity | exact H0].
Defined.

(** ** Running a job *)

Lemma run_overdue E w self d :
  cancel_after (heap w self) = Some d ->
  clock E (clock_reads w) > d ->
  run E self w
  = Returns Ret_CancelJob (with_clock_reads (S (clock_reads w)) w).
Proof.
  intros Hd Hgt. unfold run, _is_overdue. exec. rewrite Hd.
  assert (H : (clock E (clock_reads w) >? d) = true)
    by (apply Z.gtb_lt; lia).
  rewrite H. reflexivity.
Qed.

Lemma run_started E w self name f a k :
  let j := heap w self in
  match cancel_after j with
  | Some d => clock E (clock_reads w) <= d
  | None => True
  end ->
  job_func_name j = Some name -> registry E name = Some f ->
  args j = Some a -> kwargs j = Some k ->
  scheduler j = Some default_scheduler ->
  run E self w = run_rest E self (next_task w) (started E self f w).
Proof.
  intros j Hd Hn Hf Ha Hk Hs. subst j.
  unfold run, run_rest, started, _is_overdue, create_task, tasks_append.
  unfold bind at 1, now at 1. unfold bind at 1, bind at 1, getattr at 1.
  cbn [heap with_clock_reads].
  assert (Hov : match cancel_after (heap w self) with
                | Some ca => clock E (clock_reads w) >? ca
                | None => false
                end = false).
  { destruct (cancel_after (heap w self)); [|reflexivity].
    rewrite Z.gtb_ltb. apply Z.ltb_ge. lia. }
  unfold ret at 1. rewrite Hov.
  unfold bind at 1, getattr at 1. cbn [heap with_clock_reads].
  rewrite Hn. unfold bind at 1, the at 1, ret at 1.
  rewrite Hf. unfold bind at 1, ret at 1.
  rewrite Ha. unfold bind at 1, the at 1, ret at 1.
  rewrite Hk. unfold bind at 1, the at 1, ret at 1.
  rewrite Hs.
  unfold bind at 1, setattr at 1.
  unfold bind at 1, record_call at 1.
  unfold bind at 1. unfold bind at 1.
  unfold bind at 1, now at 1.
  unfold bind at 1, setattr at 1.
  cbn. unfold set_job, upd. cbn. rewrite !Nat.eqb_refl.
  reflexivity.
Qed.

Lemma dispatched_app cs cs' :
  dispatched (cs ++ cs') = dispatched cs ++ dispatched cs'.
Proof.
  induction cs as [|[r|r|r] cs IH]; cbn; rewrite ?IH; reflexivity.
Qed.

Lemma invoked_app cs cs' : invoked (cs ++ cs') = invoked cs ++ invoked cs'.
Proof.
  induction cs as [|[r|r|r] cs IH]; cbn; rewrite ?IH; reflexivity.
Qed.


(** What [_schedule_next_run] leaves as it was, however it ends. *)
Lemma schedule_next_run_keeps E self w w' :
  final_world (_schedule_next_run E self w) = Some w' ->
  cancel_after (heap w' self) = cancel_after (heap w self)
  /\ last_run (heap w' self) = last_run (heap w self)
  /\ jobs w' = jobs w /\ tasks w' = tasks w
  /\ task_table w' = task_table w /\ next_task w' = next_task w
  /\ calls w' = calls w ++ [Call_schedule_next_run self]
  /\ forall r, r <> self -> heap w' r = heap w r.
Proof.
  intros H. pose proof (schedule_next_run_post E self w) as P.
  assert (S : job_step same_but_schedule self (called self w) w').
  { destruct (_schedule_next_run E self w); cbn in H;
      [injection H as <- | injection H as <- | discriminate]; exact P. }
  destruct S as [(F1 & F2 & F3 & F4 & F5 & F6 & F7) Q].
  unfold same_but_schedule in Q. cbn in *.
  repeat split; auto; rewrite Q; reflexivity.
Qed.

Lemma run_rest_returns E self task w2 w3 nr :
  _schedule_next_run E self w2 = Returns tt w3 ->
  next_run (heap w3 self) = Some nr ->
  run_rest E self task w2
  = Returns (if match cancel_after (heap w2 self) with
                | Some d => nr >? d
                | None => false
                end
             then Ret_CancelJob else Ret_task task) w3.
Proof.
  intros Hr Hn. unfold run_rest.
  erewrite bind_Returns by exact Hr.
  assert (Hk : final_world (_schedule_next_run E self w2) = Some w3)
    by now rewrite Hr.
  apply schedule_next_run_keeps in Hk. destruct Hk as (Hc & _).
  unfold bind, getattr, the, _is_overdue, ret. rewrite Hn. cbn.
  rewrite Hc. destruct (cancel_after (heap w2 self)); [|reflexivity].
  destruct (nr >? _); reflexivity.
Qed.

Lemma started_facts E self f w :
  let w2 := started E self f w in
  invoked (calls w2) = invoked (calls w) ++ [self]
  /\ dispatched (calls w2) = dispatched (calls w)
  /\ tasks w2 = tasks w ++ [next_task w]
  /\ task_table w2 (next_task w) = mkTask self f false
  /\ next_task w2 = S (next_task w)
  /\ (forall t, t <> next_task w -> task_table w2 t = task_table w t)
  /\ jobs w2 = jobs w
  /\ last_run (heap w2 self) = Some (clock E (S (clock_reads w)))
  /\ cancel_after (heap w2 self) = cancel_after (heap w self)
  /\ forall r, r <> self -> heap w2 r = heap w r.
Proof.
  unfold started, set_job. cbn.
  rewrite invoked_app, dispatched_app, !upd_same. cbn.
  rewrite app_nil_r.
  repeat split.
  - intros t Ht. now apply upd_other.
  - intros r Hr. now rewrite !upd_other.
Qed.

(** C6.  A job with a deadline.  If the deadline has passed when the job is
    dispatched, [run] returns CancelJob and nothing else happens: the job
    function is not called and no task is created.  Otherwise the job
    function is called, whatever it is, its task is appended, [lastRun] is
    set to the reading of the clock that follows, [nextRun] is recomputed,
    and [run] returns CancelJob exactly when the new [nextRun] is after
    the deadline; [_run_job] then removes the job.  every(10).seconds with
    until(3 seconds from now), run at once: the job function is called
    once and the job is cancelled. *)
Theorem C6_deadline :
  (forall E w self d,
      let j := heap w self in
      let now_ := clock E (clock_reads w) in
      cancel_after j = Some d ->
      (now_ > d ->
       run E self w
       = Returns Ret_CancelJob (with_clock_reads (S (clock_reads w)) w))
      /\ (now_ <= d ->
          forall name f a k,
            job_func_name j = Some name -> registry E name = Some f ->
            args j = Some a -> kwargs j = Some k ->
            scheduler j = Some default_scheduler ->
            let w2 := started E self f w in
            invoked (calls w2) = invoked (calls w) ++ [self]
            /\ tasks w2 = tasks w ++ [next_task w]
            /\ task_table w2 (next_task w) = mkTask self f false
            /\ last_run (heap w2 self) = Some (clock E (S (clock_reads w)))
            /\ (forall w3 nr,
                   _schedule_next_run E self w2 = Returns tt w3 ->
                   next_run (heap w3 self) = Some nr ->
                   run E self w
                   = Returns (if nr >? d then Ret_CancelJob
                              else Ret_task (next_task w)) w3
                   /\ invoked (calls w3) = invoked (calls w) ++ [self])
            /\ (forall e w3,
                   _schedule_next_run E self w2 = Raises e w3 ->
                   run E self w = Raises e w3))
      /\ (forall w3,
             run E self (dispatching self w) = Returns Ret_CancelJob w3 ->
             _run_job E self w
             = Returns tt (with_jobs (remove_first self (jobs w3)) w3)))
  /\ returns_with
       ((j <- every_10_seconds_until_3 (env_at wednesday_2020_01_01) ;;
         _run_job (env_at wednesday_2020_01_01) j) initial_world)
       (fun _ w' => invoked (calls w') = [0%nat] /\ jobs w' = []
                    /\ tasks w' = [0%nat]).
Proof.
  split.
  - intros E w self d j now_ Hd. split; [|split].
    + intros Hgt. now apply run_overdue with (d := d).
    + intros Hle name f a k Hn Hf Ha Hk Hs w2.
      destruct (started_facts E self f w)
        as (S1 & _ & S3 & S4 & _ & _ & _ & S8 & S9 & _).
      fold w2 in S1, S3, S4, S8, S9.
      repeat (split; [assumption|]).
      assert (Hrun : run E self w = run_rest E self (next_task w) w2).
      { eapply run_started; try eassumption. fold j. now rewrite Hd. }
      split.
      * intros w3 nr Hr Hnr. split.
        -- rewrite Hrun. erewrite run_rest_returns by eassumption.
           rewrite S9. fold j. rewrite Hd. reflexivity.
        -- assert (Hk3 : final_world (_schedule_next_run E self w2)
                         = Some w3) by now rewrite Hr.
           apply schedule_next_run_keeps in Hk3.
           destruct Hk3 as (_ & _ & _ & _ & _ & _ & Hc & _).
           rewrite Hc, invoked_app, S1. cbn. now rewrite app_nil_r.
      * intros e w3 Hr. rewrite Hrun. unfold run_rest.
        now erewrite bind_Raises by exact Hr.
    + intros w3 Hr. unfold _run_job.
      unfold bind at 1, record_call at 1. fold (dispatching self w).
      erewrite bind_Returns by exact Hr. reflexivity.
  - eexists _, _. split; [vm_compute; reflexivity|].
    repeat split.
Qed.


(** C6, at an instance: the first [run] of the job bound with a deadline
    three seconds ahead and an interval of ten seconds. *)
Lemma C6_deadline_witness :
  exists w3,
    run (env_at wednesday_2020_01_01) 0%nat world_10_seconds_until_3
    = Returns Ret_CancelJob w3
    /\ invoked (calls w3) = [0%nat].
Proof.
  destruct (proj1 C6_deadline (env_at wednesday_2020_01_01)
                  world_10_seconds_until_3 0%nat
                  (wednesday_2020_01_01 + hms 0 0 3) eq_refl)
    as (_ & Hb & _).
  assert (Hle : clock (env_at wednesday_2020_01_01)
                      (clock_reads world_10_seconds_until_3)
                <= wednesday_2020_01_01 + hms 0 0 3)
    by (vm_compute; discriminate).
  destruct (Hb Hle "job" (Finishes VNone) [] []
               eq_refl eq_refl eq_refl eq_refl eq_refl)
    as (_ & _ & _ & _ & Hrun & _).
  eassert (Hs : _schedule_next_run (env_at wednesday_2020_01_01) 0%nat
                  (started (env_at wednesday_2020_01_01) 0%nat
                           (Finishes VNone) world_10_seconds_until_3)
                = Returns tt _) by (vm_compute; reflexivity).
  destruct (Hrun _ _ Hs eq_refl) as [H1 H2].
  eexists. split; [exact H1 | exact H2].
Defined.





(** C1 fails on the code.  A registered job whose function returns
    CancelJob is polled ten seconds after it fell due: the tick dispatches
    it, calls its function and waits for the task, which finishes with
    CancelJob; [run] has returned the task, not that result, and the job
    is still registered, rescheduled ten seconds on. *)
Theorem C1_cancel_result_ignored :
  registry (env_at (wednesday_2020_01_01 + hms 0 0 10)) "cancelling_job"
  = Some (Finishes VCancelJob)
  /\ returns_with
       (run_pending (env_at (wednesday_2020_01_01 + hms 0 0 10))
                    world_of_job_that_cancels_itself)
       (fun _ w' =>
          dispatched (calls w') = [0%nat]
          /\ invoked (calls w') = [0%nat]
          /\ task_table w' 0%nat = mkTask 0%nat (Finishes VCancelJob) true
          /\ jobs w' = [0%nat]
          /\ next_run (heap w' 0%nat)
             = Some (wednesday_2020_01_01 + hms 0 0 20 + 2)).
Proof.
  split; [reflexivity|].
  eexists _, _. split; [vm_compute; reflexivity|].
  repeat split.
Qed.

(** ** Restoring records *)

Lemma base_instant_some E self w w1 :
  base_instant E self w = Returns tt w1 -> next_run (heap w1 self) <> None.
Proof.
  unfold base_instant. exec.
  destruct (period (heap w self)); [|discriminate].
  destruct (last_run (heap w self)); exec.
  - intros H. injection H as <-. exec. discriminate.
  - destruct (next_run (heap w self)) eqn:Hn; exec.
    + intros H. injection H as <-. congruence.
    + intros H. injection H as <-. exec. discriminate.
Qed.

Lemma post_steps_5_7 E self :
  post (weekday_anchor self ;; at_time_align E self ;; double_check E self)
       (job_step same_but_next_run self).
Proof.
  pose proof (@job_step_refl _ self same_but_next_run_refl) as R.
  pose proof (@job_step_trans _ self same_but_next_run_trans) as T.
  unfold weekday_anchor, at_time_align, catch_up, double_check.
  repeat (post_step R T; auto using same_but_next_run_refl).
Qed.

(** A next-run computation that returns has set [next_run]. *)
Lemma schedule_next_run_some E self w w' :
  _schedule_next_run E self w = Returns tt w' ->
  next_run (heap w' self) <> None.
Proof.
  unfold _schedule_next_run.
  unfold bind at 1, record_call at 1. fold (called self w).
  unfold bind at 1.
  destruct (resolve_period E self (called self w)) as [p w1|e w1|];
    [|discriminate|discriminate].
  unfold bind at 1.
  destruct (base_instant E self w1) as [[] w2|e w2|] eqn:Hb;
    [|discriminate|discriminate].
  apply base_instant_some in Hb.
  pose proof (post_steps_5_7 E self w2) as P. intros H.
  rewrite H in P. destruct P as [_ [_ S]]. auto.
Qed.


Lemma from_json_record_loaded E d w w1 :
  load_fields d w = Returns (next_ref w) w1 ->
  from_json_record E d w
  = (nr <- getattr (next_ref w) next_run ;;
     (if is_None nr
      then try_except_pass (_schedule_next_run E (next_ref w))
      else ret tt) ;;
     nr <- getattr (next_ref w) next_run ;;
     if negb (is_None nr) then jobs_append (next_ref w) else ret tt) w1.
Proof.
  intros H. unfold from_json_record. now erewrite bind_Returns by exact H.
Qed.



(** The record has no next_run and describes a daily job with an anchor
    weekday: the computation assigns the base instant and then raises,
    the exception is swallowed, and the job is registered all the same. *)
Lemma restore_keeps_job_when_anchor_step_fails :
  (exists w2,
      _schedule_next_run (env_at wednesday_2020_01_01) 0%nat
        (set_job 0%nat (restored record_of_daily_job_with_anchor)
                 initial_world)
      = Raises ScheduleValueError w2)
  /\ returns_with
       (from_json (env_at wednesday_2020_01_01)
                  [record_of_daily_job_with_anchor] initial_world)
       (fun js w' => js = [0%nat]).
Proof.
  split.
  - eexists. vm_compute. reflexivity.
  - eexists _, _. split; [vm_compute; reflexivity|]. reflexivity.
Qed.



(** ** The polling tick *)





















(** * Further properties of the module *)

(** ** The job list *)

Lemma with_jobs_same w : with_jobs (jobs w) w = w.
Proof. destruct w. reflexivity. Qed.

Lemma remove_first_absent x l : ~ In x l -> remove_first x l = l.
Proof.
  induction l as [|y l IH]; cbn; [reflexivity|].
  intros H. destruct (Nat.eqb_spec y x); [subst; tauto|].
  rewrite IH; tauto.
Qed.

Lemma remove_first_present x l :
  In x l ->
  exists l1 l2, l = l1 ++ x :: l2 /\ ~ In x l1
                /\ remove_first x l = l1 ++ l2.
Proof.
  induction l as [|y l IH]; cbn; [tauto|].
  intros H. destruct (Nat.eqb_spec y x) as [->|Hne].
  - exists [], l. auto.
  - destruct H as [H|H]; [congruence|].
    destruct (IH H) as (l1 & l2 & -> & Hn & ->).
    exists (y :: l1), l2. cbn. repeat split; auto.
    intros [E|E]; [congruence | tauto].
Qed.

(** X1.  [cancel_job] always returns, and touches nothing but the job
    list: the job objects and the tasks are as they were, so a task of the
    cancelled job that is still pending stays outstanding.  Cancelling a
    job that is not registered changes nothing at all; cancelling a
    registered job removes its first occurrence in the list and leaves the
    other entries in their order, so that a job registered twice stays
    registered once. *)
Theorem X1_cancel_job job w :
  exists w',
    cancel_job job w = Returns tt w'
    /\ heap w' = heap w /\ tasks w' = tasks w
    /\ task_table w' = task_table w
    /\ (~ In job (jobs w) -> w' = w)
    /\ (In job (jobs w) ->
        exists l1 l2,
          jobs w = l1 ++ job :: l2 /\ ~ In job l1 /\ jobs w' = l1 ++ l2).
Proof.
  eexists. split; [reflexivity|]. cbn.
  repeat split.
  - intros H. rewrite remove_first_absent by exact H. apply with_jobs_same.
  - intros H. destruct (remove_first_present _ _ H) as (l1 & l2 & A & B & C).
    exists l1, l2. auto.
Qed.

(** X1, at two instances: of the three jobs the second is cancelled; a
    job that is not registered is cancelled. *)
Lemma X1_cancel_job_witness :
  (exists w' l1 l2,
      cancel_job 1%nat world_of_three_jobs = Returns tt w'
      /\ jobs world_of_three_jobs = l1 ++ 1%nat :: l2 /\ ~ In 1%nat l1
      /\ jobs w' = l1 ++ l2)
  /\ cancel_job 7%nat world_of_three_jobs = Returns tt world_of_three_jobs.
Proof.
  split.
  - destruct (X1_cancel_job 1%nat world_of_three_jobs)
      as (w' & Hr & _ & _ & _ & _ & Hin).
    destruct Hin as (l1 & l2 & A & B & C); [cbn; auto|].
    exists w', l1, l2. auto.
  - destruct (X1_cancel_job 7%nat world_of_three_jobs)
      as (w' & Hr & _ & _ & _ & Hout & _).
    rewrite Hr. f_equal. apply Hout. cbn.
    intros [H|[H|[H|[]]]]; discriminate.
Defined.

Lemma lt_returns w a b x y :
  next_run (heap w a) = Some x -> next_run (heap w b) = Some y ->
  __lt__ a b w = Returns (x <? y) w.
Proof. intros Ha Hb. unfold __lt__. exec. now rewrite Ha, Hb. Qed.

Lemma lt_raises w a b :
  next_run (heap w a) = None \/ next_run (heap w b) = None ->
  __lt__ a b w = Raises TypeError w.
Proof.
  intros H. unfold __lt__. exec.
  destruct (next_run (heap w a)), (next_run (heap w b)), H;
    try discriminate; reflexivity.
Qed.

Lemma min_from_returns w l : forall best b,
  next_run (heap w best) = Some b ->
  Forall (fun r => next_run (heap w r) <> None) l ->
  exists r m,
    min_from best l w = Returns r w
    /\ In r (best :: l) /\ next_run (heap w r) = Some m /\ m <= b
    /\ forall r' n, In r' l -> next_run (heap w r') = Some n -> m <= n.
Proof.
  induction l as [|item l IH]; intros best b Hb HF.
  - exists best, b. cbn. repeat split; auto; try lia.
  - inversion HF as [|? ? Hi HF']; subst.
    destruct (next_run (heap w item)) as [x|] eqn:Hx; [|congruence].
    cbn [min_from]. unfold bind at 1.
    rewrite (@lt_returns _ _ _ _ _ Hx Hb).
    destruct (x <? b) eqn:Hlt.
    + apply Z.ltb_lt in Hlt.
      destruct (IH item x Hx HF') as (r & m & Hr & Hin & Hm & Hle & Hall).
      exists r, m. split; [exact Hr|]. split.
      { destruct Hin as [<-|Hin]; cbn; auto. }
      split; [exact Hm|]. split; [lia|].
      intros r' n [<-|Hin'] Hn; [|eauto].
      rewrite Hx in Hn. injection Hn as <-. exact Hle.
    + apply Z.ltb_ge in Hlt.
      destruct (IH best b Hb HF') as (r & m & Hr & Hin & Hm & Hle & Hall).
      exists r, m. split; [exact Hr|]. split.
      { destruct Hin as [<-|Hin]; cbn; auto. }
      split; [exact Hm|]. split; [lia|].
      intros r' n [<-|Hin'] Hn; [|eauto].
      rewrite Hx in Hn. injection Hn as <-. lia.
Qed.

Lemma min_from_raises w l : forall best,
  l <> [] ->
  next_run (heap w best) = None
  \/ Exists (fun r => next_run (heap w r) = None) l ->
  min_from best l w = Raises TypeError w.
Proof.
  induction l as [|item l IH]; intros best Hne H; [congruence|].
  cbn [min_from]. unfold bind at 1.
  destruct (next_run (heap w best)) as [b|] eqn:Hb;
    [|now rewrite lt_raises by auto].
  destruct (next_run (heap w item)) as [x|] eqn:Hx;
    [|now rewrite lt_raises by auto].
  rewrite (@lt_returns _ _ _ _ _ Hx Hb).
  destruct H as [H|H]; [discriminate|].
  inversion H as [? ? H0|? ? H0]; subst; [congruence|].
  apply IH.
  - intros ->. inversion H0.
  - right. exact H0.
Qed.

Lemma get_next_run_cons w r l :
  jobs w = r :: l ->
  get_next_run w = (j <- min_from r l ;; getattr j next_run) w.
Proof.
  intros H. unfold get_next_run, get_jobs, bind at 1. rewrite H.
  unfold bind at 1. rewrite H. reflexivity.
Qed.

Lemma get_next_run_earliest w :
  all_scheduled w -> jobs w <> [] ->
  exists r m,
    get_next_run w = Returns (Some m) w
    /\ In r (jobs w) /\ next_run (heap w r) = Some m
    /\ forall r' n, In r' (jobs w) ->
                    next_run (heap w r') = Some n -> m <= n.
Proof.
  unfold all_scheduled. intros HF Hne.
  destruct (jobs w) as [|a l] eqn:Hj; [congruence|].
  inversion HF as [|? ? Ha HF']; subst.
  destruct (next_run (heap w a)) as [x|] eqn:Hx; [|congruence].
  destruct (@min_from_returns _ _ _ _ Hx HF')
    as (r & m & Hr & Hin & Hm & Hle & Hall).
  exists r, m. rewrite (@get_next_run_cons _ _ _ Hj).
  unfold bind. rewrite Hr. unfold getattr. rewrite Hm.
  repeat split; auto.
  intros r' n [<-|Hin'] Hn; [|eauto]. rewrite Hx in Hn.
  injection Hn as <-. exact Hle.
Qed.

(** X2.  [get_next_run], the property [next_run] of the scheduler,
    changes nothing.  With no job registered it returns [None]; with one
    job it returns the [next_run] of that job, set or not; when every
    registered job has a [next_run] it returns the earliest of them, which
    is the [next_run] of a registered job and is not after that of any
    other; and with two jobs or more of which one has no [next_run], the
    comparison made by [min] raises TypeError. *)
Theorem X2_get_next_run w :
  (jobs w = [] -> get_next_run w = Returns None w)
  /\ (forall r, jobs w = [r] ->
                get_next_run w = Returns (next_run (heap w r)) w)
  /\ (all_scheduled w -> jobs w <> [] ->
      exists r m,
        get_next_run w = Returns (Some m) w
        /\ In r (jobs w) /\ next_run (heap w r) = Some m
        /\ forall r' n, In r' (jobs w) ->
                        next_run (heap w r') = Some n -> m <= n)
  /\ (~ all_scheduled w -> (2 <= List.length (jobs w))%nat ->
      get_next_run w = Raises TypeError w).
Proof.
  split; [|split; [|split]].
  - intros H. unfold get_next_run, get_jobs, bind. now rewrite H.
  - intros r H. rewrite (@get_next_run_cons _ _ _ H). reflexivity.
  - apply get_next_run_earliest.
  - unfold all_scheduled. intros HF Hlen.
    destruct (jobs w) as [|a [|b l]] eqn:Hj; cbn in Hlen; try lia.
    rewrite (@get_next_run_cons _ _ _ Hj).
    unfold bind. rewrite min_from_raises; [reflexivity|discriminate|].
    destruct (next_run (heap w a)) as [x|] eqn:Hx; [|auto]. right.
    apply Exists_exists.
    apply neg_Forall_Exists_neg in HF.
    + apply Exists_exists in HF. destruct HF as (r & [<-|Hin] & Hr).
      * exfalso. apply Hr. congruence.
      * exists r. split; [exact Hin|].
        destruct (next_run (heap w r)); [exfalso; apply Hr; discriminate
                                        | reflexivity].
    + intros r. destruct (next_run (heap w r)); [left; discriminate|].
      right. auto.
Qed.

Lemma world_of_three_jobs_ok : scheduled_ok world_of_three_jobs.
Proof.
  repeat (constructor; [split; [cbn; lia | cbn; discriminate]|]).
  constructor.
Qed.

Lemma world_of_three_jobs_all : all_scheduled world_of_three_jobs.
Proof. repeat (constructor; [cbn; discriminate|]). constructor. Qed.

(** X2, at two instances: no job; the three jobs, of which the second is
    the earliest. *)
Lemma X2_get_next_run_witness :
  get_next_run initial_world = Returns None initial_world
  /\ get_next_run world_of_three_jobs
     = Returns (Some (wednesday_2020_01_01 + hms 0 0 2)) world_of_three_jobs
  /\ exists r m,
      get_next_run world_of_three_jobs
      = Returns (Some m) world_of_three_jobs
      /\ In r (jobs world_of_three_jobs)
      /\ next_run (heap world_of_three_jobs r) = Some m
      /\ forall r' n, In r' (jobs world_of_three_jobs) ->
                      next_run (heap world_of_three_jobs r') = Some n ->
                      m <= n.
Proof.
  split; [|split].
  - exact (proj1 (X2_get_next_run initial_world) eq_refl).
  - vm_compute. reflexivity.
  - apply (proj1 (proj2 (proj2 (X2_get_next_run world_of_three_jobs)))).
    + exact world_of_three_jobs_all.
    + discriminate.
Defined.

(** X3.  [idle_seconds]: with no job registered it returns [None] and
    does not read the clock.  When every registered job has a [next_run],
    it reads the clock once and returns the earliest [next_run] minus that
    reading, changing nothing else; the result is zero or negative exactly
    when some registered job is due at that reading, that is when a tick
    made at that instant would have a job to run. *)
Theorem X3_idle_seconds E w :
  (jobs w = [] -> idle_seconds E w = Returns None w)
  /\ (all_scheduled w -> jobs w <> [] ->
      let t := clock E (clock_reads w) in
      exists m,
        get_next_run w = Returns (Some m) w
        /\ idle_seconds E w
           = Returns (Some (m - t)) (with_clock_reads (S (clock_reads w)) w)
        /\ (m - t <= 0 <-> exists r, In r (jobs w) /\ due_at w t r = true)).
Proof.
  split.
  - intros H. unfold idle_seconds, get_next_run, get_jobs, bind.
    now rewrite H.
  - intros HF Hne t.
    destruct (@get_next_run_earliest _ HF Hne)
      as (r & m & Hr & Hin & Hm & Hall).
    exists m. split; [exact Hr|]. split.
    + unfold idle_seconds. unfold bind at 1. rewrite Hr.
      unfold bind at 1. rewrite Hr. reflexivity.
    + split.
      * intros Hle. exists r. split; [exact Hin|].
        unfold due_at. rewrite Hm. apply Z.leb_le. lia.
      * intros (r' & Hin' & Hd). unfold due_at in Hd.
        destruct (next_run (heap w r')) as [n|] eqn:Hn; [|discriminate].
        apply Z.leb_le in Hd. specialize (Hall _ _ Hin' Hn). lia.
Qed.

(** X3, at an instance: the three jobs, ten seconds after midnight; the
    earliest job is eight seconds overdue. *)
Lemma X3_idle_seconds_witness :
  let E := env_frozen (wednesday_2020_01_01 + hms 0 0 10) in
  let t := clock E (clock_reads world_of_three_jobs) in
  idle_seconds E world_of_three_jobs
  = Returns (Some (- hms 0 0 8))
            (with_clock_reads 1%nat world_of_three_jobs)
  /\ exists m,
      get_next_run world_of_three_jobs
      = Returns (Some m) world_of_three_jobs
      /\ idle_seconds E world_of_three_jobs
         = Returns (Some (m - t))
                   (with_clock_reads
                      (S (clock_reads world_of_three_jobs))
                      world_of_three_jobs)
      /\ (m - t <= 0 <->
          exists r, In r (jobs world_of_three_jobs)
                    /\ due_at world_of_three_jobs t r = true).
Proof.
  split.
  - vm_compute. reflexivity.
  - apply (proj2 (X3_idle_seconds
                    (env_frozen (wednesday_2020_01_01 + hms 0 0 10))
                    world_of_three_jobs)).
    + exact world_of_three_jobs_all.
    + discriminate.
Defined.

(** ** The invariant of the job list *)

Lemma keeps_schedule_refl w : keeps_schedule w w.
Proof. unfold keeps_schedule. auto. Qed.

Lemma keeps_schedule_trans w1 w2 w3 :
  keeps_schedule w1 w2 -> keeps_schedule w2 w3 -> keeps_schedule w1 w3.
Proof.
  intros (N1 & K1 & J1) (N2 & K2 & J2). split; [lia|]. split.
  - intros r Hr Hn. apply K2; [lia|]. now apply K1.
  - intros r Hin. destruct (J2 r Hin) as [H|H]; [|auto].
    destruct (J1 r H) as [H'|[Hlt Hs]]; [auto|].
    right. split; [lia|]. now apply K2.
Qed.

Lemma keeps_schedule_ok w w' :
  scheduled_ok w -> keeps_schedule w w' -> scheduled_ok w'.
Proof.
  unfold scheduled_ok. rewrite !Forall_forall.
  intros H (N & K & J) r Hin.
  destruct (J r Hin) as [H0|H0]; [|exact H0].
  destruct (H r H0) as [Hlt Hs]. split; [lia|]. now apply K.
Qed.

Section EndsIn.

Variable P : World -> World -> Prop.
Hypothesis P_refl : forall w, P w w.
Hypothesis P_trans : forall w1 w2 w3, P w1 w2 -> P w2 w3 -> P w1 w3.

Lemma ends_in_ret A (a : A) : ends_in (ret a) P.
Proof. intros w. apply P_refl. Qed.

Lemma ends_in_raise A e : ends_in (@raise A e) P.
Proof. intros w. apply P_refl. Qed.

Lemma ends_in_bind A B (m : M A) (k : A -> M B) :
  ends_in m P -> (forall a, ends_in (k a) P) -> ends_in (bind m k) P.
Proof.
  intros Hm Hk w. unfold bind. specialize (Hm w).
  destruct (m w) as [a w1|e w1|]; auto.
  specialize (Hk a w1). destruct (k a w1); eauto.
Qed.

Lemma ends_in_for_each A (l : list A) (body : A -> M NoneType) :
  (forall x, ends_in (body x) P) -> ends_in (for_each l body) P.
Proof.
  intros Hb. induction l as [|x l IH]; cbn [for_each].
  - apply ends_in_ret.
  - apply ends_in_bind; auto.
Qed.

Lemma ends_in_try_except_pass (m : M NoneType) :
  ends_in m P -> ends_in (try_except_pass m) P.
Proof.
  intros Hm w. unfold try_except_pass. specialize (Hm w).
  destruct (m w); auto.
Qed.

End EndsIn.

Lemma post_ends_in A (m : M A) P : post m P -> ends_in m P.
Proof. intros H w. specialize (H w). destruct (m w); auto. Qed.

Lemma ends_in_weaken A (m : M A) (P P' : World -> World -> Prop) :
  (forall w w', P w w' -> P' w w') -> ends_in m P -> ends_in m P'.
Proof. intros H Hm w. specialize (Hm w). destruct (m w); auto. Qed.

Lemma leaves_jobs_keeps A (m : M A) :
  leaves_jobs m -> ends_in m keeps_schedule.
Proof.
  intros H w. specialize (H w).
  destruct (m w) as [a w'|e w'|]; auto;
    destruct H as (Hh & Hj & Hn); unfold keeps_schedule;
    rewrite Hh, Hj, Hn; auto.
Qed.

Lemma job_step_keeps Q self w w' :
  (forall j j', Q j j' -> next_run j <> None -> next_run j' <> None) ->
  job_step Q self w w' -> keeps_schedule w w'.
Proof.
  intros HQ [(F1 & _ & _ & _ & F5 & _ & F7) Hq].
  unfold keeps_schedule. rewrite F1, F5. split; [lia|]. split; [|auto].
  intros r _ Hn. destruct (Nat.eq_dec r self) as [->|Hne].
  - eapply HQ; eassumption.
  - now rewrite F7.
Qed.

Lemma setattr_keeps self f :
  (forall j, next_run j <> None -> next_run (f j) <> None) ->
  ends_in (setattr self f) keeps_schedule.
Proof.
  intros Hf w. unfold setattr, keeps_schedule. cbn.
  split; [lia|]. split; [|auto].
  intros r _ Hn. unfold upd. destruct (Nat.eqb_spec r self); subst; auto.
Qed.

Lemma leaves_jobs_now E : leaves_jobs (now E).
Proof. intros w. cbn. auto. Qed.

Lemma leaves_jobs_randint E a b : leaves_jobs (randint E a b).
Proof. intros w. unfold randint. destruct (b <? a); cbn; auto. Qed.

Lemma leaves_jobs_getattr A self (f : Job -> A) : leaves_jobs (getattr self f).
Proof. intros w. cbn. auto. Qed.

Lemma leaves_jobs_record_call c : leaves_jobs (record_call c).
Proof. intros w. cbn. auto. Qed.

Lemma leaves_jobs_create_task job c : leaves_jobs (create_task job c).
Proof. intros w. cbn. auto. Qed.

Lemma leaves_jobs_tasks_append t : leaves_jobs (tasks_append t).
Proof. intros w. cbn. auto. Qed.

Lemma leaves_jobs_prune_tasks : leaves_jobs prune_tasks.
Proof. intros w. cbn. auto. Qed.

Lemma leaves_jobs_get_jobs : leaves_jobs get_jobs.
Proof. intros w. cbn. auto. Qed.

Lemma leaves_jobs_get_tasks : leaves_jobs get_tasks.
Proof. intros w. cbn. auto. Qed.

Lemma leaves_jobs_sorted l : leaves_jobs (sorted l).
Proof. intros w. cbn. auto. Qed.

Lemma leaves_jobs_sleep d : leaves_jobs (sleep d).
Proof. intros w. unfold sleep. destruct (d <? 0); cbn; auto. Qed.

Lemma leaves_jobs_await t : leaves_jobs (await t).
Proof.
  intros w. unfold await.
  destruct (task_done (task_table w t)), (task_coro (task_table w t));
    cbn; auto.
Qed.

Ltac ks_step :=
  match goal with
  | |- ends_in (bind _ _) _ =>
      apply ends_in_bind; [exact keeps_schedule_trans | | intros]
  | |- ends_in (ret _) _ => apply ends_in_ret; exact keeps_schedule_refl
  | |- ends_in (raise _) _ => apply ends_in_raise; exact keeps_schedule_refl
  | |- ends_in (raise_if ?b _) _ => destruct b; cbn [raise_if]
  | |- ends_in (the ?o) _ => destruct o; cbn [the]
  | |- ends_in (getattr _ _) _ => apply leaves_jobs_keeps, leaves_jobs_getattr
  | |- ends_in (now _) _ => apply leaves_jobs_keeps, leaves_jobs_now
  | |- ends_in (randint _ _ _) _ =>
      apply leaves_jobs_keeps, leaves_jobs_randint
  | |- ends_in (record_call _) _ =>
      apply leaves_jobs_keeps, leaves_jobs_record_call
  | |- ends_in (create_task _ _) _ =>
      apply leaves_jobs_keeps, leaves_jobs_create_task
  | |- ends_in (tasks_append _) _ =>
      apply leaves_jobs_keeps, leaves_jobs_tasks_append
  | |- ends_in (setattr _ _) _ =>
      apply setattr_keeps;
      let H := fresh in
      intros [] H; cbn in *; try assumption; try discriminate
  | |- ends_in (if ?b then _ else _) _ => destruct b
  | |- ends_in (match ?o with _ => _ end) _ => destruct o
  end.

Lemma schedule_next_run_keeps_schedule E self :
  ends_in (_schedule_next_run E self) keeps_schedule.
Proof.
  unfold _schedule_next_run, resolve_period, base_instant, weekday_anchor,
    at_time_align, catch_up, double_check.
  repeat ks_step.
Qed.

Lemma run_keeps_schedule E self : ends_in (run E self) keeps_schedule.
Proof.
  unfold run, _is_overdue.
  repeat first [apply schedule_next_run_keeps_schedule | ks_step].
Qed.

Lemma cancel_job_keeps_schedule job : ends_in (cancel_job job) keeps_schedule.
Proof.
  intros w. unfold cancel_job, keeps_schedule. cbn.
  split; [lia|]. split; [auto|].
  intros r Hin. left. revert Hin.
  induction (jobs w) as [|y l IH]; cbn; [tauto|].
  destruct (Nat.eqb y job); cbn; tauto.
Qed.

Lemma run_job_keeps_schedule E job : ends_in (_run_job E job) keeps_schedule.
Proof.
  unfold _run_job.
  repeat first [apply run_keeps_schedule | apply cancel_job_keeps_schedule
               | ks_step].
Qed.

Lemma should_run_leaves_jobs E self : leaves_jobs (should_run E self).
Proof.
  intros w. unfold should_run, bind, getattr.
  destruct (next_run (heap w self)); cbn; auto.
Qed.

Lemma leaves_jobs_bind A B (m : M A) (k : A -> M B) :
  leaves_jobs m -> (forall a, leaves_jobs (k a)) -> leaves_jobs (bind m k).
Proof.
  intros Hm Hk w. unfold bind. specialize (Hm w).
  destruct (m w) as [a w1|e w1|]; auto.
  specialize (Hk a w1). destruct Hm as (A1 & A2 & A3).
  destruct (k a w1); auto; destruct Hk as (B1 & B2 & B3);
    repeat split; congruence.
Qed.

Lemma leaves_jobs_ret A (a : A) : leaves_jobs (ret a).
Proof. intros w. cbn. auto. Qed.

Lemma runnable_jobs_leaves_jobs E l : leaves_jobs (runnable_jobs E l).
Proof.
  induction l as [|j l IH]; cbn [runnable_jobs].
  - apply leaves_jobs_ret.
  - apply leaves_jobs_bind; [apply should_run_leaves_jobs | intros b].
    apply leaves_jobs_bind; [exact IH | intros rest].
    apply leaves_jobs_ret.
Qed.

Lemma gather_leaves_jobs ts : leaves_jobs (gather ts).
Proof.
  induction ts as [|t ts IH]; cbn [gather].
  - apply leaves_jobs_ret.
  - apply leaves_jobs_bind; [apply leaves_jobs_await | intros _; exact IH].
Qed.

Lemma run_pending_keeps_schedule E : ends_in (run_pending E) keeps_schedule.
Proof.
  unfold run_pending.
  apply ends_in_bind;
    [exact keeps_schedule_trans
    | apply leaves_jobs_keeps, leaves_jobs_get_jobs | intros js].
  apply ends_in_bind;
    [exact keeps_schedule_trans
    | apply leaves_jobs_keeps, runnable_jobs_leaves_jobs | intros runnable].
  apply ends_in_bind;
    [exact keeps_schedule_trans
    | apply leaves_jobs_keeps, leaves_jobs_sorted | intros ordered].
  apply ends_in_bind; [exact keeps_schedule_trans | | intros _].
  { apply ends_in_for_each;
      [exact keeps_schedule_refl | exact keeps_schedule_trans
      | intros x; apply run_job_keeps_schedule]. }
  apply ends_in_bind;
    [exact keeps_schedule_trans
    | apply leaves_jobs_keeps, leaves_jobs_prune_tasks | intros _].
  apply ends_in_bind;
    [exact keeps_schedule_trans
    | apply leaves_jobs_keeps, leaves_jobs_get_tasks | intros ts].
  destruct ts; [apply ends_in_ret; exact keeps_schedule_refl|].
  apply leaves_jobs_keeps, gather_leaves_jobs.
Qed.

Lemma run_all_keeps_schedule E d : ends_in (run_all E d) keeps_schedule.
Proof.
  unfold run_all.
  apply ends_in_bind;
    [exact keeps_schedule_trans
    | apply leaves_jobs_keeps, leaves_jobs_get_jobs | intros js].
  apply ends_in_for_each;
    [exact keeps_schedule_refl | exact keeps_schedule_trans | intros x].
  apply ends_in_bind;
    [exact keeps_schedule_trans | apply run_job_keeps_schedule | intros _].
  apply leaves_jobs_keeps, leaves_jobs_sleep.
Qed.

Lemma clear_keeps_schedule : ends_in clear keeps_schedule.
Proof.
  intros w. unfold clear, keeps_schedule. cbn.
  split; [lia|]. split; [auto|]. intros r [].
Qed.

(** ** When the next-run computation returns *)

#[local] Arguments index_of : simpl never.

Ltac run_steps Hh :=
  repeat (progress (exec; rewrite ?Hh, ?andb_false_r, ?orb_true_r,
                      ?orb_false_r));
  repeat (match goal with
          | |- context [if ?b then _ else _] => destruct b eqn:?
          end;
          repeat (progress (exec; rewrite ?Hh, ?andb_false_r, ?orb_true_r,
                              ?orb_false_r))).

Lemma steps_5_7_outcome E self w4 nr p :
  next_run (heap w4 self) = Some nr -> period (heap w4 self) = Some p ->
  let j := heap w4 self in
  exists w',
    (weekday_anchor self ;; at_time_align E self ;; double_check E self) w4
    = if match start_day j with
         | None => true
         | Some sd => str_is (unit j) "weeks"
                      && negb (is_None (index_of weekdays sd))
         end
         && match at_time j with
            | None => true
            | Some _ => str_in (unit j) ["days"; "hours"; "minutes"]
                        || negb (is_None (start_day j))
            end
      then Returns tt w' else Raises ScheduleValueError w'.
Proof.
  intros Hn Hp j. subst j.
  unfold weekday_anchor, at_time_align, catch_up, double_check.
  destruct w4 as [cr rd hp nxr js ts tb nt cs]; cbn [heap] in *.
  destruct (hp self) as [iv la jf ar kw jn u att lr nxt pd sd ca sc] eqn:Hh.
  cbn in Hn, Hp. subst.
  assert (Hix : forall sd0, exists ix, index_of weekdays sd0 = ix)
    by (intros; eexists; reflexivity).
  destruct sd as [sd|]; [destruct (Hix sd) as [[wd|] Hi]|];
    destruct att as [at_|];
    (destruct u as [u|];
     [destruct (String.eqb_spec u "weeks") as [->|Hw];
      [|destruct (String.eqb_spec u "days") as [->|Hd];
        [|destruct (String.eqb_spec u "hours") as [->|Hhr];
          [|destruct (String.eqb_spec u "minutes") as [->|Hm]]]]|]);
    repeat match goal with
           | H : ?a <> ?b |- _ =>
               apply String.eqb_neq in H
           end;
    repeat (progress (exec;
                      rewrite ?Hh, ?Hw, ?Hd, ?Hhr, ?Hm, ?Hi;
                      cbn [andb orb negb is_None str_is str_in]));
    repeat (match goal with
            | |- context [if ?b then _ else _] => destruct b eqn:?
            end;
            repeat (progress (exec; rewrite ?Hh, ?Hw, ?Hd, ?Hhr, ?Hm, ?Hi;
                              cbn [andb orb negb is_None str_is str_in])));
    eexists; reflexivity.
Qed.

Lemma schedule_next_run_raises_early E self w e :
  resolve_period E self (called self w) = Raises e (called self w) ->
  _schedule_next_run E self w = Raises e (called self w).
Proof.
  intros H. rewrite schedule_next_run_split.
  unfold bind at 1. unfold bind at 1. now rewrite H.
Qed.

Lemma latest_ok_b j :
  match latest j with Some l => interval j <=? l | None => true end = true
  <-> latest_ok j.
Proof.
  unfold latest_ok. destruct (latest j); [apply Z.leb_le | tauto].
Qed.

(** The outcome of the next-run computation, by the configuration of the
    job. *)
Lemma schedule_next_run_outcome E w self :
  let j := heap w self in
  exists w',
    _schedule_next_run E self w
    = if computable j then Returns tt w'
      else Raises (if str_in (unit j)
                        ["seconds"; "minutes"; "hours"; "days"; "weeks"]
                      && negb match latest j with
                              | Some l => interval j <=? l
                              | None => true
                              end
                   then ScheduleError else ScheduleValueError) w'.
Proof.
  intros j. unfold computable.
  destruct (str_in (unit j) _) eqn:Hu; cbn [andb].
  2: { exists (called self w). apply schedule_next_run_raises_early.
       apply resolve_period_bad_unit. unfold valid_unit.
       cbn [heap called with_calls]. fold j. rewrite Hu. discriminate. }
  destruct (match latest j with Some l => interval j <=? l | None => true end)
    eqn:Hl; cbn [andb negb].
  2: { exists (called self w). apply schedule_next_run_raises_early.
       destruct (latest j) as [l|] eqn:Hla; [|discriminate].
       apply resolve_period_bad_latest with (l := l);
         cbn [heap called with_calls]; fold j; auto.
       apply Z.leb_gt in Hl. lia. }
  apply latest_ok_b in Hl.
  destruct (base_instant_returns E (called self w) self Hu Hl)
    as (w4 & Hr & Hh & _).
  rewrite (after_base _ _ _ Hr).
  cbn [heap called with_calls] in Hh. fold j in Hh.
  destruct (@steps_5_7_outcome E self w4
              (base_of E (called self w) j
                 (effective_period E (called self w) j))
              (effective_period E (called self w) j))
    as (w' & Hs); [now rewrite Hh | now rewrite Hh|].
  cbv zeta in Hs. rewrite Hh in Hs. cbn [start_day unit at_time set_next_run
    set_period] in Hs.
  exists w'. rewrite Hs.
  destruct (_ && _); reflexivity.
Qed.

Lemma schedule_next_run_same E self w w' :
  final_world (_schedule_next_run E self w) = Some w' ->
  same_but_schedule (heap w self) (heap w' self)
  /\ jobs w' = jobs w /\ tasks w' = tasks w /\ next_ref w' = next_ref w
  /\ forall r, r <> self -> heap w' r = heap w r.
Proof.
  intros H. pose proof (schedule_next_run_post E self w) as P.
  assert (S : job_step same_but_schedule self (called self w) w').
  { destruct (_schedule_next_run E self w); cbn in H;
      [injection H as <- | injection H as <- | discriminate]; exact P. }
  destruct S as [(F1 & F2 & F3 & F4 & F5 & F6 & F7) Q].
  cbn in *. auto.
Qed.




Lemma do_outcome E self name a k w :
  let j := heap w self in
  exists w',
    do E self name a k w
    = (if computable j
       then match scheduler j with
            | Some _ => Returns self (with_jobs (jobs w ++ [self]) w')
            | None => Raises ScheduleError w'
            end
       else Raises (if str_in (unit j)
                         ["seconds"; "minutes"; "hours"; "days"; "weeks"]
                       && negb match latest j with
                               | Some l => interval j <=? l
                               | None => true
                               end
                    then ScheduleError else ScheduleValueError) w')
    /\ jobs w' = jobs w /\ tasks w' = tasks w
    /\ (forall r, r <> self -> heap w' r = heap w r)
    /\ args (heap w' self) = Some a /\ kwargs (heap w' self) = Some k
    /\ job_func_name (heap w' self) = Some name
    /\ (computable j = true -> next_run (heap w' self) <> None)
    /\ keeps_schedule w w'.
Proof.
  intros j. unfold do.
  unfold bind at 1, setattr at 1. unfold bind at 1, setattr at 1.
  unfold bind at 1, setattr at 1. cbn [heap with_heap].
  rewrite !upd_same.
  set (j0 := set_job_func_name _ _).
  set (w0 := with_heap _ _).
  assert (H0 : heap w0 self = j0) by (unfold w0; cbn; apply upd_same).
  assert (Hc : computable j0 = computable j)
    by (unfold j0, j, computable; destruct (heap w self); reflexivity).
  destruct (schedule_next_run_outcome E w0 self) as (w' & Hs).
  rewrite H0, Hc in Hs.
  assert (Hu : unit j0 = unit j) by (unfold j0, j; destruct (heap w self); reflexivity).
  assert (Hla : latest j0 = latest j) by (unfold j0, j; destruct (heap w self); reflexivity).
  assert (Hiv : interval j0 = interval j)
    by (unfold j0, j; destruct (heap w self); reflexivity).
  rewrite Hu, Hla, Hiv in Hs.
  assert (Hf : final_world (_schedule_next_run E self w0) = Some w')
    by (rewrite Hs; destruct (computable j); reflexivity).
  apply schedule_next_run_same in Hf.
  destruct Hf as (Q & F1 & F2 & F3 & F4).
  rewrite H0 in Q.
  assert (Hsome : computable j = true -> next_run (heap w' self) <> None).
  { intros Ht. rewrite Ht in Hs. eapply schedule_next_run_some. exact Hs. }
  assert (Hsc : scheduler (heap w' self) = scheduler j).
  { rewrite Q. unfold j0, j. destruct (heap w self); reflexivity. }
  exists w'. split.
  - unfold bind at 1. rewrite Hs.
    destruct (computable j); [|reflexivity].
    unfold bind at 1, getattr at 1. rewrite Hsc.
    destruct (scheduler j) as [[]|]; [|reflexivity].
    unfold bind, jobs_append, ret. now rewrite F1.
  - split; [exact F1|]. split; [exact F2|]. split.
    { intros r Hr. rewrite F4 by exact Hr. unfold w0. cbn.
      now rewrite !upd_other. }
    assert (Hk : keeps_schedule w w').
    { apply keeps_schedule_trans with (w2 := w0).
      - unfold keeps_schedule, w0. cbn. split; [lia|]. split; [|auto].
        intros r _ Hn. unfold upd.
        destruct (Nat.eqb_spec r self) as [->|Hne]; [|exact Hn].
        unfold j0. destruct (heap w self). exact Hn.
      - pose proof (schedule_next_run_keeps_schedule E self w0) as Hk.
        rewrite Hs in Hk. destruct (computable j); exact Hk. }
    rewrite Q. unfold j0, j. destruct (heap w self). cbn. auto 10.
Qed.



(** ** Restoring and saving the whole schedule *)

Lemma load_fields_world d w :
  exists w1,
    load_fields d w = Returns (next_ref w) w1
    /\ heap w1 (next_ref w) = restored d
    /\ (forall r, r <> next_ref w -> heap w1 r = heap w r)
    /\ next_ref w1 = S (next_ref w)
    /\ jobs w1 = jobs w /\ tasks w1 = tasks w
    /\ task_table w1 = task_table w /\ next_task w1 = next_task w
    /\ calls w1 = calls w
    /\ clock_reads w1 = clock_reads w /\ rand_draws w1 = rand_draws w.
Proof.
  unfold load_fields, new_Job, restored.
  destruct d as [iv la ar kw jn u sd ca att lr nr].
  destruct att as [[t|]|], lr as [lr|], nr as [nr|]; exec;
    eexists; (split; [reflexivity|]); exec;
    (split; [reflexivity|]);
    (split;
     [intros r Hr;
      repeat match goal with
             | |- context [Nat.eqb ?a ?b] =>
                 destruct (Nat.eqb_spec a b); [congruence|]
             end; reflexivity|]);
    repeat split.
Qed.

(** One record: a job object is created; it is registered when it has a
    [next_run] in the end, and dropped otherwise. *)
Lemma from_json_record_spec E d w :
  exists w',
    from_json_record E d w = Returns tt w'
    /\ next_ref w' = S (next_ref w)
    /\ (forall r, r <> next_ref w -> heap w' r = heap w r)
    /\ tasks w' = tasks w /\ task_table w' = task_table w
    /\ next_task w' = next_task w
    /\ same_but_schedule (restored d) (heap w' (next_ref w))
    /\ ((next_run (heap w' (next_ref w)) <> None
         /\ jobs w' = jobs w ++ [next_ref w])
        \/ (next_run (heap w' (next_ref w)) = None /\ jobs w' = jobs w)).
Proof.
  destruct (load_fields_world d w)
    as (w1 & Hl & Hh & Ho & Hn & Hj & Ht & Hb & Hk & Hc & _).
  rewrite (@from_json_record_loaded E _ _ _ Hl).
  set (r := next_ref w) in *.
  unfold bind at 1, getattr at 1. rewrite Hh.
  assert (Hrest : forall w2,
             next_ref w2 = S r ->
             (forall r0, r0 <> r -> heap w2 r0 = heap w r0) ->
             tasks w2 = tasks w -> task_table w2 = task_table w ->
             next_task w2 = next_task w ->
             same_but_schedule (restored d) (heap w2 r) ->
             jobs w2 = jobs w ->
             exists w',
               (nr <- getattr r next_run ;;
                if negb (is_None nr) then jobs_append r else ret tt) w2
               = Returns tt w'
               /\ next_ref w' = S r
               /\ (forall r0, r0 <> r -> heap w' r0 = heap w r0)
               /\ tasks w' = tasks w /\ task_table w' = task_table w
               /\ next_task w' = next_task w
               /\ same_but_schedule (restored d) (heap w' r)
               /\ ((next_run (heap w' r) <> None
                    /\ jobs w' = jobs w ++ [r])
                   \/ (next_run (heap w' r) = None /\ jobs w' = jobs w))).
  { intros w2 A1 A2 A3 A4 A5 A6 A7. unfold bind, getattr.
    destruct (next_run (heap w2 r)) as [n|] eqn:Hn2; cbn.
    - eexists. split; [reflexivity|]. cbn. rewrite Hn2, A7.
      repeat split; auto. left. split; [discriminate | reflexivity].
    - eexists. split; [reflexivity|]. rewrite Hn2. repeat split; auto. }
  destruct (next_run (restored d)) as [n|] eqn:Hnr; cbn [is_None].
  - unfold bind at 1, ret at 1.
    apply Hrest;
      [congruence | intros r0 Hr0; now apply Ho | congruence | congruence
      | congruence | rewrite Hh; apply same_but_schedule_refl | congruence].
  - unfold bind at 1, try_except_pass.
    pose proof (@schedule_next_run_same E r w1) as K.
    pose proof (schedule_next_run_post E r w1) as P.
    destruct (_schedule_next_run E r w1) as [[] w2|e w2|];
      [| |contradiction];
      destruct (K w2 eq_refl) as (Q & K1 & K2 & K3 & K4);
      destruct P as [(_ & _ & P3 & P4 & _) _];
      cbn in P3, P4;
      (apply Hrest;
       [congruence
       | intros r0 Hr0; rewrite K4 by exact Hr0; now apply Ho
       | congruence | congruence | congruence
       | now rewrite <- Hh
       | congruence]).
Qed.

Lemma for_each_from_json_record E data : forall w,
  exists w' new,
    for_each data (from_json_record E) w = Returns tt w'
    /\ next_ref w' = (next_ref w + List.length data)%nat
    /\ (forall r, (r < next_ref w)%nat -> heap w' r = heap w r)
    /\ tasks w' = tasks w /\ task_table w' = task_table w
    /\ next_task w' = next_task w
    /\ jobs w' = jobs w ++ new
    /\ (List.length new <= List.length data)%nat
    /\ StronglySorted lt new
    /\ Forall (fun r => (next_ref w <= r < next_ref w')%nat
                        /\ next_run (heap w' r) <> None) new.
Proof.
  induction data as [|d data IH]; intros w; cbn [for_each].
  - exists w, []. unfold ret. rewrite app_nil_r, Nat.add_0_r.
    repeat split; auto; constructor.
  - destruct (from_json_record_spec E d w)
      as (w1 & Hr & N1 & O1 & T1 & B1 & K1 & _ & J1).
    destruct (IH w1) as (w' & new & Hr' & N2 & O2 & T2 & B2 & K2 & J2 & L2
                         & S2 & F2).
    unfold bind. rewrite Hr.
    assert (Hold : forall r, (r < next_ref w)%nat -> heap w' r = heap w r).
    { intros r Hlt. rewrite O2 by lia. apply O1. lia. }
    assert (Hnew : Forall (fun r => (next_ref w <= r < next_ref w')%nat
                                    /\ next_run (heap w' r) <> None) new).
    { rewrite Forall_forall in *. intros r Hin.
      destruct (F2 r Hin) as [Hb Hs]. split; [lia | exact Hs]. }
    destruct J1 as [[Hs J1] | [_ J1]].
    + exists w', (next_ref w :: new). split; [exact Hr'|].
      split; [rewrite N2, N1; cbn; lia|]. split; [exact Hold|].
      split; [congruence|]. split; [congruence|]. split; [congruence|].
      split; [rewrite J2, J1, <- app_assoc; reflexivity|].
      split; [cbn; lia|]. split.
      * constructor; [exact S2|].
        rewrite Forall_forall in *. intros r Hin.
        destruct (F2 r Hin) as [Hb _]. lia.
      * constructor; [|exact Hnew]. split; [lia|].
        rewrite O2 by lia. exact Hs.
    + exists w', new. split; [exact Hr'|].
      split; [rewrite N2, N1; cbn; lia|]. split; [exact Hold|].
      split; [congruence|]. split; [congruence|]. split; [congruence|].
      split; [rewrite J2, J1; reflexivity|].
      split; [cbn; lia|]. split; [exact S2 | exact Hnew].
Qed.









(** ** The invariant, over the operations of the module *)

Lemma ends_in_stays_ok A (m : M A) w :
  ends_in m keeps_schedule -> scheduled_ok w -> stays_ok m w.
Proof.
  intros H Hok. unfold stays_ok. specialize (H w).
  destruct (m w); auto; eapply keeps_schedule_ok; eassumption.
Qed.

Lemma from_json_keeps_schedule E data :
  ends_in (from_json E data) keeps_schedule.
Proof.
  intros w. unfold from_json, bind.
  destruct (for_each_from_json_record E data w)
    as (w' & new & Hr & N & O & _ & _ & _ & J & _ & _ & F).
  rewrite Hr. cbn. unfold keeps_schedule.
  split; [lia|]. split.
  - intros r Hlt Hn. now rewrite O.
  - intros r Hin. rewrite J in Hin. apply in_app_or in Hin.
    destruct Hin as [Hin|Hin]; [auto|]. right.
    rewrite Forall_forall in F. destruct (F r Hin) as [Hb Hs].
    split; [lia | exact Hs].
Qed.

Lemma do_keeps_schedule E self name a k w :
  (self < next_ref w)%nat ->
  match do E self name a k w with
  | Returns _ w' | Raises _ w' => keeps_schedule w w'
  | Hangs => False
  end.
Proof.
  intros Hlt.
  destruct (do_outcome E self name a k w)
    as (w' & H & F1 & F2 & F3 & F4 & F5 & F6 & F7 & K).
  rewrite H. destruct (computable (heap w self)); [|exact K].
  destruct (scheduler (heap w self)); [|exact K].
  destruct K as (N & P & J). unfold keeps_schedule. cbn.
  split; [exact N|]. split; [exact P|].
  intros r Hin. apply in_app_or in Hin. destruct Hin as [Hin|[<-|[]]].
  - auto.
  - right. split; [lia | auto].
Qed.

Lemma new_Job_keeps_schedule n s : ends_in (new_Job n s) keeps_schedule.
Proof.
  intros w. unfold new_Job, keeps_schedule. cbn.
  split; [lia|]. split; [|auto].
  intros r Hlt Hn. unfold upd.
  destruct (Nat.eqb_spec r (next_ref w)); [lia | exact Hn].
Qed.

Lemma cancel_each_keeps_schedule fuel : forall i,
  ends_in (cancel_each fuel i) keeps_schedule.
Proof.
  induction fuel as [|fuel IH]; intros i; cbn [cancel_each].
  - intros w. exact I.
  - apply ends_in_bind;
      [exact keeps_schedule_trans
      | apply leaves_jobs_keeps, leaves_jobs_get_jobs | intros js].
    destruct (nth_error js i).
    + apply ends_in_bind;
        [exact keeps_schedule_trans | apply cancel_job_keeps_schedule
        | intros _; apply IH].
    + apply ends_in_ret. exact keeps_schedule_refl.
Qed.

Lemma load_flash_keeps_schedule E keep file :
  ends_in (load_flash E keep file) keeps_schedule.
Proof.
  unfold load_flash.
  apply ends_in_bind; [exact keeps_schedule_trans | | intros _].
  - destruct (negb keep).
    + apply ends_in_bind;
        [exact keeps_schedule_trans
        | apply leaves_jobs_keeps, leaves_jobs_get_jobs | intros js].
      apply cancel_each_keeps_schedule.
    + apply ends_in_ret. exact keeps_schedule_refl.
  - destruct file;
      try (apply ends_in_ret; exact keeps_schedule_refl).
    apply ends_in_try_except_pass.
    apply ends_in_bind;
      [exact keeps_schedule_trans | apply from_json_keeps_schedule
      | intros _; apply ends_in_ret; exact keeps_schedule_refl].
Qed.

Lemma at_keeps_schedule self s : ends_in (at_ self s) keeps_schedule.
Proof.
  unfold at_.
  apply ends_in_bind;
    [exact keeps_schedule_trans
    | apply leaves_jobs_keeps, leaves_jobs_getattr | intros j].
  do 4 (apply ends_in_bind;
        [exact keeps_schedule_trans | solve [repeat ks_step] | intros _]).
  apply ends_in_bind; [exact keeps_schedule_trans | | intros [[h0 m0] s0]].
  { destruct (split ":" s) as [|a [|b [|c [|d l]]]]; repeat ks_step. }
  unfold int_, time_. repeat ks_step.
Qed.

Lemma until_keeps_schedule E self u : ends_in (until E self u) keeps_schedule.
Proof. unfold until. repeat ks_step. Qed.

Lemma to_keeps_schedule self l : ends_in (to self l) keeps_schedule.
Proof. unfold to. repeat ks_step. Qed.

Lemma set_unit_to_keeps_schedule u self :
  ends_in (set_unit_to u self) keeps_schedule.
Proof. unfold set_unit_to. repeat ks_step. Qed.

Lemma singular_keeps_schedule u self :
  ends_in (singular (set_unit_to u) self) keeps_schedule.
Proof.
  unfold singular.
  repeat first [apply set_unit_to_keeps_schedule | ks_step].
Qed.

Lemma on_weekday_keeps_schedule d self :
  ends_in (on_weekday d self) keeps_schedule.
Proof.
  unfold on_weekday, weeks.
  repeat first [apply set_unit_to_keeps_schedule | ks_step].
Qed.

Lemma runnable_jobs_total E l : forall w,
  Forall (fun r => next_run (heap w r) <> None) l ->
  runnable_jobs E l w
  = Returns (due_from E (heap w) (clock_reads w) l)
            (with_clock_reads (clock_reads w + List.length l) w).
Proof.
  induction l as [|j l IH]; intros w HF.
  - cbn. unfold ret. rewrite Nat.add_0_r. destruct w. reflexivity.
  - inversion HF as [|? ? Hj HF']; subst.
    cbn [runnable_jobs due_from]. unfold bind at 1, should_run.
    unfold bind at 1, getattr at 1.
    destruct (next_run (heap w j)) as [nr|] eqn:Hn; [|congruence].
    unfold bind at 1, now at 1, ret at 1. unfold bind at 1.
    rewrite IH by exact HF'. cbn [heap clock_reads with_clock_reads].
    unfold bind, ret. rewrite Z.geb_leb. cbn [List.length].
    replace (clock_reads w + S (List.length l))%nat
      with (S (clock_reads w) + List.length l)%nat by lia.
    destruct (nr <=? clock E (clock_reads w)); reflexivity.
Qed.

Lemma no_assertion_bind A B (m : M A) (k : A -> M B) :
  no_assertion m -> (forall a, no_assertion (k a)) ->
  no_assertion (bind m k).
Proof.
  intros Hm Hk w e w'. unfold bind.
  destruct (m w) as [a w1|e1 w1|] eqn:H; [apply Hk | | discriminate].
  intros H'. injection H' as <- <-. eapply Hm. exact H.
Qed.

Lemma no_assertion_returns A (m : M A) :
  (forall w, exists a w', m w = Returns a w') -> no_assertion m.
Proof.
  intros H w e w' Hr. destruct (H w) as (a & w1 & H1). congruence.
Qed.

Lemma no_assertion_raise A e :
  e <> AssertionError -> no_assertion (@raise A e).
Proof. intros H w e' w' Hr. unfold raise in Hr. congruence. Qed.

Lemma no_assertion_for_each A (l : list A) (body : A -> M NoneType) :
  (forall x, no_assertion (body x)) -> no_assertion (for_each l body).
Proof.
  intros Hb. induction l as [|x l IH]; cbn [for_each].
  - apply no_assertion_returns. intros w. eexists _, _. reflexivity.
  - apply no_assertion_bind; auto.
Qed.

Ltac na_step :=
  match goal with
  | |- no_assertion (bind _ _) => apply no_assertion_bind; [|intros]
  | |- no_assertion (raise _) => apply no_assertion_raise; discriminate
  | |- no_assertion (raise_if ?b _) => destruct b; cbn [raise_if]
  | |- no_assertion (the ?o) => destruct o; cbn [the]
  | |- no_assertion (if ?b then _ else _) => destruct b
  | |- no_assertion (match ?o with _ => _ end) => destruct o
  | |- no_assertion (randint _ ?a ?b) =>
      let w := fresh in
      let e := fresh in
      let w' := fresh in
      let H := fresh in
      intros w e w' H; unfold randint in H; destruct (b <? a);
      [injection H as <- _; discriminate | discriminate]
  | |- no_assertion _ =>
      apply no_assertion_returns; intros ?; eexists _, _; reflexivity
  end.

Lemma schedule_next_run_no_assertion E self :
  no_assertion (_schedule_next_run E self).
Proof.
  unfold _schedule_next_run, resolve_period, base_instant, weekday_anchor,
    at_time_align, catch_up, double_check.
  repeat na_step.
Qed.

Lemma run_no_assertion E self : no_assertion (run E self).
Proof.
  unfold run, _is_overdue.
  repeat first [apply schedule_next_run_no_assertion | na_step].
Qed.

Lemma run_job_no_assertion E job : no_assertion (_run_job E job).
Proof.
  unfold _run_job. repeat first [apply run_no_assertion | na_step].
Qed.

Lemma await_no_assertion t : no_assertion (await t).
Proof.
  intros w e w'. unfold await.
  destruct (task_done (task_table w t)), (task_coro (task_table w t));
    intros H; try discriminate; injection H as <- _; discriminate.
Qed.

Lemma gather_no_assertion ts : no_assertion (gather ts).
Proof.
  induction ts as [|t ts IH]; cbn [gather].
  - na_step.
  - apply no_assertion_bind; [apply await_no_assertion | auto].
Qed.

Lemma run_pending_no_assertion E w e w' :
  all_scheduled w -> run_pending E w = Raises e w' -> e <> AssertionError.
Proof.
  intros HF. unfold run_pending.
  unfold bind at 1, get_jobs at 1. unfold bind at 1.
  rewrite runnable_jobs_total by exact HF.
  apply no_assertion_bind; [na_step | intros ordered].
  apply no_assertion_bind;
    [apply no_assertion_for_each; intros x; apply run_job_no_assertion
    | intros _].
  apply no_assertion_bind; [na_step | intros _].
  apply no_assertion_bind; [na_step | intros ts].
  destruct ts; [na_step | apply gather_no_assertion].
Qed.

Lemma scheduled_ok_all w : scheduled_ok w -> all_scheduled w.
Proof.
  unfold scheduled_ok, all_scheduled. rewrite !Forall_forall.
  intros H r Hin. now apply H.
Qed.

Lemma lt_is_Job_lt w a b :
  next_run (heap w a) <> None -> next_run (heap w b) <> None ->
  __lt__ a b w = Returns (Job_lt w a b) w.
Proof.
  intros Ha Hb. unfold __lt__, Job_lt, bind, getattr, ret.
  destruct (next_run (heap w a)), (next_run (heap w b)); congruence.
Qed.

(** X8.  The invariant of the job list: every registered job is an
    object that exists and has a [next_run].  It holds when the module is
    imported, and every operation of the module keeps it, however the
    operation ends, by a return or by an exception: a tick, [run_all],
    [cancel_job], [clear], [every], [do] on an existing job, [from_json],
    [load_flash], [at], [to], [until] and the seventeen unit and weekday
    accessors.  Hence, in a tick, the assertion of [should_run] never
    fails, and the comparisons that sorting makes are all between jobs
    that have a [next_run], for which [__lt__] returns, and returns the
    order used for the sort. *)
Theorem X8_scheduled_ok E w :
  scheduled_ok initial_world
  /\ (scheduled_ok w ->
      stays_ok (run_pending E) w
      /\ (forall d, stays_ok (run_all E d) w)
      /\ (forall job, stays_ok (cancel_job job) w)
      /\ stays_ok clear w
      /\ (forall n, stays_ok (every n) w)
      /\ (forall self name a k,
             (self < next_ref w)%nat -> stays_ok (do E self name a k) w)
      /\ (forall data, stays_ok (from_json E data) w)
      /\ (forall keep file, stays_ok (load_flash E keep file) w)
      /\ (forall self s, stays_ok (at_ self s) w)
      /\ (forall self l, stays_ok (to self l) w)
      /\ (forall self u, stays_ok (until E self u) w)
      /\ (forall self,
             Forall (fun acc : JobRef -> M JobRef => stays_ok (acc self) w)
                    [seconds; second; minutes; minute; hours; hour; days;
                     day; weeks; week; monday; tuesday; wednesday; thursday;
                     friday; saturday; sunday])
      /\ (forall e w', run_pending E w = Raises e w' -> e <> AssertionError)
      /\ (forall a b, In a (jobs w) -> In b (jobs w) ->
                      __lt__ a b w = Returns (Job_lt w a b) w)).
Proof.
  split; [constructor|]. intros Hok.
  split; [apply ends_in_stays_ok; [apply run_pending_keeps_schedule|auto]|].
  split; [intros; apply ends_in_stays_ok;
          [apply run_all_keeps_schedule|auto]|].
  split; [intros; apply ends_in_stays_ok;
          [apply cancel_job_keeps_schedule|auto]|].
  split; [apply ends_in_stays_ok; [apply clear_keeps_schedule|auto]|].
  split; [intros; apply ends_in_stays_ok;
          [apply new_Job_keeps_schedule|auto]|].
  split.
  { intros self name a k Hlt. unfold stays_ok.
    pose proof (@do_keeps_schedule E self name a k w Hlt) as H.
    destruct (do E self name a k w); auto;
      eapply keeps_schedule_ok; eassumption. }
  split; [intros; apply ends_in_stays_ok;
          [apply from_json_keeps_schedule|auto]|].
  split; [intros; apply ends_in_stays_ok;
          [apply load_flash_keeps_schedule|auto]|].
  split; [intros; apply ends_in_stays_ok; [apply at_keeps_schedule|auto]|].
  split; [intros; apply ends_in_stays_ok; [apply to_keeps_schedule|auto]|].
  split; [intros; apply ends_in_stays_ok;
          [apply until_keeps_schedule|auto]|].
  split.
  { intros self.
    repeat constructor;
      (apply ends_in_stays_ok; [|exact Hok]);
      first [apply set_unit_to_keeps_schedule
            | apply singular_keeps_schedule
            | apply on_weekday_keeps_schedule]. }
  split.
  { intros e w' H. eapply run_pending_no_assertion; [|exact H].
    now apply scheduled_ok_all. }
  intros a b Ha Hb. unfold scheduled_ok in Hok.
  rewrite Forall_forall in Hok.
  apply lt_is_Job_lt; now apply Hok.
Qed.

(** X8, at an instance: the three jobs, through a tick. *)
Lemma X8_scheduled_ok_witness :
  scheduled_ok world_of_three_jobs
  /\ stays_ok (run_pending (env_at (wednesday_2020_01_01 + hms 0 0 10)))
              world_of_three_jobs
  /\ forall e w',
      run_pending (env_at (wednesday_2020_01_01 + hms 0 0 10))
                  world_of_three_jobs = Raises e w' ->
      e <> AssertionError.
Proof.
  split; [exact world_of_three_jobs_ok|].
  destruct (proj2 (X8_scheduled_ok
                     (env_at (wednesday_2020_01_01 + hms 0 0 10))
                     world_of_three_jobs)
                  world_of_three_jobs_ok)
    as (H1 & _ & _ & _ & _ & _ & _ & _ & _ & _ & _ & _ & H13 & _).
  split; [exact H1 | exact H13].
Defined.

(** ** run_all *)










(** ** load_flash *)

Lemma remove_first_middle x kept rest :
  ~ In x kept -> remove_first x (kept ++ x :: rest) = kept ++ rest.
Proof.
  induction kept as [|y kept IH]; cbn; intros H.
  - now rewrite Nat.eqb_refl.
  - destruct (Nat.eqb_spec y x); [subst; tauto|].
    rewrite IH; tauto.
Qed.

Lemma nth_error_middle (kept rest : list JobRef) :
  nth_error (kept ++ rest) (List.length kept) = nth_error rest 0.
Proof.
  rewrite nth_error_app2 by lia. now rewrite Nat.sub_diag.
Qed.

(** The clearing loop, entered at index [length kept] with [kept] before
    the index and [rest] from the index on. *)
Lemma cancel_each_returns fuel : forall kept rest w,
  jobs w = kept ++ rest -> NoDup (kept ++ rest) ->
  (List.length rest < fuel)%nat ->
  cancel_each fuel (List.length kept) w
  = Returns tt (with_jobs (kept ++ odds rest) w).
Proof.
  induction fuel as [|fuel IH]; intros kept rest w Hj Hnd Hlen; [lia|].
  cbn [cancel_each]. unfold bind at 1, get_jobs at 1.
  rewrite Hj, nth_error_middle.
  destruct rest as [|x rest]; cbn [nth_error odds].
  - unfold ret. rewrite <- Hj. now rewrite with_jobs_same.
  - assert (Hx : ~ In x kept).
    { apply NoDup_remove_2 in Hnd. intros H. apply Hnd.
      apply in_or_app. now left. }
    unfold bind at 1, cancel_job at 1.
    rewrite Hj, remove_first_middle by exact Hx.
    destruct rest as [|y rest]; cbn [odds].
    + destruct fuel as [|fuel]; [cbn in Hlen; lia|].
      cbn [cancel_each]. unfold bind, get_jobs. cbn [jobs with_jobs].
      assert (Hn : nth_error (kept ++ []) (S (List.length kept)) = None)
        by (apply nth_error_None; rewrite length_app; cbn; lia).
      rewrite Hn. reflexivity.
    + replace (S (List.length kept)) with (List.length (kept ++ [y]))
        by (rewrite length_app; cbn; lia).
      rewrite IH with (rest := rest).
      * cbn. rewrite <- app_assoc. reflexivity.
      * cbn. rewrite <- app_assoc. reflexivity.
      * apply NoDup_remove_1 in Hnd. rewrite <- app_assoc. exact Hnd.
      * cbn in Hlen. lia.
Qed.

Lemma odds_length l : List.length (odds l) = Nat.div2 (List.length l).
Proof.
  assert (H : List.length (odds l) = Nat.div2 (List.length l)
              /\ forall x, List.length (odds (x :: l))
                           = Nat.div2 (S (List.length l))).
  { induction l as [|y l [IH1 IH2]]; [split; reflexivity|].
    split; [apply IH2|]. intros x. cbn [odds List.length Nat.div2].
    now rewrite IH1. }
  exact (proj1 H).
Qed.

Lemma load_flash_records E keep data w0 w :
  (if negb keep
   then js <- get_jobs ;; cancel_each (S (List.length js)) 0
   else ret tt) w0 = Returns tt w ->
  exists w' new,
    load_flash E keep (Records data) w0 = Returns tt w'
    /\ jobs w' = jobs w ++ new
    /\ (List.length new <= List.length data)%nat
    /\ Forall (fun r => next_run (heap w' r) <> None) new.
Proof.
  intros H. unfold load_flash. unfold bind at 1. rewrite H.
  destruct (for_each_from_json_record E data w)
    as (w' & new & Hr & _ & _ & _ & _ & _ & J & L & _ & F).
  exists w', new. split.
  - unfold try_except_pass, from_json, bind. rewrite Hr. reflexivity.
  - split; [exact J|]. split; [exact L|].
    rewrite Forall_forall in *. intros r Hin. now apply F.
Qed.

(** X10.  [load_flash] never raises.  With [keep_existing] true, a file
    that is missing or is not JSON leaves everything as it is, and a list
    of records is restored after the jobs that are registered.  With
    [keep_existing] false, the loop that is to clear the registered jobs
    walks the job list while [cancel_job] shortens it: when the registered
    jobs are distinct, the loop ends, whatever bound above the length of
    the list is put on its steps, having removed the jobs at the even
    positions only; those at the odd positions, half of the jobs rounded
    down, stay registered in their order, and the restored jobs come after
    them. *)
Theorem X10_load_flash E w :
  (forall file, file = No_file \/ file = Not_json ->
                load_flash E true file w = Returns tt w)
  /\ (forall data,
         exists w' new,
           load_flash E true (Records data) w = Returns tt w'
           /\ jobs w' = jobs w ++ new
           /\ (List.length new <= List.length data)%nat
           /\ Forall (fun r => next_run (heap w' r) <> None) new)
  /\ (NoDup (jobs w) ->
      (forall fuel, (List.length (jobs w) < fuel)%nat ->
                    cancel_each fuel 0 w
                    = Returns tt (with_jobs (odds (jobs w)) w))
      /\ List.length (odds (jobs w)) = Nat.div2 (List.length (jobs w))
      /\ (forall file, file = No_file \/ file = Not_json ->
                       load_flash E false file w
                       = Returns tt (with_jobs (odds (jobs w)) w))
      /\ (forall data,
             exists w' new,
               load_flash E false (Records data) w = Returns tt w'
               /\ jobs w' = odds (jobs w) ++ new
               /\ (List.length new <= List.length data)%nat
               /\ Forall (fun r => next_run (heap w' r) <> None) new)).
Proof.
  split; [|split].
  - intros file [-> | ->]; reflexivity.
  - intros data. now apply load_flash_records with (w := w).
  - intros Hnd.
    assert (Hloop : forall fuel,
               (List.length (jobs w) < fuel)%nat ->
               cancel_each fuel 0 w
               = Returns tt (with_jobs (odds (jobs w)) w)).
    { intros fuel Hf.
      exact (@cancel_each_returns fuel [] (jobs w) w eq_refl Hnd Hf). }
    assert (Hclear : (js <- get_jobs ;; cancel_each (S (List.length js)) 0) w
                     = Returns tt (with_jobs (odds (jobs w)) w)).
    { unfold bind, get_jobs. apply Hloop. lia. }
    split; [exact Hloop|]. split; [apply odds_length|]. split.
    + intros file [-> | ->]; unfold load_flash; cbn [negb];
        unfold bind at 1; rewrite Hclear; reflexivity.
    + intros data.
      destruct (@load_flash_records E false data w _ Hclear)
        as (w' & new & Hr & J & L & F).
      exists w', new. auto.
Qed.

(** X10, at an instance: the three jobs, no file; the second job stays. *)
Lemma X10_load_flash_witness :
  load_flash (env_at wednesday_2020_01_01) false No_file world_of_three_jobs
  = Returns tt (with_jobs [1%nat] world_of_three_jobs).
Proof.
  refine (proj1 (proj2 (proj2
            (proj2 (proj2 (X10_load_flash (env_at wednesday_2020_01_01)
                             world_of_three_jobs)) _)))
            No_file (or_introl eq_refl)).
  repeat constructor; cbn; intuition discriminate.
Defined.

(** ** until *)

(** X11.  [until] stores the deadline before it validates it.  Given an
    instant, it stores it as the deadline, reads the clock once, and
    raises ScheduleValueError exactly when the instant is before that
    reading, the deadline staying on the job: a job whose deadline was
    rejected, if it is run all the same at a later reading of the clock,
    returns CancelJob without calling its function.  Given a duration, it
    reads the clock twice: the deadline is the first reading plus the
    duration, and it is rejected exactly when it is before the second
    reading. *)
Theorem X11_until E self w :
  let t0 := clock E (clock_reads w) in
  let t1 := clock E (S (clock_reads w)) in
  (forall d,
      let w' := set_job self (set_cancel_after (Some d) (heap w self))
                        (with_clock_reads (S (clock_reads w)) w) in
      until E self (Until_datetime d) w
      = (if d <? t0 then Raises ScheduleValueError w' else Returns self w')
      /\ (d < t0 -> t0 <= t1 ->
          run E self w'
          = Returns Ret_CancelJob
                    (with_clock_reads (S (S (clock_reads w))) w')))
  /\ (forall td,
         let w' := set_job self
                     (set_cancel_after (Some (t0 + td)) (heap w self))
                     (with_clock_reads (S (S (clock_reads w))) w) in
         until E self (Until_timedelta td) w
         = if t0 + td <? t1 then Raises ScheduleValueError w'
           else Returns self w').
Proof.
  intros t0 t1. split.
  - intros d w'. split.
    + unfold until. exec. fold t0. destruct (d <? t0); reflexivity.
    + intros Hlt Hle.
      rewrite run_overdue with (d := d).
      * reflexivity.
      * unfold w', set_job. cbn. now rewrite upd_same.
      * unfold w'. cbn. fold t1. lia.
  - intros td w'. unfold until. exec. fold t0 t1.
    destruct (t0 + td <? t1); reflexivity.
Qed.

(** X11, at an instance: a deadline ten seconds in the past, and the run
    that follows. *)
Lemma X11_until_witness :
  let E := env_at (wednesday_2020_01_01 + hms 0 0 10) in
  let w := world_with_job (job_due_at wednesday_2020_01_01) in
  let w' := set_job 0%nat
              (set_cancel_after (Some wednesday_2020_01_01)
                 (job_due_at wednesday_2020_01_01))
              (with_clock_reads 1%nat w) in
  until E 0%nat (Until_datetime wednesday_2020_01_01) w
  = Raises ScheduleValueError w'
  /\ run E 0%nat w' = Returns Ret_CancelJob (with_clock_reads 2%nat w').
Proof.
  intros E w w'.
  destruct (proj1 (X11_until E 0%nat w) wednesday_2020_01_01) as [H1 H2].
  split.
  - exact H1.
  - apply H2; vm_compute; [reflexivity | discriminate].
Defined.

(** ** The strings [at] accepts, and those it rejects *)

Lemma dead_not_nullable r : dead r = true -> nullable r = false.
Proof.
  induction r; cbn; try discriminate; try reflexivity.
  - rewrite orb_true_iff. intros [H|H];
      [rewrite IHr1 by exact H; reflexivity
      | rewrite IHr2 by exact H; apply andb_false_r].
  - rewrite andb_true_iff. intros [H1 H2]. now rewrite IHr1, IHr2.
Qed.

Lemma dead_deriv c r : dead r = true -> dead (deriv c r) = true.
Proof.
  induction r; cbn; try discriminate; try reflexivity.
  - rewrite orb_true_iff. intros H.
    destruct (nullable r1) eqn:Hn; cbn.
    + destruct H as [H|H].
      * apply dead_not_nullable in H. congruence.
      * rewrite IHr2 by exact H. rewrite H. now rewrite orb_true_r.
    + destruct H as [H|H]; [now rewrite IHr1 | rewrite H; apply orb_true_r].
  - rewrite andb_true_iff. intros [H1 H2]. now rewrite IHr1, IHr2.
Qed.

Lemma re_match_dead s : forall r, dead r = true -> re_match r s = false.
Proof.
  induction s as [|c s IH]; intros r H; cbn.
  - now apply dead_not_nullable.
  - apply IH. now apply dead_deriv.
Qed.

Lemma re_match_Alt s : forall r1 r2,
  re_match (Alt r1 r2) s = re_match r1 s || re_match r2 s.
Proof.
  induction s as [|c s IH]; intros r1 r2; cbn; [reflexivity | apply IH].
Qed.

Lemma re_match_Cat_Empty r s : re_match (Cat Empty r) s = re_match r s.
Proof.
  destruct s as [|c s]; cbn; [reflexivity|].
  rewrite re_match_Alt. now rewrite re_match_dead by reflexivity.
Qed.

(** One character of a match against [Cat (Range lo hi) r], against
    [Cat (Char x) r] and against [Range lo hi]. *)
Lemma re_match_Cat_Range lo hi r s :
  re_match (Cat (Range lo hi) r) s = true ->
  exists c s', s = String c s' /\ in_range lo hi c = true
               /\ re_match r s' = true.
Proof.
  destruct s as [|c s]; cbn; [discriminate|].
  destruct (in_range lo hi c) eqn:Hc.
  - rewrite re_match_Cat_Empty. eauto.
  - now rewrite re_match_dead by reflexivity.
Qed.

Lemma re_match_Cat_Char x r s :
  re_match (Cat (Char x) r) s = true ->
  exists s', s = String x s' /\ re_match r s' = true.
Proof.
  destruct s as [|c s]; cbn; [discriminate|].
  destruct (Ascii.eqb_spec c x) as [->|Hne].
  - rewrite re_match_Cat_Empty. eauto.
  - now rewrite re_match_dead by reflexivity.
Qed.

Lemma re_match_Range lo hi s :
  re_match (Range lo hi) s = true ->
  exists c, s = String c EmptyString /\ in_range lo hi c = true.
Proof.
  destruct s as [|c s]; cbn; [discriminate|].
  destruct (in_range lo hi c) eqn:Hc.
  - destruct s as [|c' s]; cbn; [eauto|].
    now rewrite re_match_dead by reflexivity.
  - now rewrite re_match_dead by reflexivity.
Qed.

Lemma re_daily_shape s : re_match re_daily s = true -> daily_format s.
Proof.
  unfold re_daily, digit, colon, daily_format. intros H.
  apply re_match_Cat_Range in H. destruct H as (h1 & s1 & -> & H1 & H).
  apply re_match_Cat_Range in H. destruct H as (h2 & s2 & -> & H2 & H).
  apply re_match_Cat_Char in H. destruct H as (s3 & -> & H).
  apply re_match_Cat_Range in H. destruct H as (m1 & s4 & -> & H3 & H).
  apply re_match_Cat_Range in H. destruct H as (m2 & s5 & -> & H4 & H).
  destruct s5 as [|c s5].
  - left. exists h1, h2, m1, m2. auto.
  - right. change (re_match (Opt ?r) (String c s5))
      with (re_match r (String c s5)) in H.
    apply re_match_Cat_Char in H. destruct H as (s6 & E & H).
    injection E as -> ->.
    apply re_match_Cat_Range in H. destruct H as (c1 & s7 & -> & H5 & H).
    apply re_match_Range in H. destruct H as (c2 & -> & H6).
    exists h1, h2, m1, m2, c1, c2. auto 10.
Qed.

Lemma re_minutely_shape s :
  re_match re_minutely s = true -> minutely_format s.
Proof.
  unfold re_minutely, digit, colon, minutely_format. intros H.
  apply re_match_Cat_Char in H. destruct H as (s3 & -> & H).
  apply re_match_Cat_Range in H. destruct H as (c1 & s7 & -> & H5 & H).
  apply re_match_Range in H. destruct H as (c2 & -> & H6).
  exists c1, c2. auto.
Qed.

Lemma in_range_02_05 c :
  in_range "0" "2" c = true -> in_range "0" "5" c = true.
Proof.
  intros H. apply in_range_bounds in H. unfold in_range.
  rewrite andb_true_iff, !N.leb_le. cbn in *. lia.
Qed.

Section DailyDigits.

Variables h1 h2 m1 m2 s1 s2 : ascii.
Hypothesis G1 : in_range "0" "2" h1 = true.
Hypothesis G2 : in_range "0" "9" h2 = true.
Hypothesis G3 : in_range "0" "5" m1 = true.
Hypothesis G4 : in_range "0" "9" m2 = true.
Hypothesis G5 : in_range "0" "5" s1 = true.
Hypothesis G6 : in_range "0" "9" s2 = true.

Let G1' := in_range_05_09 _ (in_range_02_05 _ G1).
Let G3' := in_range_05_09 _ G3.
Let G5' := in_range_05_09 _ G5.
Let K1 := digit_not_colon _ G1'.
Let K2 := digit_not_colon _ G2.
Let K3 := digit_not_colon _ G3'.
Let K4 := digit_not_colon _ G4.
Let K5 := digit_not_colon _ G5'.
Let K6 := digit_not_colon _ G6.

Ltac daily_chars :=
  repeat (progress (cbn -[Ascii.eqb in_range N_of_ascii];
                    rewrite ?G1, ?G2, ?G3, ?G4, ?G5, ?G6, ?G1', ?G3', ?G5',
                      ?K1, ?K2, ?K3, ?K4, ?K5, ?K6, ?Ascii.eqb_refl)).

Lemma re_daily_hh_mm : re_match re_daily (hh_mm h1 h2 m1 m2) = true.
Proof. unfold hh_mm, re_daily, digit, colon. daily_chars. reflexivity. Qed.

Lemma re_daily_hh_mm_ss :
  re_match re_daily (hh_mm_ss h1 h2 m1 m2 s1 s2) = true.
Proof.
  unfold hh_mm_ss, re_daily, digit, colon. daily_chars. reflexivity.
Qed.

Lemma split_hh_mm :
  split ":" (hh_mm h1 h2 m1 m2) = [str2 h1 h2; str2 m1 m2].
Proof. unfold hh_mm. daily_chars. reflexivity. Qed.

Lemma split_hh_mm_ss :
  split ":" (hh_mm_ss h1 h2 m1 m2 s1 s2)
  = [str2 h1 h2; str2 m1 m2; str2 s1 s2].
Proof. unfold hh_mm_ss. daily_chars. reflexivity. Qed.

Lemma int_hours : int_ (F_str (str2 h1 h2)) = ret (two_digits h1 h2).
Proof. apply int_str2; [apply in_range_02_05, G1 | exact G2]. Qed.

Lemma hours_bound : 0 <= two_digits h1 h2 <= 29.
Proof.
  pose proof (in_range_bounds _ _ _ G1) as B1.
  pose proof (in_range_bounds _ _ _ G2) as B2.
  change (Z.of_N (N_of_ascii "0")) with 48 in B1, B2.
  change (Z.of_N (N_of_ascii "2")) with 50 in B1.
  change (Z.of_N (N_of_ascii "9")) with 57 in B2.
  unfold two_digits, digit_of. lia.
Qed.

End DailyDigits.

Lemma at_daily_hh_mm w self h1 h2 m1 m2 :
  unit (heap w self) = Some "days" ->
  in_range "0" "2" h1 = true -> in_range "0" "9" h2 = true ->
  in_range "0" "5" m1 = true -> in_range "0" "9" m2 = true ->
  at_ self (hh_mm h1 h2 m1 m2) w
  = if two_digits h1 h2 <=? 23
    then Returns self
           (set_job self
              (set_at_time
                 (Some (mk_time (two_digits h1 h2) (two_digits m1 m2) 0 0))
                 (heap w self)) w)
    else Raises ScheduleValueError w.
Proof.
  intros Hu G1 G2 G3 G4.
  unfold at_; unfold bind at 1, getattr at 1; rewrite Hu.
  cbn [str_in str_is String.eqb Ascii.eqb Bool.eqb orb andb negb raise_if].
  rewrite re_daily_hh_mm, split_hh_mm by assumption.
  cbn [negb]. exec.
  rewrite int_hours by assumption. exec.
  pose proof (hours_bound _ _ G1 G2) as Bh.
  pose proof (two_digits_bound _ _ G3 G4) as Bm.
  assert (H0 : (0 <=? two_digits h1 h2) = true) by (apply Z.leb_le; lia).
  rewrite H0. cbn [andb].
  destruct (two_digits h1 h2 <=? 23) eqn:Hh; cbn [negb]; [|reflexivity].
  exec. rewrite !int_F_int, int_str2 by assumption. exec.
  apply Z.leb_le in Hh.
  rewrite time_in_range by lia. reflexivity.
Qed.

Lemma re_match_Cat_Opt r1 r2 s :
  re_match (Cat (Opt r1) r2) s = re_match (Cat r1 r2) s || re_match r2 s.
Proof.
  destruct s as [|c s]; cbn.
  - destruct (nullable r1), (nullable r2); reflexivity.
  - rewrite re_match_Alt. destruct (nullable r1).
    + rewrite re_match_Alt.
      destruct (re_match (Cat (deriv c r1) r2) s),
        (re_match (deriv c r2) s); reflexivity.
    + reflexivity.
Qed.

Lemma re_match_Cat_settled x r s :
  re_match (Cat (Alt (Cat Never x) Empty) r) s = re_match r s.
Proof.
  destruct s as [|c s]; cbn; [reflexivity|].
  rewrite re_match_Alt. now rewrite re_match_dead by reflexivity.
Qed.

Lemma re_match_Cat_two lo1 hi1 lo2 hi2 r s :
  re_match (Cat (Cat (Range lo1 hi1) (Range lo2 hi2)) r) s = true ->
  exists c1 c2 s',
    s = String c1 (String c2 s')
    /\ in_range lo1 hi1 c1 = true /\ in_range lo2 hi2 c2 = true
    /\ re_match r s' = true.
Proof.
  destruct s as [|c1 s]; cbn; [discriminate|].
  destruct (in_range lo1 hi1 c1) eqn:H1;
    [|now rewrite re_match_dead by reflexivity].
  destruct s as [|c2 s]; cbn; [discriminate|].
  destruct (in_range lo2 hi2 c2) eqn:H2;
    [|now rewrite re_match_dead by reflexivity].
  rewrite re_match_Cat_settled. eauto 10.
Qed.

Lemma re_hourly_shape s : re_match re_hourly s = true -> hourly_format s.
Proof.
  unfold re_hourly, digit, colon, hourly_format.
  rewrite re_match_Cat_Opt, orb_true_iff. intros [H|H].
  - left. apply re_match_Cat_two in H.
    destruct H as (m1 & m2 & s' & -> & H1 & H2 & H).
    apply re_match_Cat_Char in H. destruct H as (s3 & -> & H).
    apply re_match_Cat_Range in H. destruct H as (c1 & s7 & -> & H5 & H).
    apply re_match_Range in H. destruct H as (c2 & -> & H6).
    exists m1, m2, c1, c2. auto.
  - right. apply re_match_Cat_Char in H. destruct H as (s3 & -> & H).
    apply re_match_Cat_Range in H. destruct H as (c1 & s7 & -> & H5 & H).
    apply re_match_Range in H. destruct H as (c2 & -> & H6).
    exists c1, c2. auto.
Qed.

Lemma at_daily_hh_mm_ss w self h1 h2 m1 m2 s1 s2 :
  unit (heap w self) = Some "days" ->
  in_range "0" "2" h1 = true -> in_range "0" "9" h2 = true ->
  in_range "0" "5" m1 = true -> in_range "0" "9" m2 = true ->
  in_range "0" "5" s1 = true -> in_range "0" "9" s2 = true ->
  at_ self (hh_mm_ss h1 h2 m1 m2 s1 s2) w
  = if two_digits h1 h2 <=? 23
    then Returns self
           (set_job self
              (set_at_time
                 (Some (mk_time (two_digits h1 h2) (two_digits m1 m2)
                                (two_digits s1 s2) 0))
                 (heap w self)) w)
    else Raises ScheduleValueError w.
Proof.
  intros Hu G1 G2 G3 G4 G5 G6.
  unfold at_; unfold bind at 1, getattr at 1; rewrite Hu.
  cbn [str_in str_is String.eqb Ascii.eqb Bool.eqb orb andb negb raise_if].
  rewrite re_daily_hh_mm_ss, split_hh_mm_ss by assumption.
  cbn [negb]. exec.
  rewrite int_hours by assumption. exec.
  pose proof (hours_bound _ _ G1 G2) as Bh.
  pose proof (two_digits_bound _ _ G3 G4) as Bm.
  pose proof (two_digits_bound _ _ G5 G6) as Bs.
  assert (H0 : (0 <=? two_digits h1 h2) = true) by (apply Z.leb_le; lia).
  rewrite H0. cbn [andb].
  destruct (two_digits h1 h2 <=? 23) eqn:Hh; cbn [negb]; [|reflexivity].
  exec. rewrite !int_F_int, !int_str2 by assumption. exec.
  apply Z.leb_le in Hh.
  rewrite time_in_range by lia. reflexivity.
Qed.

Lemma at_daily_rejects w self s :
  unit (heap w self) = Some "days" ->
  re_match re_daily s = false ->
  at_ self s w = Raises ScheduleValueError w.
Proof.
  intros Hu Hre.
  unfold at_; unfold bind at 1, getattr at 1; rewrite Hu.
  cbn [str_in str_is String.eqb Ascii.eqb Bool.eqb orb andb negb raise_if].
  rewrite Hre. reflexivity.
Qed.

(** X12.  [at] on a daily job.  For a job with unit days, [at] returns
    exactly on the strings HH:MM and HH:MM:SS, HH from 00 to 23, MM and SS
    from 00 to 59: it stores that time of day, with second 0 for the short
    form, and changes nothing else.  On HH from 24 to 29, which the pattern
    lets through, and on every string of another form, it raises
    ScheduleValueError and leaves the job as it was.  Whatever it stores is
    a time of day within range. *)
Theorem X12_at_daily w self :
  unit (heap w self) = Some "days" ->
  (forall h1 h2 m1 m2,
      in_range "0" "2" h1 = true -> in_range "0" "9" h2 = true ->
      in_range "0" "5" m1 = true -> in_range "0" "9" m2 = true ->
      at_ self (hh_mm h1 h2 m1 m2) w
      = if two_digits h1 h2 <=? 23
        then Returns self
               (set_job self
                  (set_at_time
                     (Some (mk_time (two_digits h1 h2) (two_digits m1 m2)
                                    0 0))
                     (heap w self)) w)
        else Raises ScheduleValueError w)
  /\ (forall h1 h2 m1 m2 s1 s2,
         in_range "0" "2" h1 = true -> in_range "0" "9" h2 = true ->
         in_range "0" "5" m1 = true -> in_range "0" "9" m2 = true ->
         in_range "0" "5" s1 = true -> in_range "0" "9" s2 = true ->
         at_ self (hh_mm_ss h1 h2 m1 m2 s1 s2) w
         = if two_digits h1 h2 <=? 23
           then Returns self
                  (set_job self
                     (set_at_time
                        (Some (mk_time (two_digits h1 h2)
                                       (two_digits m1 m2)
                                       (two_digits s1 s2) 0))
                        (heap w self)) w)
           else Raises ScheduleValueError w)
  /\ (forall s, ~ daily_format s ->
                at_ self s w = Raises ScheduleValueError w)
  /\ (forall s r w',
         at_ self s w = Returns r w' ->
         daily_format s
         /\ exists t,
             at_time (heap w' self) = Some t
             /\ 0 <= t_hour t <= 23 /\ 0 <= t_minute t <= 59
             /\ 0 <= t_second t <= 59 /\ t_microsecond t = 0).
Proof.
  intros Hu. split; [|split; [|split]].
  - intros. now apply at_daily_hh_mm.
  - intros. now apply at_daily_hh_mm_ss.
  - intros s Hs. apply at_daily_rejects; [exact Hu|].
    destruct (re_match re_daily s) eqn:Hre; [|reflexivity].
    exfalso. apply Hs. now apply re_daily_shape.
  - intros s r w' Hr.
    assert (Hf : daily_format s).
    { destruct (re_match re_daily s) eqn:Hre;
        [now apply re_daily_shape|].
      rewrite at_daily_rejects in Hr by assumption. discriminate. }
    split; [exact Hf|].
    destruct Hf as [(h1 & h2 & m1 & m2 & -> & G1 & G2 & G3 & G4)
                   | (h1 & h2 & m1 & m2 & s1 & s2 & -> & G1 & G2 & G3 & G4
                      & G5 & G6)].
    + rewrite at_daily_hh_mm in Hr by assumption.
      destruct (two_digits h1 h2 <=? 23) eqn:Hh; [|discriminate].
      injection Hr as _ <-. eexists. split.
      { unfold set_job. cbn. rewrite upd_same.
        destruct (heap w self); reflexivity. }
      cbn. apply Z.leb_le in Hh.
      pose proof (hours_bound _ _ G1 G2).
      pose proof (two_digits_bound _ _ G3 G4). lia.
    + rewrite at_daily_hh_mm_ss in Hr by assumption.
      destruct (two_digits h1 h2 <=? 23) eqn:Hh; [|discriminate].
      injection Hr as _ <-. eexists. split.
      { unfold set_job. cbn. rewrite upd_same.
        destruct (heap w self); reflexivity. }
      cbn. apply Z.leb_le in Hh.
      pose proof (hours_bound _ _ G1 G2).
      pose proof (two_digits_bound _ _ G3 G4).
      pose proof (two_digits_bound _ _ G5 G6). lia.
Qed.

Lemma re_minutely_colon_ss s1 s2 :
  in_range "0" "5" s1 = true -> in_range "0" "9" s2 = true ->
  re_match re_minutely (colon_mm s1 s2) = true.
Proof.
  intros H1 H2. unfold colon_mm, re_minutely, digit, colon.
  cbn -[in_range]. now rewrite H1, H2.
Qed.

Lemma at_minutes_colon_ss w self s1 s2 :
  truthy (start_day (heap w self)) = false ->
  unit (heap w self) = Some "minutes" ->
  in_range "0" "5" s1 = true -> in_range "0" "9" s2 = true ->
  at_ self (colon_mm s1 s2) w
  = Returns self
      (set_job self
         (set_at_time (Some (mk_time 0 0 (two_digits s1 s2) 0))
                      (heap w self)) w).
Proof.
  intros Ht Hu H1 H2. enter_at Hu Ht.
  rewrite re_minutely_colon_ss, split_colon_mm by assumption.
  cbn [negb str2 String.eqb]. exec.
  rewrite !int_F_int, !int_str2 by assumption. exec.
  pose proof (two_digits_bound _ _ H1 H2).
  rewrite time_in_range by lia. reflexivity.
Qed.

Lemma at_hours_rejects w self s :
  truthy (start_day (heap w self)) = false ->
  unit (heap w self) = Some "hours" ->
  re_match re_hourly s = false ->
  at_ self s w = Raises ScheduleValueError w.
Proof. intros Ht Hu Hre. enter_at Hu Ht. rewrite Hre. reflexivity. Qed.

Lemma at_minutes_rejects w self s :
  truthy (start_day (heap w self)) = false ->
  unit (heap w self) = Some "minutes" ->
  re_match re_minutely s = false ->
  at_ self s w = Raises ScheduleValueError w.
Proof. intros Ht Hu Hre. enter_at Hu Ht. rewrite Hre. reflexivity. Qed.

Lemma at_wrong_unit w self s :
  truthy (start_day (heap w self)) = false ->
  str_in (unit (heap w self)) ["days"; "hours"; "minutes"] = false ->
  at_ self s w = Raises ScheduleValueError w.
Proof.
  intros Ht Hu. unfold at_; unfold bind at 1, getattr at 1.
  rewrite Hu, Ht. reflexivity.
Qed.

(** X12, at three instances: every().day.at(09:30), and the same job with
    the strings 25:00 and 9:30. *)
Lemma X12_at_daily_witness :
  at_ 0%nat "09:30" (world_with_job job_every_day)
  = Returns 0%nat
      (set_job 0%nat (set_at_time (Some (mk_time 9 30 0 0)) job_every_day)
               (world_with_job job_every_day))
  /\ at_ 0%nat "25:00" (world_with_job job_every_day)
     = Raises ScheduleValueError (world_with_job job_every_day)
  /\ at_ 0%nat "9:30" (world_with_job job_every_day)
     = Raises ScheduleValueError (world_with_job job_every_day).
Proof.
  destruct (X12_at_daily (world_with_job job_every_day) 0%nat eq_refl)
    as (H1 & _ & H3 & _).
  split; [|split].
  - exact (H1 "0" "9" "3" "0" eq_refl eq_refl eq_refl eq_refl)%char.
  - exact (H1 "2" "5" "0" "0" eq_refl eq_refl eq_refl eq_refl)%char.
  - apply H3.
    intros [(h1 & h2 & m1 & m2 & E & _)
           | (h1 & h2 & m1 & m2 & s1 & s2 & E & _)]; discriminate E.
Defined.

(** X13.  [at] on the other units, for a job without an anchor weekday.
    With unit hours it returns only on the strings MM:SS and :MM, and
    raises ScheduleValueError on any other string.  With unit minutes it
    returns exactly on the strings :SS, SS from 00 to 59, storing hour 0,
    minute 0 and second SS, and raises ScheduleValueError on any other
    string.  With any other unit than days, hours and minutes, and with no
    unit yet, it raises ScheduleValueError whatever the string.  A call
    that raises leaves the job as it was. *)
Theorem X13_at_formats w self :
  let j := heap w self in
  truthy (start_day j) = false ->
  (unit j = Some "hours" ->
   (forall s, ~ hourly_format s ->
              at_ self s w = Raises ScheduleValueError w)
   /\ (forall s r w', at_ self s w = Returns r w' -> hourly_format s))
  /\ (unit j = Some "minutes" ->
      (forall s1 s2,
          in_range "0" "5" s1 = true -> in_range "0" "9" s2 = true ->
          at_ self (colon_mm s1 s2) w
          = Returns self
              (set_job self
                 (set_at_time (Some (mk_time 0 0 (two_digits s1 s2) 0)) j)
                 w))
      /\ (forall s, ~ minutely_format s ->
                    at_ self s w = Raises ScheduleValueError w)
      /\ (forall s r w', at_ self s w = Returns r w' -> minutely_format s))
  /\ (str_in (unit j) ["days"; "hours"; "minutes"] = false ->
      forall s, at_ self s w = Raises ScheduleValueError w).
Proof.
  intros j Ht. split; [|split].
  - intros Hu.
    assert (Hrej : forall s, ~ hourly_format s ->
                             at_ self s w = Raises ScheduleValueError w).
    { intros s Hs. apply at_hours_rejects; try assumption.
      destruct (re_match re_hourly s) eqn:Hre; [|reflexivity].
      exfalso. apply Hs. now apply re_hourly_shape. }
    split; [exact Hrej|].
    intros s r w' Hr.
    destruct (re_match re_hourly s) eqn:Hre; [now apply re_hourly_shape|].
    rewrite at_hours_rejects in Hr by assumption. discriminate.
  - intros Hu. split; [|split].
    + intros. now apply at_minutes_colon_ss.
    + intros s Hs. apply at_minutes_rejects; try assumption.
      destruct (re_match re_minutely s) eqn:Hre; [|reflexivity].
      exfalso. apply Hs. now apply re_minutely_shape.
    + intros s r w' Hr.
      destruct (re_match re_minutely s) eqn:Hre;
        [now apply re_minutely_shape|].
      rewrite at_minutes_rejects in Hr by assumption. discriminate.
  - intros Hu s. now apply at_wrong_unit.
Qed.

(** X13, at four instances: every().minute.at(:30); every().hour with the
    string 1:30; every().minute with 30; and every(2).seconds, which takes
    no time of day. *)
Lemma X13_at_formats_witness :
  at_ 0%nat ":30" (world_with_job job_every_minute)
  = Returns 0%nat
      (set_job 0%nat
         (set_at_time (Some (mk_time 0 0 30 0)) job_every_minute)
         (world_with_job job_every_minute))
  /\ at_ 0%nat "1:30" (world_with_job job_every_hour)
     = Raises ScheduleValueError (world_with_job job_every_hour)
  /\ at_ 0%nat "30" (world_with_job job_every_minute)
     = Raises ScheduleValueError (world_with_job job_every_minute)
  /\ at_ 0%nat "10:30" (world_with_job job_every_2_seconds)
     = Raises ScheduleValueError (world_with_job job_every_2_seconds).
Proof.
  destruct (X13_at_formats (world_with_job job_every_minute) 0%nat eq_refl)
    as (_ & Hm & _).
  destruct (Hm eq_refl) as (M1 & M2 & _).
  destruct (X13_at_formats (world_with_job job_every_hour) 0%nat eq_refl)
    as (Hh & _).
  destruct (Hh eq_refl) as (R1 & _).
  destruct (X13_at_formats (world_with_job job_every_2_seconds) 0%nat
              eq_refl) as (_ & _ & Hs).
  split; [|split; [|split]].
  - exact (M1 "3" "0" eq_refl eq_refl)%char.
  - apply R1.
    intros [(m1 & m2 & s1 & s2 & E & _) | (m1 & m2 & E & _)];
      discriminate E.
  - apply M2. intros (s1 & s2 & E & _). discriminate E.
  - apply Hs. reflexivity.
Defined.
